(** * Verification of [preprocess.py]: EEG cleaning, statistics and z-scoring

    A shallow embedding of the preprocessing script of the EEG music
    challenge baselines: [interpolate], [open_and_interpolate],
    [get_stats], [z_score], [isolate_bands] and the per-file loop of
    [main], followed by the properties of the specification settled
    against them.

    Numbers.  A numpy [float64] sample is modelled as a rational, plus
    the three special values [+inf], [-inf] and [nan]; the two signed
    zeros are identified.  The arithmetic comes in two layers.  [fadd],
    [fsub], [fmul] and [fdiv] are the operations without rounding: the
    exact-arithmetic reading of the numpy expressions.  [fadd64],
    [fsub64], [fmul64] and [fdiv64] are the operations of IEEE 754
    binary64: the exact result rounded to nearest, ties to even, with
    gradual underflow and overflow to infinity ([round64]).  The exact
    layer is used where a property does not depend on the values
    computed (shapes, control flow, effects) and for [interpolate],
    whose only arithmetic, [(v + v) / 2] for a float [v] within the
    threshold, is exact in binary64 as well ([interpolate64_exact]); the
    round trip of [z_score] is stated on both layers. *)

From Stdlib Require Import ZArith QArith Qcanon Qcabs Qabs Qround Qpower.
From Stdlib Require Import Lqa List Lia.
From stdpp Require Import base decidable option list strings.

Local Open Scope string_scope.
Local Open Scope list_scope.

(** ** Samples *)

Inductive float64 : Type :=
| Fin (q : Qc)
| PInf
| NInf
| NaN.

Definition qz (z : Z) : Qc := Q2Qc (inject_Z z).

Definition Qc_ltb (a b : Qc) : bool := negb (Qle_bool b a).
Definition Qc_eqb (a b : Qc) : bool := Qeq_bool a b.

#[global] Instance Qc_eq_decision : EqDecision Qc := Qc_eq_dec.

#[global] Instance float64_eq_decision : EqDecision float64.
Proof. solve_decision. Defined.

(** The float of an integer literal. *)
Definition fz (z : Z) : float64 := Fin (qz z).

Definition isnan (x : float64) : bool :=
  match x with NaN => true | _ => false end.

Definition isfinite (x : float64) : bool :=
  match x with Fin _ => true | _ => false end.

(** [abs(x)] *)
Definition fabs (x : float64) : float64 :=
  match x with
  | Fin q => Fin (Qcabs q)
  | PInf | NInf => PInf
  | NaN => NaN
  end.

(** [x > y]; every comparison with [nan] is false. *)
Definition fgt (x y : float64) : bool :=
  match x, y with
  | NaN, _ | _, NaN => false
  | Fin a, Fin b => Qc_ltb b a
  | PInf, PInf => false
  | PInf, _ => true
  | _, PInf => false
  | NInf, _ => false
  | Fin _, NInf => true
  end.

Definition fneg (x : float64) : float64 :=
  match x with
  | Fin q => Fin (- q)
  | PInf => NInf
  | NInf => PInf
  | NaN => NaN
  end.

Definition fadd (x y : float64) : float64 :=
  match x, y with
  | NaN, _ | _, NaN => NaN
  | Fin a, Fin b => Fin (a + b)
  | PInf, NInf | NInf, PInf => NaN
  | PInf, _ | _, PInf => PInf
  | NInf, _ | _, NInf => NInf
  end.

Definition fsub (x y : float64) : float64 := fadd x (fneg y).

(** The sign of a rational: [1], [0] or [-1]. *)
Definition Qc_sgn (q : Qc) : Z := Z.sgn (Qnum q).

(** An infinity with the sign of [s]; [nan] for [s = 0]. *)
Definition inf_of_sign (s : Z) : float64 :=
  match s with
  | Z0 => NaN
  | Zpos _ => PInf
  | Zneg _ => NInf
  end.

Definition fsign (x : float64) : Z :=
  match x with
  | Fin q => Qc_sgn q
  | PInf => 1
  | NInf => (-1)
  | NaN => 0
  end.

Definition fmul (x y : float64) : float64 :=
  match x, y with
  | NaN, _ | _, NaN => NaN
  | Fin a, Fin b => Fin (a * b)
  | _, _ => inf_of_sign (fsign x * fsign y)
  end.

(** numpy's true division: a division by zero raises nothing, it yields
    an infinity ([nan] for [0/0]) and a warning.  The zero divisor is
    read as [+0.0]. *)
Definition fdiv (x y : float64) : float64 :=
  match x, y with
  | NaN, _ | _, NaN => NaN
  | Fin a, Fin b =>
      if Qc_eqb b 0 then inf_of_sign (Qc_sgn a) else Fin (a / b)
  | Fin _, _ => Fin 0
  | _, Fin b =>
      if Qc_eqb b 0 then x else inf_of_sign (fsign x * Qc_sgn b)
  | _, _ => NaN
  end.

(** ** Rounding

    IEEE 754 binary64, as numpy's [float64] has it: 53 significant bits,
    exponents from -1022 to 1023, subnormal numbers below [2^-1022], and
    rounding to nearest with ties to even.  An arithmetic operation
    returns its exact result rounded. *)

Section Rounding.

Local Open Scope Q_scope.

(** The nearest integer, ties to even. *)
Definition round_half_even (a : Q) : Z :=
  let k := Qfloor a in
  match Qcompare (a - inject_Z k) (1 # 2) with
  | Lt => k
  | Gt => (k + 1)%Z
  | Eq => if Z.even k then k else (k + 1)%Z
  end.

(** The exponent [e] with [2^e <= a < 2^(e+1)], for a rational [a > 0]. *)
Definition binade (a : Q) : Z :=
  let e := (Z.log2 (Qnum a) - Z.log2 (Zpos (Qden a)))%Z in
  if Qle_bool (2 ^ e) a then e else (e - 1)%Z.

(** The float nearest to the rational [q].  The last place of the
    result has the weight [2^c], [c] being 52 below the exponent of [q]
    and never below -1074; the significand is [|q| / 2^c] rounded to an
    integer; a result that reaches [2^1024] is the infinity of the sign
    of [q]. *)
Definition round64 (q : Qc) : float64 :=
  let a := Qabs q in
  if Qeq_bool a 0 then Fin 0
  else
    let c := (Z.max (binade a) (-1022) - 52)%Z in
    let m := round_half_even (a / 2 ^ c) in
    let v := inject_Z m * 2 ^ c in
    if Qle_bool (2 ^ 1024) v then inf_of_sign (Qc_sgn q)
    else Fin (Q2Qc (inject_Z (Qc_sgn q) * v)).

(** The exact result [q] of an operation neither overflows nor
    underflows: it is zero, or at least [2^-1022] in absolute value with
    a finite rounding. *)
Definition in_range (q : Qc) : bool :=
  Qeq_bool q 0 || (Qle_bool (2 ^ (-1022)) (Qabs q) && isfinite (round64 q)).

(** The float written as the decimal or fraction [q]. *)
Definition f64 (q : Q) : float64 := round64 (Q2Qc q).

(** [2^-51], four units of rounding. *)
Definition tolerance : Qc := Q2Qc (1 # 2251799813685248).

End Rounding.

Definition rounded (x : float64) : float64 :=
  match x with
  | Fin q => round64 q
  | _ => x
  end.

Definition fadd64 (x y : float64) : float64 := rounded (fadd x y).
Definition fsub64 (x y : float64) : float64 := rounded (fsub x y).
Definition fmul64 (x y : float64) : float64 := rounded (fmul x y).
Definition fdiv64 (x y : float64) : float64 := rounded (fdiv x y).

Definition exact_in_range (x : float64) : bool :=
  match x with
  | Fin q => in_range q
  | _ => false
  end.

(** A value a [float64] can hold: a special value, or a rational that
    rounding leaves as it is. *)
Definition is_float64 (x : float64) : Prop := rounded x = x.

#[global] Instance is_float64_dec (x : float64) : Decision (is_float64 x).
Proof. unfold is_float64. apply _. Defined.

#[global] Typeclasses Opaque is_float64.

(** ** Arrays and exceptions *)

(** A 2-D array, channels x time, as the list of its rows. *)
Abbreviation matrix := (list (list float64)).

Inductive exn : Type :=
| ResidualNan (msg : string)
| ValueError (msg : string)
| IndexError (msg : string)
| TypeError (msg : string)
| AttributeError (msg : string)
| OSError (msg : string).

Inductive result (A : Type) : Type :=
| Ok (a : A)
| Raise (e : exn).
Arguments Ok {A} a.
Arguments Raise {A} e.

Definition rbind {A B} (r : result A) (k : A -> result B) : result B :=
  match r with
  | Ok a => k a
  | Raise e => Raise e
  end.

Declare Scope result_scope.
Delimit Scope result_scope with result.
Notation "'let!' x ':=' r 'in' k" := (rbind r (fun x => k))
  (at level 10, x name, r at level 100, k at level 200) : result_scope.
Local Open Scope result_scope.

#[global] Instance exn_eq_decision : EqDecision exn.
Proof. solve_decision. Defined.

#[global] Instance result_eq_decision {A} `{EqDecision A} : EqDecision (result A).
Proof. solve_decision. Defined.

(** Python's index normalisation on an axis of length [n]: a negative
    index counts from the end, anything outside [-n, n) is an
    [IndexError]. *)
Definition py_index (i : Z) (n : nat) : result nat :=
  if ((0 <=? i) && (i <? Z.of_nat n))%Z then Ok (Z.to_nat i)
  else if ((- Z.of_nat n <=? i) && (i <? 0))%Z then Ok (Z.to_nat (Z.of_nat n + i))
  else Raise (IndexError "index is out of bounds for axis").

(** [row[t]] *)
Definition row_getitem (row : list float64) (t : Z) : result float64 :=
  let! ti := py_index t (length row) in
  match row !! ti with
  | Some x => Ok x
  | None => Raise (IndexError "index is out of bounds for axis")
  end.

(** [raw_data[channel, timepoint]] *)
Definition getitem (raw_data : matrix) (channel timepoint : Z) : result float64 :=
  let! ci := py_index channel (length raw_data) in
  match raw_data !! ci with
  | Some row => row_getitem row timepoint
  | None => Raise (IndexError "index is out of bounds for axis")
  end.

(** [raw_data[channel, timepoint] = v] *)
Definition setitem (raw_data : matrix) (channel timepoint : Z) (v : float64)
  : result matrix :=
  let! ci := py_index channel (length raw_data) in
  match raw_data !! ci with
  | Some row =>
      let! ti := py_index timepoint (length row) in
      Ok (<[ci := <[ti := v]> row]> raw_data)
  | None => Raise (IndexError "index is out of bounds for axis")
  end.

(** ** [interpolate] *)

(** [raw_data[abs(raw_data) > 1e2] = np.nan] *)
Definition threshold : float64 := fz 100.

Definition exceeds (x : float64) : bool := fgt (fabs x) threshold.

Definition mask_sample (x : float64) : float64 :=
  if exceeds x then NaN else x.

Definition mask_large (raw_data : matrix) : matrix :=
  map (map mask_sample) raw_data.

(** [np.where(np.isnan(raw_data))], stacked and transposed: the
    (channel, timepoint) pairs of the [nan] entries in row-major order. *)
Fixpoint where_isnan_row (t : nat) (row : list float64) : list nat :=
  match row with
  | [] => []
  | x :: row' =>
      if isnan x then t :: where_isnan_row (S t) row'
      else where_isnan_row (S t) row'
  end.

Fixpoint where_isnan_from (c : nat) (raw_data : matrix) : list (nat * nat) :=
  match raw_data with
  | [] => []
  | row :: rest => map (pair c) (where_isnan_row 0 row) ++ where_isnan_from (S c) rest
  end.

Definition where_isnan (raw_data : matrix) : list (nat * nat) :=
  where_isnan_from 0 raw_data.

(** The body of the [for channel, timepoint in nan_indices] loop.  Both
    [before] and [after] are read at [timepoint-1], as in the source. *)
Definition interpolate_step (raw_data : matrix) (idx : nat * nat) : result matrix :=
  let '(channel, timepoint) := idx in
  let! before := getitem raw_data (Z.of_nat channel) (Z.of_nat timepoint - 1) in
  let! after := getitem raw_data (Z.of_nat channel) (Z.of_nat timepoint - 1) in
  setitem raw_data (Z.of_nat channel) (Z.of_nat timepoint)
          (fdiv (fadd before after) (fz 2)).

Fixpoint for_each {S I} (body : S -> I -> result S) (items : list I) (s : S)
  : result S :=
  match items with
  | [] => Ok s
  | i :: items' => let! s' := body s i in for_each body items' s'
  end.

(** The array after the loop, before the residual check. *)
Definition interpolate_loop (raw_data : matrix) : result matrix :=
  let raw_data := mask_large raw_data in
  let nan_indices := where_isnan raw_data in
  for_each interpolate_step nan_indices raw_data.

Definition interpolate (raw_data : matrix) : result matrix :=
  let! raw_data := interpolate_loop raw_data in
  let nan_indices := where_isnan raw_data in
  let any_nan := negb (Nat.eqb (length nan_indices) 0) in
  if any_nan then Raise (ResidualNan "Data still contain Nans after interpolation")
  else Ok raw_data.

(** [interpolate] with the mean of [before] and [after] computed in
    [float64]; the comparisons with the threshold do not round. *)
Definition interpolate_step64 (raw_data : matrix) (idx : nat * nat) : result matrix :=
  let '(channel, timepoint) := idx in
  let! before := getitem raw_data (Z.of_nat channel) (Z.of_nat timepoint - 1) in
  let! after := getitem raw_data (Z.of_nat channel) (Z.of_nat timepoint - 1) in
  setitem raw_data (Z.of_nat channel) (Z.of_nat timepoint)
          (fdiv64 (fadd64 before after) (fz 2)).

Definition interpolate_loop64 (raw_data : matrix) : result matrix :=
  let raw_data := mask_large raw_data in
  let nan_indices := where_isnan raw_data in
  for_each interpolate_step64 nan_indices raw_data.

Definition interpolate64 (raw_data : matrix) : result matrix :=
  let! raw_data := interpolate_loop64 raw_data in
  let nan_indices := where_isnan raw_data in
  let any_nan := negb (Nat.eqb (length nan_indices) 0) in
  if any_nan then Raise (ResidualNan "Data still contain Nans after interpolation")
  else Ok raw_data.

(** An entry of the array while the loop runs, when the array holds
    floats: a float that is not above the threshold. *)
Definition clean_entry (v : float64) : Prop := is_float64 v /\ exceeds v = false.

(** ** The loop as a forward fill

    The loop visits the [nan] positions of a row from left to right and
    writes into the array it reads from, so the value it reads at
    [timepoint-1] is the one it has just repaired.  [fill_row] is that
    computation written as a function of one row; [interpolate_loop_fill]
    below shows that the loop computes it on every row. *)

(** [(before + after) / 2] with [after = before]. *)
Definition repair (before : float64) : float64 :=
  fdiv (fadd before before) (fz 2).

Fixpoint fill_from (prev : float64) (row : list float64) : list float64 :=
  match row with
  | [] => []
  | x :: row' =>
      let y := if isnan x then repair prev else x in
      y :: fill_from y row'
  end.

(** At index 0 the value "before" is the one at index [-1], the last of
    the row. *)
Definition fill_row (row : list float64) : list float64 :=
  match row with
  | [] => []
  | _ :: _ => fill_from (default NaN (last row)) row
  end.

(** A row keeps a [nan] after the loop exactly when its first and its
    last entry are both [nan] when the loop starts. *)
Definition residual_row (row : list float64) : bool :=
  match row with
  | [] => false
  | x :: _ => isnan x && isnan (default NaN (last row))
  end.

Definition has_nan (row : list float64) : bool := existsb isnan row.

(** One iteration of the loop, seen from the row it works on. *)
Definition row_step (row : list float64) (t : nat) : result (list float64) :=
  let! before := row_getitem row (Z.of_nat t - 1) in
  let! ti := py_index (Z.of_nat t) (length row) in
  Ok (<[ti := repair before]> row).

(** ** Recordings, the outside world, and the library calls

    What [mne], [numpy] and the file system contribute is kept as an
    interface: reading a FIF file, filtering one channel, the square
    root, and whether a file can be opened for writing.  Everything the
    script itself computes is defined below on top of it. *)

(** An [mne] raw object: the sampling rate, and the channels in their
    order, each a name with its samples.  [mne] makes the channel names
    of a file unique when it reads it. *)
Record Raw : Type := mkRaw {
  sfreq : float64;
  channels : list (string * list float64)
}.

(** [raw.ch_names] *)
Definition ch_names (raw : Raw) : list string := (channels raw).*1.

(** [raw.get_data()], channels x time. *)
Definition get_data (raw : Raw) : matrix := (channels raw).*2.

(** The arguments of [Raw.filter]; [None] is the default ['auto']. *)
Record filter_args : Type := mkFilterArgs {
  l_freq : float64;
  h_freq : float64;
  l_trans_bandwidth : option float64;
  h_trans_bandwidth : option float64
}.

Class Library : Type := {
  (** [mne.io.read_raw_fif(file, preload=True)] *)
  read_raw_fif : string -> result Raw;
  (** The filter [Raw.filter] applies to each channel, along time. *)
  filter_channel : float64 -> filter_args -> list float64 -> list float64;
  (** [np.sqrt] on one value. *)
  np_sqrt : float64 -> float64;
  (** Whether [np.save(file, ...)] can open its file for writing.
      [np.save] creates no directory, so it cannot when the directory of
      [file] does not exist; the part of [main] modelled here creates
      none either, so the answer does not change during a run. *)
  np_save_opens : string -> bool
}.

(** The observable effects of the script: lines printed, arrays saved. *)
Record world : Type := mkWorld {
  stdout : list string;
  saved : list (string * list (list float64))
}.

Definition io (A : Type) : Type := world -> world * result A.

Definition io_ret {A} (a : A) : io A := fun w => (w, Ok a).

Definition io_bind {A B} (m : io A) (k : A -> io B) : io B :=
  fun w =>
    match m w with
    | (w', Ok a) => k a w'
    | (w', Raise e) => (w', Raise e)
    end.

Definition io_lift {A} (r : result A) : io A := fun w => (w, r).

Declare Scope io_scope.
Delimit Scope io_scope with io.
Notation "'do!' x ':=' m 'in' k" := (io_bind m (fun x => k))
  (at level 10, x name, m at level 100, k at level 200) : io_scope.
Notation "m ';;' k" := (io_bind m (fun _ => k))
  (at level 100, k at level 200, right associativity) : io_scope.

(** The world after one more printed line. *)
Definition logged (w : world) (line : string) : world :=
  {| stdout := stdout w ++ [line]; saved := saved w |}.

Definition print (line : string) : io unit :=
  fun w => (logged w line, Ok tt).

(** [np.save(file, arr)]: the call is recorded with its two arguments
    when the file opens (numpy itself adds [.npy] to a name that lacks
    it); when it does not, [open] raises [FileNotFoundError], an
    [OSError], and nothing is written. *)
Definition np_save `{Library} (file : string) (arr : matrix) : io unit :=
  fun w =>
    if np_save_opens file
    then ({| stdout := stdout w; saved := saved w ++ [(file, arr)] |}, Ok tt)
    else (w, Raise (OSError "No such file or directory")).

(** [for x in tqdm(items): body(x)]; the progress bar that [tqdm] draws
    on stderr is left out. *)
Fixpoint io_for {I} (items : list I) (body : I -> io unit) : io unit :=
  match items with
  | [] => io_ret tt
  | x :: items' => io_bind (body x) (fun _ => io_for items' body)
  end.

(** [tmp = []; for x in items: tmp.append(body(x))] *)
Fixpoint io_collect {I A} (items : list I) (body : I -> io A) : io (list A) :=
  match items with
  | [] => io_ret []
  | x :: items' =>
      io_bind (body x) (fun a =>
      io_bind (io_collect items' body) (fun tmp => io_ret (a :: tmp)))
  end.

(** [s.replace(old, new)]: the occurrences of [old] are replaced from
    left to right, without overlap. *)
Fixpoint replace_go (skip : nat) (old new s : string) : string :=
  match s with
  | EmptyString => EmptyString
  | String c s' =>
      match skip with
      | S k => replace_go k old new s'
      | O =>
          if String.prefix old s
          then new ++ replace_go (String.length old - 1) old new s'
          else String c (replace_go 0 old new s')
      end
  end.

Fixpoint replace_empty (new s : string) : string :=
  match s with
  | EmptyString => new
  | String c s' => new ++ String c (replace_empty new s')
  end.

Definition str_replace (s old new : string) : string :=
  match old with
  | EmptyString => replace_empty new s
  | String _ _ => replace_go 0 old new s
  end.

(** ** [open_and_interpolate] *)

Definition CH_NAMES : list string :=
  ["Cz"; "Fz"; "Fp1"; "F7"; "F3"; "FC1"; "C3"; "FC5"; "FT9"; "T7"; "CP5";
   "CP1"; "P3"; "P7"; "PO9"; "O1"; "Pz"; "Oz"; "O2"; "PO10"; "P8"; "P4";
   "CP2"; "CP6"; "T8"; "FT10"; "FC6"; "C4"; "FC2"; "F4"; "F8"; "Fp2"].

(** [raw.drop_channels(drop)]: the channels named in [drop] are removed,
    the others keep their order. *)
Definition drop_channels (raw : Raw) (drop : list string) : Raw :=
  {| sfreq := sfreq raw;
     channels := filter (fun ch => ch.1 ∉ drop) (channels raw) |}.

(** [mne.io.RawArray(data, info)] with
    [info = mne.create_info(ch_names, sfreq, 'eeg')]: the constructor
    refuses data whose number of rows is not the number of names. *)
Definition RawArray (data : matrix) (info_ch_names : list string) (info_sfreq : float64)
  : result Raw :=
  if Nat.eqb (length data) (length info_ch_names)
  then Ok {| sfreq := info_sfreq; channels := zip info_ch_names data |}
  else Raise (ValueError "len(data) does not match len(info['ch_names'])").

Section Pipeline.

Context `{Library}.

(** [raw.filter(...)]: every channel is filtered in place, and the
    object itself is returned. *)
Definition raw_filter (raw : Raw) (args : filter_args) : Raw :=
  {| sfreq := sfreq raw;
     channels :=
       map (fun ch => (ch.1, filter_channel (sfreq raw) args ch.2)) (channels raw) |}.

(** [interpolated.filter(1., 50.)] *)
Definition broadband : filter_args :=
  {| l_freq := fz 1; h_freq := fz 50;
     l_trans_bandwidth := None; h_trans_bandwidth := None |}.

Definition bands : list (string * (float64 * float64)) :=
  [("theta", (fz 4, fz 8));
   ("alpha", (fz 8, fz 12));
   ("beta", (fz 13, fz 30));
   ("gamma", (fz 30, fz 60))].

(** The loop of [isolate_bands]: [data.filter] works in place, so each
    band is filtered out of what the previous band left. *)
Fixpoint isolate_bands_loop (band_names : list (string * (float64 * float64)))
  (data : Raw) : list (string * matrix) :=
  match band_names with
  | [] => []
  | (band_name, (low, high)) :: band_names' =>
      let band :=
        raw_filter data
          {| l_freq := low; h_freq := high;
             l_trans_bandwidth := Some (fz 1);
             h_trans_bandwidth := Some (fz 1) |} in
      (band_name, get_data band) :: isolate_bands_loop band_names' band
  end.

Definition isolate_bands (data : Raw) : list (string * matrix) :=
  isolate_bands_loop bands data.

(** What [open_and_interpolate] returns when it does not return [None]:
    an array, or a dictionary from band name to array. *)
Inductive loaded : Type :=
| Single (arr : matrix)
| Banded (out : list (string * matrix)).

Local Open Scope io_scope.

Definition open_and_interpolate (file : string) (split_bands : bool)
  : io (option loaded) :=
  do! raw_data := io_lift (read_raw_fif file) in
  let all_ch := ch_names raw_data in
  let drop := filter (fun ch => ch ∉ CH_NAMES) all_ch in
  let raw_data := get_data (drop_channels raw_data drop) in
  match interpolate raw_data with
  | Raise (ResidualNan _) =>
      print ("Residual NaNs in " ++ file) ;;
      io_ret None
  | Raise e => io_lift (Raise e)
  | Ok interpolated =>
      let fs := fz 128 in
      do! interpolated := io_lift (RawArray interpolated CH_NAMES fs) in
      let interpolated := raw_filter interpolated broadband in
      if split_bands
      then io_ret (Some (Banded (isolate_bands interpolated)))
      else io_ret (Some (Single (get_data interpolated)))
  end.

(** ** [get_stats] *)

(** How [np.concatenate] sees one element of [tmp]: an array has two
    dimensions, [None] (or a dictionary) becomes a zero-dimensional
    object array. *)
Definition as_array (x : option loaded) : option matrix :=
  match x with
  | Some (Single arr) => Some arr
  | _ => None
  end.

(** Appending along the time axis; the channel counts must agree. *)
Definition concat_two (a b : matrix) : result matrix :=
  if Nat.eqb (length a) (length b)
  then Ok (zip_with app a b)
  else Raise (ValueError
    "all the input array dimensions except for the concatenation axis must match exactly").

Fixpoint concat_rest (acc : matrix) (rest : list (option matrix)) : result matrix :=
  match rest with
  | [] => Ok acc
  | None :: _ =>
      Raise (ValueError "all the input arrays must have same number of dimensions")
  | Some b :: rest' =>
      let! acc' := concat_two acc b in concat_rest acc' rest'
  end.

(** [np.concatenate(tmp, axis=1)] *)
Definition np_concatenate (tmp : list (option matrix)) : result matrix :=
  match tmp with
  | [] => Raise (ValueError "need at least one array to concatenate")
  | None :: _ => Raise (ValueError "zero-dimensional arrays cannot be concatenated")
  | Some a :: rest => concat_rest a rest
  end.

Definition fsum (row : list float64) : float64 := foldl fadd (Fin 0) row.

Definition flen (row : list float64) : float64 := Fin (qz (Z.of_nat (length row))).

(** [np.mean(data, axis=1)], by its defining formula on the operations
    without rounding: the order in which numpy adds the samples up, and
    the rounding of the sums, are left out.  The theorems below depend
    on the shape of the statistics, not on their values. *)
Definition mean_row (row : list float64) : float64 := fdiv (fsum row) (flen row).

Definition np_mean (data : matrix) : list float64 := map mean_row data.

(** [np.std(data, axis=1)]: the square root of the mean squared
    deviation from the mean. *)
Definition std_row (row : list float64) : float64 :=
  let arrmean := mean_row row in
  let x := map (fun v => fsub v arrmean) row in
  let x := map (fun v => fmul v v) x in
  np_sqrt (fdiv (fsum x) (flen row)).

Definition np_std (data : matrix) : list float64 := map std_row data.

Definition get_stats (file_list : list string) : io (list float64 * list float64) :=
  do! tmp := io_collect file_list (fun file => open_and_interpolate file false) in
  do! data := io_lift (np_concatenate (map as_array tmp)) in
  let mean := np_mean data in
  let std := np_std data in
  io_ret (mean, std).

(** ** [z_score] *)

(** [a op v[:, np.newaxis]] for a channels x time array [a] and a vector
    [v]: numpy broadcasts the column [v] along time, and a single row or
    a single entry along the channels. *)
Definition broadcast_column (op : float64 -> float64 -> float64)
  (a : matrix) (v : list float64) : result matrix :=
  if Nat.eqb (length a) (length v)
  then Ok (zip_with (fun row s => map (fun x => op x s) row) a v)
  else match a, v with
       | _, [s] => Ok (map (fun row => map (fun x => op x s) row) a)
       | [row], _ => Ok (map (fun s => map (fun x => op x s) row) v)
       | _, _ => Raise (ValueError "operands could not be broadcast together")
       end.

Definition z_score (raw_data : matrix) (mean std : list float64) : result matrix :=
  let! centred := broadcast_column fsub raw_data mean in
  broadcast_column fdiv centred std.

(** ** The per-file loop of [main] *)

Definition main_loop_body (input_dir output_dir : string) (split_bands : bool)
  (mean std : list float64) (file : string) : io unit :=
  let input_file := file in
  let output_file :=
    str_replace (str_replace file ".fif" ".npy") input_dir output_dir in
  do! raw_data := open_and_interpolate input_file split_bands in
  match raw_data with
  | None => io_ret tt
  | Some raw_data =>
      match split_bands, raw_data with
      | true, Banded out =>
          io_for out (fun '(band_name, data) =>
            do! z_data := io_lift (z_score data mean std) in
            let file := str_replace output_file ".npy" ("_" ++ band_name ++ ".npy") in
            np_save file z_data)
      | false, Single arr =>
          do! z_data := io_lift (z_score arr mean std) in
          np_save output_file z_data
      | true, Single _ =>
          io_lift (Raise (AttributeError "'numpy.ndarray' object has no attribute 'keys'"))
      | false, Banded _ =>
          io_lift (Raise (TypeError "unsupported operand type(s) for -: 'dict' and 'float'"))
      end
  end.

Definition main_loop (input_dir output_dir : string) (split_bands : bool)
  (mean std : list float64) (files : list string) : io unit :=
  io_for files (main_loop_body input_dir output_dir split_bands mean std).

(** [main] from the global statistics on: the statistics of the whole
    training set, those of each subject, then the loop. *)
Definition main_from_stats (input_dir output_dir : string) (split_bands : bool)
  (files train_files : list string)
  (train_files_per_subject : list (string * list string)) : io unit :=
  print "Computing global statistics..." ;;
  do! stats := get_stats train_files in
  let '(mean, std) := stats in
  print "Global statistics computed!" ;;
  print "Computing subject-wise statistics..." ;;
  do! stats_per_subject :=
    io_collect train_files_per_subject (fun '(subject_id, files) =>
      do! st := get_stats files in io_ret (subject_id, st)) in
  print "Subject-wise statistics computed!" ;;
  print "Preprocessing data..." ;;
  main_loop input_dir output_dir split_bands mean std files ;;
  print "Preprocessing done!".

End Pipeline.

(** A sample that is a number and does not exceed the threshold. *)
Definition within_threshold (x : float64) : Prop :=
  isnan x = false /\ exceeds x = false.

#[global] Instance within_threshold_dec (x : float64) : Decision (within_threshold x).
Proof. unfold within_threshold. apply _. Defined.

(** A standard deviation that is a number and is [> 0]. *)
Definition finite_positive (x : float64) : Prop :=
  isfinite x = true /\ fgt x (Fin 0) = true.

#[global] Instance finite_positive_dec (x : float64) : Decision (finite_positive x).
Proof. unfold finite_positive. apply _. Defined.

(** [z * std[:, np.newaxis] + mean[:, np.newaxis]], the inverse transform. *)
Definition unscore (z : matrix) (mean std : list float64) : result matrix :=
  let! scaled := broadcast_column fmul z std in
  broadcast_column fadd scaled mean.

(** [z_score] and the inverse transform as numpy computes them on
    [float64] arrays: each of the two operations of either expression
    rounds. *)
Definition z_score64 (raw_data : matrix) (mean std : list float64) : result matrix :=
  let! centred := broadcast_column fsub64 raw_data mean in
  broadcast_column fdiv64 centred std.

Definition unscore64 (z : matrix) (mean std : list float64) : result matrix :=
  let! scaled := broadcast_column fmul64 z std in
  broadcast_column fadd64 scaled mean.

(** One sample standardised and transformed back, in [float64]. *)
Definition round_trip64 (x mu sigma : float64) : float64 :=
  fadd64 (fmul64 (fdiv64 (fsub64 x mu) sigma) sigma) mu.

(** None of the four operations of [round_trip64] overflows or
    underflows. *)
Definition round_trip_in_range (x mu sigma : float64) : bool :=
  let d := fsub64 x mu in
  let z := fdiv64 d sigma in
  let p := fmul64 z sigma in
  exact_in_range (fsub x mu) && exact_in_range (fdiv d sigma) &&
  exact_in_range (fmul z sigma) && exact_in_range (fadd p mu).

(** An array, its means and its stds, in floats that are not dyadic. *)
Definition decimal_array : matrix :=
  [[f64 (1 # 10); f64 (22 # 7); fz 6]; [fz 4; f64 (-5 # 3); fz 0]].

Definition decimal_mean : list float64 := [f64 (1 # 3); fz (-1)].

Definition decimal_std : list float64 := [f64 (7 # 10); fz 7].

(** The float [2^1023]; twice as much is out of range. *)
Definition two_to_1023 : float64 := f64 (2 ^ 1023).

(** ** Vocabulary of the statements *)

(** The recording as [interpolate] receives it: the channels outside
    [CH_NAMES] dropped. *)
Definition kept_channels (raw : Raw) : Raw :=
  drop_channels raw (filter (fun ch => ch ∉ CH_NAMES) (ch_names raw)).

Definition empty_world : world := {| stdout := []; saved := [] |}.

(** ** Sample recordings

    Small recordings on which the statements below are evaluated: three
    samples per channel, channel [i] of the file holding [i, 1, 2]. *)

Definition sample_channels (names : list string) : list (string * list float64) :=
  imap (fun i name => (name, [fz (Z.of_nat i); fz 1; fz 2])) names.

(** The 32 canonical channels in canonical order, and one more. *)
Definition clean_recording : Raw :=
  {| sfreq := fz 128;
     channels := sample_channels (CH_NAMES ++ ["ECG"]) |}.

(** The canonical channels with the first two listed the other way round. *)
Definition swapped_recording : Raw :=
  {| sfreq := fz 128;
     channels := sample_channels ("Fz" :: "Cz" :: drop 2 CH_NAMES) |}.

(** A recording whose first channel starts and ends above the threshold. *)
Definition gapped_recording : Raw :=
  {| sfreq := fz 128;
     channels := ("Cz", [fz 500; fz 1; fz 500]) :: drop 1 (sample_channels CH_NAMES) |}.

Definition sample_disk (file : string) : result Raw :=
  if String.eqb file "train/clean_eeg.fif" then Ok clean_recording
  else if String.eqb file "train/swapped_eeg.fif" then Ok swapped_recording
  else if String.eqb file "train/gapped_eeg.fif" then Ok gapped_recording
  else if String.eqb file "train/gapped2_eeg.fif" then Ok gapped_recording
  else Raise (OSError "No such file or directory").

(** A library over [sample_disk] whose filter and square root leave
    their argument as it is, and whose only directory for output is
    [out/]. *)
Definition sample_library : Library :=
  {| read_raw_fif := sample_disk;
     filter_channel := fun _ _ row => row;
     np_sqrt := fun x => x;
     np_save_opens := String.prefix "out/" |}.

(** ** Further vocabulary *)

(** A sample the loop of [interpolate] visits: one that is [nan] once
    the large values have been masked. *)
Definition flagged (x : float64) : bool := isnan x || exceeds x.

(** The world after more printed lines and more saved arrays. *)
Definition extend (w : world) (lines : list string)
  (out : list (string * list (list float64))) : world :=
  {| stdout := stdout w ++ lines; saved := saved w ++ out |}.

(** A computation that, from any world, prints [lines], saves [out] and
    ends with [r]. *)
Definition writes {A} (m : io A) (lines : list string)
  (out : list (string * list (list float64))) (r : result A) : Prop :=
  forall w, m w = (extend w lines out, r).

(** The array [open_and_interpolate] loads from a file in plain mode
    (the empty array when it loads none). *)
Definition loaded_array `{Library} (file : string) : matrix :=
  match (open_and_interpolate file false empty_world).2 with
  | Ok (Some (Single arr)) => arr
  | _ => []
  end.

(** Arrays appended to [acc] along the time axis, one after the other. *)
Definition hconcat (acc : matrix) (rest : list (list (list float64))) : matrix :=
  foldl (zip_with app) acc rest.

(** ** The training files of [main]

    [os.path.join] as on a POSIX system: a component that starts with a
    slash discards what precedes it, and a slash is put before a
    component unless the path so far is empty or ends with one. *)

Definition starts_with_sep (s : string) : bool := String.prefix "/" s.

Fixpoint ends_with_sep (s : string) : bool :=
  match s with
  | EmptyString => false
  | String c EmptyString => String.eqb (String c EmptyString) "/"
  | String _ s' => ends_with_sep s'
  end.

Definition join_step (path b : string) : string :=
  if starts_with_sep b then b
  else if String.eqb path "" || ends_with_sep path then path ++ b
  else path ++ "/" ++ b.

Definition os_path_join (a : string) (p : list string) : string :=
  foldl join_step a p.

(** An entry of [splits["train"]]: its ['id'] as the f-string prints it,
    and its ['subject_id']. *)
Record split_entry : Type := mkEntry {
  entry_id : string;
  subject_id : string
}.

(** [os.path.join(input_dir, "train", f"{s['id']}_eeg.fif")] *)
Definition train_file (input_dir : string) (s : split_entry) : string :=
  os_path_join input_dir ["train"; (entry_id s ++ "_eeg.fif")%string].

Definition train_files_of (input_dir : string) (train : list split_entry)
  : list string :=
  map (train_file input_dir) train.

(** The dictionary [train_files_per_subject], its keys in the order of
    their insertion.  One turn of the loop: the subject gets an empty
    list if it has none yet, and the path is appended to its list. *)
Fixpoint dict_append (d : list (string * list string)) (subject path : string)
  : list (string * list string) :=
  match d with
  | [] => [(subject, [path])]
  | (k, v) :: d' =>
      if String.eqb k subject then (k, v ++ [path]) :: d'
      else (k, v) :: dict_append d' subject path
  end.

Definition train_files_per_subject_of (input_dir : string)
  (train : list split_entry) : list (string * list string) :=
  foldl (fun d file => dict_append d (subject_id file) (train_file input_dir file))
        [] train.

(** [main] from the list of files and the training split on. *)
Definition main_from_splits `{Library} (input_dir output_dir : string)
  (split_bands : bool) (files : list string) (train : list split_entry)
  : io unit :=
  main_from_stats input_dir output_dir split_bands files
    (train_files_of input_dir train)
    (train_files_per_subject_of input_dir train).

(** The elements of a list in the order of their first occurrence. *)
Fixpoint first_seen (l : list string) : list string :=
  match l with
  | [] => []
  | x :: l' => x :: filter (fun y => y <> x) (first_seen l')
  end.

(** The training files of one subject, in the order of the split. *)
Definition files_of_subject (input_dir : string) (train : list split_entry)
  (subject : string) : list string :=
  map (train_file input_dir) (filter (fun s => subject_id s = subject) train).

(** [old] occurs in [s]. *)
Fixpoint occurs (old s : string) : bool :=
  String.prefix old s ||
  match s with
  | EmptyString => false
  | String _ s' => occurs old s'
  end.

(** The character [c] occurs in [s]. *)
Fixpoint has_char (c : Ascii.ascii) (s : string) : bool :=
  match s with
  | EmptyString => false
  | String d s' => Ascii.eqb d c || has_char c s'
  end.

(** The arguments of [data.filter] in [isolate_bands]. *)
Definition band_args (low high : float64) : filter_args :=
  {| l_freq := low; h_freq := high;
     l_trans_bandwidth := Some (fz 1); h_trans_bandwidth := Some (fz 1) |}.

(** A recording with two of the canonical channels only. *)
Definition short_recording : Raw :=
  {| sfreq := fz 128;
     channels := sample_channels ["Cz"; "Fz"] |}.

Definition short_disk (file : string) : result Raw :=
  if String.eqb file "train/short_eeg.fif" then Ok short_recording
  else sample_disk file.

Definition short_library : Library :=
  {| read_raw_fif := short_disk;
     filter_channel := fun _ _ row => row;
     np_sqrt := fun x => x;
     np_save_opens := String.prefix "out/" |}.

(** The sample recordings under a directory [data/], with [out/] for
    the output. *)
Definition data_disk (file : string) : result Raw :=
  if String.prefix "data/" file
  then sample_disk (String.substring 5 (String.length file - 5) file)
  else Raise (OSError "No such file or directory").

Definition data_library : Library :=
  {| read_raw_fif := data_disk;
     filter_channel := fun _ _ row => row;
     np_sqrt := fun x => x;
     np_save_opens := String.prefix "out/" |}.

(** The name [main] computes for the output of [file]. *)
Definition output_file_of (input_dir output_dir file : string) : string :=
  str_replace (str_replace file ".fif" ".npy") input_dir output_dir.

(** An entry of the array while the loop runs: still [nan], or a number
    within the threshold. *)
Definition nan_or_within (x : float64) : Prop := x = NaN \/ within_threshold x.

(** * Properties *)

Lemma py_index_nat (i n : nat) : i < n -> py_index (Z.of_nat i) n = Ok i.
Proof.
  intros Hi. unfold py_index.
  replace ((0 <=? Z.of_nat i) && (Z.of_nat i <? Z.of_nat n))%Z with true.
  - by rewrite Nat2Z.id.
  - symmetry. apply andb_true_iff. split; [apply Z.leb_le | apply Z.ltb_lt]; lia.
Qed.

Lemma py_index_pred_succ (t n : nat) :
  S t < n -> py_index (Z.of_nat (S t) - 1) n = Ok t.
Proof.
  intros Ht. replace (Z.of_nat (S t) - 1)%Z with (Z.of_nat t) by lia.
  apply py_index_nat. lia.
Qed.

(** Index [-1] on a non-empty axis is its last position. *)
Lemma py_index_minus_one (n : nat) :
  py_index (Z.of_nat 0 - 1) (S n) = Ok n.
Proof.
  unfold py_index.
  destruct (Z.leb_spec 0 (Z.of_nat 0 - 1)); [lia|]. cbn [andb].
  destruct (Z.leb_spec (- Z.of_nat (S n)) (Z.of_nat 0 - 1)); [|lia].
  destruct (Z.ltb_spec (Z.of_nat 0 - 1) 0); [|lia].
  cbn [andb]. f_equal. lia.
Qed.

Lemma for_each_app {S I} (body : S -> I -> result S) (xs ys : list I) (s : S) :
  for_each body (xs ++ ys) s =
  let! s' := for_each body xs s in for_each body ys s'.
Proof.
  revert s. induction xs as [|x xs IH]; intros s; simpl; [done|].
  destruct (body s x); simpl; [apply IH | done].
Qed.

(** A step of the loop at [(c, t)] only touches row [c]. *)
Lemma interpolate_step_row (m : matrix) (c t : nat) (row : list float64) :
  m !! c = Some row ->
  interpolate_step m (c, t) =
  let! row' := row_step row t in Ok (<[c := row']> m).
Proof.
  intros Hc. pose proof (lookup_lt_Some _ _ _ Hc) as Hlt.
  unfold interpolate_step, getitem, setitem, row_step.
  rewrite (py_index_nat c (length m) Hlt). simpl. rewrite Hc.
  destruct (row_getitem row (Z.of_nat t - 1)) as [before|e]; simpl; [|done].
  destruct (py_index (Z.of_nat t) (length row)) as [ti|e]; simpl; done.
Qed.

Lemma row_step_length (row row' : list float64) (t : nat) :
  row_step row t = Ok row' -> length row' = length row.
Proof.
  unfold row_step.
  destruct (row_getitem row (Z.of_nat t - 1)); simpl; [|done].
  destruct (py_index (Z.of_nat t) (length row)); simpl; [|done].
  intros [= <-]. apply length_insert.
Qed.

Lemma for_each_row (ts : list nat) (m : matrix) (c : nat) (row : list float64) :
  m !! c = Some row ->
  for_each interpolate_step (map (pair c) ts) m =
  let! row' := for_each row_step ts row in Ok (<[c := row']> m).
Proof.
  revert m row. induction ts as [|t ts IH]; intros m row Hc;
    cbn [map for_each rbind].
  - by rewrite list_insert_id.
  - rewrite (interpolate_step_row m c t row Hc).
    destruct (row_step row t) as [row'|e]; cbn [rbind]; [|done].
    rewrite (IH (<[c := row']> m) row').
    + destruct (for_each row_step ts row'); cbn [rbind]; [|done].
      by rewrite list_insert_insert_eq.
    + apply list_lookup_insert_eq. by eapply lookup_lt_Some.
Qed.

(** At [t >= 1] a step reads the entry just to the left. *)
Lemma row_step_middle (pre : list float64) (y x : float64) (r : list float64) :
  row_step (pre ++ y :: x :: r) (S (length pre)) = Ok (pre ++ y :: repair y :: r).
Proof.
  unfold row_step, row_getitem.
  rewrite py_index_pred_succ by (rewrite length_app; simpl; lia).
  cbn [rbind]. rewrite list_lookup_middle by done. cbn [rbind].
  rewrite py_index_nat by (rewrite length_app; simpl; lia). cbn [rbind].
  f_equal.
  replace (pre ++ y :: x :: r) with ((pre ++ [y]) ++ x :: r)
    by (by rewrite <- app_assoc).
  replace (S (length pre)) with (length (pre ++ [y]) + 0)
    by (rewrite length_app; simpl; lia).
  rewrite insert_app_r. by rewrite <- app_assoc.
Qed.

(** At [t = 0] a step reads index [-1], the last entry of the row. *)
Lemma row_step_first (x z : float64) (r : list float64) :
  last (x :: r) = Some z ->
  row_step (x :: r) 0 = Ok (repair z :: r).
Proof.
  intros Hz. unfold row_step, row_getitem.
  change (length (x :: r)) with (S (length r)).
  rewrite py_index_minus_one. cbn [rbind].
  rewrite last_lookup in Hz. cbn [length Nat.pred] in Hz. rewrite Hz.
  cbn [rbind]. by rewrite (py_index_nat 0) by lia.
Qed.

(** Past index 0 the loop forward-fills: it reads the entry to the left,
    which it has already repaired. *)
Lemma row_fold_suffix (suffix pre : list float64) (y : float64) :
  for_each row_step (where_isnan_row (S (length pre)) suffix) (pre ++ y :: suffix) =
  Ok (pre ++ y :: fill_from y suffix).
Proof.
  revert pre y. induction suffix as [|x r IH]; intros pre y; [done|].
  assert (Hshift : forall z : float64,
    pre ++ y :: z :: r = (pre ++ [y]) ++ z :: r) by (intros; by rewrite <- app_assoc).
  assert (Hlen : S (S (length pre)) = S (length (pre ++ [y])))
    by (rewrite length_app; simpl; lia).
  cbn [where_isnan_row fill_from].
  destruct (isnan x).
  - cbn [for_each]. rewrite row_step_middle. cbn [rbind].
    rewrite Hshift, Hlen, IH. by rewrite <- app_assoc.
  - rewrite Hshift, Hlen, IH. by rewrite <- app_assoc.
Qed.

Lemma row_fold (row : list float64) :
  for_each row_step (where_isnan_row 0 row) row = Ok (fill_row row).
Proof.
  destruct row as [|x r]; [done|].
  unfold fill_row. cbn [where_isnan_row fill_from].
  destruct (last_is_Some (x :: r)) as [_ [z Hz]]; [done|].
  rewrite Hz. cbn [default from_option].
  destruct (isnan x) eqn:Hx.
  - cbn [for_each]. rewrite (row_step_first x z r Hz). cbn [rbind].
    apply (row_fold_suffix r [] (repair z)).
  - apply (row_fold_suffix r [] x).
Qed.

Lemma loop_from (rest pre : matrix) :
  for_each interpolate_step (where_isnan_from (length pre) rest) (pre ++ rest) =
  Ok (pre ++ map fill_row rest).
Proof.
  revert pre. induction rest as [|row rest IH]; intros pre; [done|].
  cbn [where_isnan_from map].
  rewrite for_each_app.
  rewrite (for_each_row _ _ _ row) by (by apply list_lookup_middle).
  rewrite row_fold. cbn [rbind].
  replace (<[length pre := fill_row row]> (pre ++ row :: rest))
    with (pre ++ fill_row row :: rest)
    by (replace (length pre) with (length pre + 0) by lia;
        by rewrite insert_app_r).
  replace (S (length pre)) with (length (pre ++ [fill_row row]))
    by (rewrite length_app; simpl; lia).
  replace (pre ++ fill_row row :: rest) with ((pre ++ [fill_row row]) ++ rest)
    by (by rewrite <- app_assoc).
  rewrite IH. by rewrite <- app_assoc.
Qed.

(** The loop of [interpolate] never fails, and computes [fill_row] on
    every row of the masked array. *)
Lemma interpolate_loop_fill (raw_data : matrix) :
  interpolate_loop raw_data = Ok (map fill_row (mask_large raw_data)).
Proof. apply (loop_from (mask_large raw_data) []). Qed.

(** ** [interpolate] as a function of the rows *)

Lemma isnan_repair (v : float64) : isnan (repair v) = isnan v.
Proof. destruct v; reflexivity. Qed.

Lemma repair_fin (a : Qc) : repair (Fin a) = Fin a.
Proof.
  unfold repair, fadd, fdiv.
  unfold fz. change (Qc_eqb (qz 2) 0) with false. cbv iota.
  f_equal. unfold qz.
  replace (Q2Qc (inject_Z 2)) with (1 + 1)%Qc by (by apply Qc_is_canon).
  field. discriminate.
Qed.

Lemma has_nan_fill_from (prev : float64) (row : list float64) :
  isnan prev = false -> has_nan (fill_from prev row) = false.
Proof.
  revert prev. induction row as [|x row IH]; intros prev Hprev; [done|].
  cbn [fill_from has_nan existsb].
  destruct (isnan x) eqn:Hx.
  - rewrite isnan_repair, Hprev. cbn [orb].
    apply IH. by rewrite isnan_repair.
  - rewrite Hx. cbn [orb]. by apply IH.
Qed.

Lemma has_nan_fill_row (row : list float64) :
  has_nan (fill_row row) = residual_row row.
Proof.
  destruct row as [|x r]; [done|].
  unfold fill_row, residual_row.
  set (z := default NaN (last (x :: r))).
  cbn [fill_from has_nan existsb].
  destruct (isnan x) eqn:Hx; cbn [andb].
  - rewrite isnan_repair. destruct (isnan z) eqn:Hz; [done|].
    cbn [orb]. apply has_nan_fill_from. by rewrite isnan_repair.
  - rewrite Hx. cbn [orb]. by apply has_nan_fill_from.
Qed.

Lemma where_isnan_row_length (row : list float64) (k : nat) :
  Nat.eqb (length (where_isnan_row k row)) 0 = negb (has_nan row).
Proof.
  revert k. induction row as [|x row IH]; intros k; [done|].
  cbn [where_isnan_row has_nan existsb].
  destruct (isnan x); [done|]. apply IH.
Qed.

Lemma where_isnan_from_length (m : matrix) (c : nat) :
  Nat.eqb (length (where_isnan_from c m)) 0 = negb (existsb has_nan m).
Proof.
  revert c. induction m as [|row m IH]; intros c; [done|].
  cbn [where_isnan_from existsb].
  rewrite length_app, length_map.
  pose proof (where_isnan_row_length row 0) as Hrow.
  specialize (IH (S c)).
  destruct (has_nan row); cbn [negb orb] in *.
  - destruct (length (where_isnan_row 0 row)); [done|]. done.
  - apply Nat.eqb_eq in Hrow. rewrite Hrow. exact IH.
Qed.

Lemma existsb_map {A B} (f : A -> B) (p : B -> bool) (l : list A) :
  existsb p (map f l) = existsb (fun x => p (f x)) l.
Proof. induction l as [|x l IH]; [done|]. cbn. by rewrite IH. Qed.

Lemma existsb_ext_eq {A} (p q : A -> bool) (l : list A) :
  (forall x, p x = q x) -> existsb p l = existsb q l.
Proof. intros E. induction l as [|x l IH]; [done|]. cbn. by rewrite E, IH. Qed.

(** [interpolate] in closed form: it raises [ResidualNan] exactly when
    some channel starts and ends with a flagged sample, and otherwise
    returns the forward-filled array.  No other exception is possible. *)
Lemma interpolate_closed_form (raw_data : matrix) :
  interpolate raw_data =
  if existsb residual_row (mask_large raw_data)
  then Raise (ResidualNan "Data still contain Nans after interpolation")
  else Ok (map fill_row (mask_large raw_data)).
Proof.
  unfold interpolate. rewrite interpolate_loop_fill. cbn [rbind].
  unfold where_isnan. rewrite where_isnan_from_length, negb_involutive.
  rewrite existsb_map.
  by rewrite (existsb_ext_eq _ residual_row) by apply has_nan_fill_row.
Qed.

Lemma fill_from_no_nan (prev : float64) (row : list float64) :
  has_nan row = false -> fill_from prev row = row.
Proof.
  revert prev. induction row as [|x row IH]; intros prev; [done|].
  cbn [has_nan existsb fill_from].
  intros [Hx Hrow]%orb_false_iff. rewrite Hx. f_equal. by apply IH.
Qed.

Lemma fill_row_no_nan (row : list float64) :
  has_nan row = false -> fill_row row = row.
Proof.
  destruct row as [|x r]; [done|]. intros Hrow.
  unfold fill_row. by apply fill_from_no_nan.
Qed.

Lemma residual_row_no_nan (row : list float64) :
  has_nan row = false -> residual_row row = false.
Proof.
  destruct row as [|x r]; [done|].
  cbn [has_nan existsb]. intros [Hx _]%orb_false_iff.
  unfold residual_row. by rewrite Hx.
Qed.

Lemma mask_row_id (row : list float64) :
  (forall x, x ∈ row -> exceeds x = false) -> map mask_sample row = row.
Proof.
  induction row as [|x row IH]; intros Hrow; [done|].
  cbn [map]. unfold mask_sample at 1.
  rewrite Hrow by apply list_elem_of_here. f_equal.
  apply IH. intros y Hy. apply Hrow. by apply list_elem_of_further.
Qed.

Lemma has_nan_false (row : list float64) :
  (forall x, x ∈ row -> isnan x = false) -> has_nan row = false.
Proof.
  induction row as [|x row IH]; intros Hrow; [done|].
  cbn [has_nan existsb]. rewrite Hrow by apply list_elem_of_here.
  apply IH. intros y Hy. apply Hrow. by apply list_elem_of_further.
Qed.

(** The entry the loop leaves at index 0 of a row. *)
Lemma fill_row_head (x : float64) (r : list float64) :
  fill_row (x :: r) !! 0 =
  Some (if isnan x then repair (default NaN (last (x :: r))) else x).
Proof. reflexivity. Qed.

(** The entry the loop leaves to the right of a sample that was not
    flagged: the value of that sample, whatever comes after. *)
Lemma fill_from_after_valid (row : list float64) (prev a x : float64) (t : nat) :
  row !! t = Some a -> isnan a = false ->
  row !! S t = Some x -> isnan x = true ->
  fill_from prev row !! S t = Some (repair a).
Proof.
  revert prev t. induction row as [|y row IH]; intros prev t Ha Hna Hx Hnx; [done|].
  destruct t as [|t].
  - cbn in Ha. injection Ha as ->.
    destruct row as [|x' row]; [done|]. cbn in Hx. injection Hx as ->.
    cbn [fill_from]. rewrite Hna, Hnx. reflexivity.
  - cbn [fill_from]. cbn in Ha, Hx.
    change ((?h :: ?l) !! S ?n) with (l !! n).
    by eapply IH.
Qed.

Lemma fill_row_after_valid (row : list float64) (a x : float64) (t : nat) :
  row !! t = Some a -> isnan a = false ->
  row !! S t = Some x -> isnan x = true ->
  fill_row row !! S t = Some (repair a).
Proof.
  destruct row as [|y r]; [done|]. unfold fill_row.
  apply fill_from_after_valid.
Qed.

Lemma map_lookup {A B} (f : A -> B) (l : list A) (i : nat) :
  map f l !! i = f <$> (l !! i).
Proof. apply (list_lookup_fmap f l i). Qed.

Lemma last_map {A B} (f : A -> B) (l : list A) :
  last (map f l) = f <$> last l.
Proof. apply (fmap_last f l). Qed.

(** ** Properties of [interpolate] *)

Lemma map_id_on {A} (f : A -> A) (l : list A) :
  Forall (fun x => f x = x) l -> map f l = l.
Proof. induction 1 as [|x l Hx _ IH]; [done|]. cbn. by rewrite Hx, IH. Qed.

Lemma existsb_none {A} (p : A -> bool) (l : list A) :
  Forall (fun x => p x = false) l -> existsb p l = false.
Proof. induction 1 as [|x l Hx _ IH]; [done|]. cbn. by rewrite Hx, IH. Qed.

Lemma within_threshold_row (row : list float64) :
  Forall within_threshold row ->
  map mask_sample row = row /\ has_nan row = false.
Proof.
  intros Hrow. split.
  - apply map_id_on. eapply Forall_impl; [exact Hrow|].
    intros x [_ Hx]. unfold mask_sample. by rewrite Hx.
  - apply existsb_none. eapply Forall_impl; [exact Hrow|]. by intros x [Hx _].
Qed.

(** C9, as the code has it.  When every sample of the array is a number
    (not [nan]) whose absolute value does not exceed the threshold
    100.0, [interpolate] returns the array unchanged. *)
Theorem interpolate_identity (raw_data : matrix) :
  Forall (Forall within_threshold) raw_data ->
  interpolate raw_data = Ok raw_data.
Proof.
  intros Hall. rewrite interpolate_closed_form.
  assert (Hmask : mask_large raw_data = raw_data).
  { apply map_id_on. eapply Forall_impl; [exact Hall|].
    intros row Hrow. by apply within_threshold_row. }
  rewrite Hmask.
  rewrite existsb_none.
  - f_equal. apply map_id_on. eapply Forall_impl; [exact Hall|].
    intros row Hrow. apply fill_row_no_nan. by apply within_threshold_row.
  - eapply Forall_impl; [exact Hall|].
    intros row Hrow. apply residual_row_no_nan. by apply within_threshold_row.
Qed.

Lemma interpolate_identity_witness :
  interpolate [[fz 1; fz (-100); fz 100; fz 0]; [fz 0; fz 7; fz (-3); fz 42]]
  = Ok [[fz 1; fz (-100); fz 100; fz 0]; [fz 0; fz 7; fz (-3); fz 42]].
Proof. apply interpolate_identity. compute_done. Defined.

(** C9, counterexample.  A [nan] already present in the input is not a
    sample above the threshold ([abs(nan) > 1e2] is false), yet the loop
    fills it like one: no sample of the array exceeds the threshold, and
    [interpolate] returns another array. *)
Lemma interpolate_fills_input_nan :
  Forall (Forall (fun x => exceeds x = false)) [[fz 1; NaN; fz 3]] /\
  interpolate [[fz 1; NaN; fz 3]] = Ok [[fz 1; fz 1; fz 3]] /\
  interpolate [[fz 1; NaN; fz 3]] <> Ok [[fz 1; NaN; fz 3]].
Proof. repeat split; compute_done. Qed.

(** [interpolate] raises nothing but [ResidualNan]. *)
Lemma interpolate_raises_only_ResidualNan (raw_data : matrix) (e : exn) :
  interpolate raw_data = Raise e ->
  e = ResidualNan "Data still contain Nans after interpolation".
Proof.
  rewrite interpolate_closed_form.
  destruct (existsb residual_row (mask_large raw_data)); congruence.
Qed.

Lemma isnan_mask_sample (x : float64) : isnan (mask_sample x) = flagged x.
Proof.
  unfold mask_sample, flagged. destruct (exceeds x); [by rewrite orb_true_r|].
  by rewrite orb_false_r.
Qed.

Lemma interpolate_loop_lookup (raw_data : matrix) (c : nat) (row : list float64) :
  raw_data !! c = Some row ->
  exists m', interpolate_loop raw_data = Ok m' /\
             m' !! c = Some (fill_row (map mask_sample row)).
Proof.
  intros Hc. eexists. split; [apply interpolate_loop_fill|].
  unfold mask_large. by rewrite !map_lookup, Hc.
Qed.

(** C10.  When the sample at time index 0 of a channel exceeds the
    threshold, the loop reads its neighbour at index [-1], which is the
    last sample of the same channel as it stands after the masking; the
    value written at index 0 is computed from it (it is that last sample
    when the last sample is itself within the threshold), and no
    [IndexError] is raised.  [interpolate] then returns the array the
    loop has produced, with that value at index 0, unless some channel
    keeps a [nan], in which case it raises [ResidualNan]; this channel
    keeps one when its last sample is itself flagged. *)
Theorem interpolate_first_sample_wraps
  (raw_data : matrix) (c : nat) (row : list float64) (x : float64) :
  raw_data !! c = Some row ->
  row !! 0 = Some x ->
  exceeds x = true ->
  exists (last_sample : float64) (m' : matrix),
    last row = Some last_sample /\
    getitem (mask_large raw_data) (Z.of_nat c) (Z.of_nat 0 - 1)
      = Ok (mask_sample last_sample) /\
    interpolate_loop raw_data = Ok m' /\
    (m' !! c) ≫= (fun r => r !! 0) = Some (repair (mask_sample last_sample)) /\
    (forall q, last_sample = Fin q -> exceeds last_sample = false ->
               (m' !! c) ≫= (fun r => r !! 0) = Some (Fin q)) /\
    (forall msg, interpolate raw_data <> Raise (IndexError msg)) /\
    interpolate raw_data
      = (if existsb residual_row (mask_large raw_data)
         then Raise (ResidualNan "Data still contain Nans after interpolation")
         else Ok m') /\
    (flagged last_sample = true ->
     interpolate raw_data
       = Raise (ResidualNan "Data still contain Nans after interpolation")).
Proof.
  intros Hc Hx Hexc.
  destruct row as [|x0 r]; [done|]. cbn in Hx. injection Hx as ->.
  destruct (last_is_Some (x :: r)) as [_ [z Hz]]; [done|].
  destruct (interpolate_loop_lookup raw_data c (x :: r) Hc) as (m' & Hloop & Hm').
  assert (Hm'eq : m' = map fill_row (mask_large raw_data)).
  { rewrite interpolate_loop_fill in Hloop. by injection Hloop. }
  assert (Hhead : (m' !! c) ≫= (fun r => r !! 0) = Some (repair (mask_sample z))).
  { rewrite Hm'. cbn [mbind option_bind map].
    change (map mask_sample r) with (map mask_sample r).
    rewrite fill_row_head.
    change (mask_sample x :: map mask_sample r) with (map mask_sample (x :: r)).
    rewrite last_map, Hz. cbn [fmap option_fmap option_map default from_option].
    unfold mask_sample at 1. rewrite Hexc. reflexivity. }
  exists z, m'.
  split; [exact Hz|]. split; [|split; [exact Hloop|]].
  2: split; [exact Hhead|]. 2: split; [|split; [|split]].
  - unfold getitem.
    rewrite py_index_nat
      by (unfold mask_large; rewrite length_map; by eapply lookup_lt_Some).
    cbn [rbind]. unfold mask_large. rewrite map_lookup, Hc.
    cbn [fmap option_fmap option_map]. unfold row_getitem.
    cbn [map length]. rewrite py_index_minus_one. cbn [rbind].
    change (mask_sample x :: map mask_sample r) with (map mask_sample (x :: r)).
    rewrite map_lookup.
    rewrite last_lookup in Hz. cbn [length Nat.pred] in Hz.
    rewrite length_map. by rewrite Hz.
  - intros q -> Hq. rewrite Hhead. unfold mask_sample. rewrite Hq.
    by rewrite repair_fin.
  - intros msg Hraise. apply interpolate_raises_only_ResidualNan in Hraise.
    discriminate.
  - by rewrite interpolate_closed_form, Hm'eq.
  - intros Hz'. rewrite interpolate_closed_form.
    replace (existsb residual_row (mask_large raw_data)) with true; [done|].
    symmetry. apply existsb_exists. exists (map mask_sample (x :: r)). split.
    + apply list_elem_of_In. unfold mask_large.
      apply (list_elem_of_fmap_2 (map mask_sample)).
      by eapply list_elem_of_lookup_2.
    + cbn [map residual_row].
      change (mask_sample x :: map mask_sample r) with (map mask_sample (x :: r)).
      rewrite last_map, Hz. cbn [fmap option_fmap option_map default from_option].
      unfold id. rewrite !isnan_mask_sample, Hz'.
      unfold flagged. by rewrite Hexc, orb_true_r.
Qed.

Lemma interpolate_first_sample_wraps_witness :
  exists (last_sample : float64) (m' : matrix),
    last [fz 500; fz 1; fz 2; fz 7] = Some last_sample /\
    getitem (mask_large [[fz 0; fz 0; fz 0; fz 0]; [fz 500; fz 1; fz 2; fz 7]])
            (Z.of_nat 1) (Z.of_nat 0 - 1)
      = Ok (mask_sample last_sample) /\
    interpolate_loop [[fz 0; fz 0; fz 0; fz 0]; [fz 500; fz 1; fz 2; fz 7]] = Ok m' /\
    (m' !! 1) ≫= (fun r => r !! 0) = Some (repair (mask_sample last_sample)) /\
    (forall q, last_sample = Fin q -> exceeds last_sample = false ->
               (m' !! 1) ≫= (fun r => r !! 0) = Some (Fin q)) /\
    (forall msg,
        interpolate [[fz 0; fz 0; fz 0; fz 0]; [fz 500; fz 1; fz 2; fz 7]]
        <> Raise (IndexError msg)) /\
    interpolate [[fz 0; fz 0; fz 0; fz 0]; [fz 500; fz 1; fz 2; fz 7]] = Ok m' /\
    (flagged last_sample = true ->
     interpolate [[fz 0; fz 0; fz 0; fz 0]; [fz 500; fz 1; fz 2; fz 7]]
       = Raise (ResidualNan "Data still contain Nans after interpolation")).
Proof.
  apply (interpolate_first_sample_wraps
           [[fz 0; fz 0; fz 0; fz 0]; [fz 500; fz 1; fz 2; fz 7]] 1
           [fz 500; fz 1; fz 2; fz 7] (fz 500)).
  - reflexivity.
  - reflexivity.
  - vm_compute. reflexivity.
Defined.

(** The wrap-around at work: the spike at index 0 takes the value of the
    last sample of its channel. *)
Example interpolate_wraps_example :
  interpolate [[fz 500; fz 1; fz 2; fz 7]] = Ok [[fz 7; fz 1; fz 2; fz 7]].
Proof. compute_done. Qed.

(** An isolated spike at an index [t+1] whose left neighbour is within
    the threshold is overwritten with the value of that left neighbour;
    the right neighbour is never read. *)
Lemma interpolate_loop_isolated_spike
  (raw_data : matrix) (c t : nat) (row : list float64) (a : Qc) (x : float64) :
  raw_data !! c = Some row ->
  row !! t = Some (Fin a) -> exceeds (Fin a) = false ->
  row !! S t = Some x -> exceeds x = true ->
  exists m', interpolate_loop raw_data = Ok m' /\
             (m' !! c) ≫= (fun r => r !! S t) = Some (Fin a).
Proof.
  intros Hc Ha Havalid Hx Hexc.
  destruct (interpolate_loop_lookup raw_data c row Hc) as (m' & Hloop & Hm').
  exists m'. split; [exact Hloop|].
  rewrite Hm'. cbn [mbind option_bind].
  rewrite <- (repair_fin a).
  apply (fill_row_after_valid _ (Fin a) NaN).
  - rewrite map_lookup, Ha. cbn. unfold mask_sample. by rewrite Havalid.
  - reflexivity.
  - rewrite map_lookup, Hx. cbn. unfold mask_sample. by rewrite Hexc.
  - reflexivity.
Qed.

(** C1.  The scenario of the specification, run on the code: a spike of
    500.0 at time index 5 of channel 0, between the values 1.0 and 3.0.
    The loop reads index 4 for "before" and for "after", so the sample
    is repaired to 1.0, not to the mean 2.0 of its two neighbours. *)
Theorem interpolate_spike_takes_left_neighbour :
  interpolate [[fz 0; fz 0; fz 0; fz 0; fz 1; fz 500; fz 3; fz 0];
               [fz 5; fz 5; fz 5; fz 5; fz 5; fz 5; fz 5; fz 5]]
  = Ok [[fz 0; fz 0; fz 0; fz 0; fz 1; fz 1; fz 3; fz 0];
        [fz 5; fz 5; fz 5; fz 5; fz 5; fz 5; fz 5; fz 5]]
  /\ fz 1 <> fz 2.
Proof. split; compute_done. Qed.

(** C3.  Two consecutive samples above the threshold, run on the code:
    the loop writes into the array it reads from, so the second spike
    finds the first already repaired; the run is forward-filled and
    [interpolate] returns an array instead of raising [ResidualNan]. *)
Theorem interpolate_consecutive_spikes_filled :
  interpolate [[fz 1; fz 500; fz 500; fz 3]] = Ok [[fz 1; fz 1; fz 1; fz 3]].
Proof. compute_done. Qed.

(** In general no run of flagged samples makes [interpolate] fail as
    long as the channel does not both start and end with one. *)
Lemma interpolate_ok_unless_both_ends (raw_data : matrix) :
  Forall (fun row => residual_row (map mask_sample row) = false) raw_data ->
  interpolate raw_data = Ok (map fill_row (mask_large raw_data)).
Proof.
  intros Hall. rewrite interpolate_closed_form.
  unfold mask_large at 1. rewrite existsb_map.
  by rewrite existsb_none.
Qed.

(** A channel whose first and last samples are both flagged is what
    raises [ResidualNan]. *)
Example interpolate_residual_example :
  interpolate [[fz 500; fz 1; fz 500]]
  = Raise (ResidualNan "Data still contain Nans after interpolation").
Proof. compute_done. Qed.

(** ** Properties of [z_score] *)

Lemma broadcast_column_same_length
  (op : float64 -> float64 -> float64) (a : matrix) (v : list float64) :
  length v = length a ->
  broadcast_column op a v =
  Ok (zip_with (fun row s => map (fun x => op x s) row) a v).
Proof.
  intros Hlen. unfold broadcast_column.
  by rewrite Hlen, Nat.eqb_refl.
Qed.

Lemma z_score_same_length (raw_data : matrix) (mean std : list float64) :
  length mean = length raw_data -> length std = length raw_data ->
  z_score raw_data mean std =
  Ok (zip_with (fun row s => map (fun x => fdiv x s) row)
        (zip_with (fun row s => map (fun x => fsub x s) row) raw_data mean) std).
Proof.
  intros Hmean Hstd. unfold z_score.
  rewrite broadcast_column_same_length by done. cbn [rbind].
  apply broadcast_column_same_length.
  rewrite length_zip_with_l_eq; [done | by rewrite Hmean].
Qed.

(** A division by [0.0] never yields a number. *)
Lemma fdiv_zero_not_finite (x : float64) : isfinite (fdiv x (Fin 0)) = false.
Proof.
  destruct x as [a| | |]; try reflexivity.
  unfold fdiv. change (Qc_eqb 0 0) with true. cbv iota.
  by destruct (Qc_sgn a).
Qed.

(** C4, counterexample.  With a zero standard deviation [z_score] raises
    nothing: it returns an array of infinities and [nan]. *)
Lemma z_score_zero_std_returns :
  z_score [[fz 1; fz 0; fz (-1)]] [fz 0] [fz 0] = Ok [[PInf; NaN; NInf]]
  /\ forall e, z_score [[fz 1; fz 0; fz (-1)]] [fz 0] [fz 0] <> Raise e.
Proof.
  assert (E : z_score [[fz 1; fz 0; fz (-1)]] [fz 0] [fz 0] = Ok [[PInf; NaN; NInf]])
    by compute_done.
  split; [exact E|]. intros e. rewrite E. discriminate.
Qed.

(** C4, as the code has it.  For mean and std vectors with one entry per
    channel [z_score] always returns an array, never an error; in a
    channel whose std entry is [0.0] every value of the result is an
    infinity or [nan]. *)
Theorem z_score_zero_std (raw_data : matrix) (mean std : list float64) :
  length mean = length raw_data ->
  length std = length raw_data ->
  exists z,
    z_score raw_data mean std = Ok z /\
    forall c row, std !! c = Some (Fin 0) -> z !! c = Some row ->
                  Forall (fun v => isfinite v = false) row.
Proof.
  intros Hmean Hstd. eexists. split; [by apply z_score_same_length|].
  intros c row Hc Hrow.
  apply lookup_zip_with_Some in Hrow as (centred & s & -> & _ & Hs).
  rewrite Hc in Hs. injection Hs as <-.
  induction centred as [|x centred IH]; constructor; [|exact IH].
  apply fdiv_zero_not_finite.
Qed.

Lemma z_score_zero_std_witness :
  exists z,
    z_score [[fz 1; fz 0; fz (-1)]; [fz 4; fz 6; fz 8]] [fz 0; fz 6] [fz 0; fz 2] = Ok z /\
    forall c row, [fz 0; fz 2] !! c = Some (Fin 0) -> z !! c = Some row ->
                  Forall (fun v => isfinite v = false) row.
Proof.
  apply (z_score_zero_std
           [[fz 1; fz 0; fz (-1)]; [fz 4; fz 6; fz 8]] [fz 0; fz 6] [fz 0; fz 2]);
    reflexivity.
Defined.

Lemma finite_positive_inv (x : float64) :
  finite_positive x ->
  exists s : Qc, x = Fin s /\ Qc_eqb s 0 = false /\ Qc_sgn s = 1%Z /\ s <> 0%Qc.
Proof.
  intros [Hfin Hpos]. destruct x as [s| | |]; try discriminate.
  exists s. cbn [fgt] in Hpos. unfold Qc_ltb in Hpos.
  apply negb_true_iff in Hpos.
  assert (Hlt : (this 0%Qc < this s)%Q).
  { apply Qnot_le_lt. intros Hle%Qle_bool_iff. rewrite Hle in Hpos. discriminate. }
  assert (Hne : s <> 0%Qc).
  { intros ->. by apply Qlt_irrefl in Hlt. }
  repeat split; [| |exact Hne].
  - apply not_true_iff_false. unfold Qc_eqb. intros Heq%Qeq_bool_iff.
    rewrite Heq in Hlt. by apply Qlt_irrefl in Hlt.
  - unfold Qc_sgn. unfold Qlt in Hlt.
    change (Qnum (this 0%Qc)) with 0%Z in Hlt.
    change (QDen (this 0%Qc)) with 1%Z in Hlt. lia.
Qed.

(** ** Rounding and the round trip of [z_score] *)

Section RoundingProperties.

Local Open Scope Q_scope.

(** Rounding to the nearest integer moves a rational by a half at most. *)
Lemma round_half_even_error (a : Q) :
  Qabs (inject_Z (round_half_even a) - a) <= 1 # 2.
Proof.
  unfold round_half_even.
  pose proof (Qfloor_le a) as Hlo. pose proof (Qlt_floor a) as Hhi.
  rewrite inject_Z_plus in Hhi. change (inject_Z 1) with 1 in Hhi.
  apply Qabs_Qle_condition.
  destruct (Qcompare (a - inject_Z (Qfloor a)) (1 # 2)) eqn:Hcmp.
  - apply Qeq_alt in Hcmp.
    destruct (Z.even (Qfloor a)); rewrite ?inject_Z_plus;
      change (inject_Z 1) with 1; split; lra.
  - apply Qlt_alt in Hcmp. split; lra.
  - apply Qgt_alt in Hcmp. rewrite inject_Z_plus.
    change (inject_Z 1) with 1. split; lra.
Qed.

(** [binade a] is the exponent of [a]: [2^(binade a) <= a] ... *)
Lemma binade_le (a : Q) : 0 < a -> 2 ^ binade a <= a.
Proof.
  intros Ha. unfold binade.
  destruct (Qle_bool _ a) eqn:Hle; [by apply Qle_bool_iff|].
  destruct a as [n d]. cbn [Qnum Qden] in *.
  assert (Hn : (0 < n)%Z) by (unfold Qlt in Ha; cbn in Ha; lia).
  pose proof (Z.log2_spec n Hn) as [Hn1 _].
  pose proof (Z.log2_spec (Zpos d) (Pos2Z.is_pos d)) as [_ Hd2].
  pose proof (Z.log2_nonneg n) as Hln.
  pose proof (Z.log2_nonneg (Zpos d)) as Hld.
  replace (Z.log2 n - Z.log2 (Z.pos d) - 1)%Z
    with (Z.log2 n - Z.succ (Z.log2 (Z.pos d)))%Z by lia.
  rewrite Qpower_minus by lra.
  rewrite <- (Zpower_Qpower 2 (Z.log2 n)) by lia.
  rewrite <- (Zpower_Qpower 2 (Z.succ (Z.log2 (Z.pos d)))) by lia.
  rewrite (Qmake_Qdiv n d).
  assert (H1 : inject_Z (2 ^ Z.log2 n) <= inject_Z n) by (by rewrite <- Zle_Qle).
  assert (H2 : inject_Z (Z.pos d) <= inject_Z (2 ^ Z.succ (Z.log2 (Z.pos d))))
    by (rewrite <- Zle_Qle; lia).
  assert (H3 : 0 < inject_Z (Z.pos d)) by (rewrite <- (Zlt_Qlt 0); lia).
  assert (H4 : 0 < inject_Z (2 ^ Z.log2 n)).
  { rewrite <- (Zlt_Qlt 0). apply Z.pow_pos_nonneg; lia. }
  set (x1 := inject_Z (2 ^ Z.log2 n)) in *.
  set (y1 := inject_Z (2 ^ Z.succ (Z.log2 (Z.pos d)))) in *.
  set (x2 := inject_Z n) in *. set (y2 := inject_Z (Z.pos d)) in *.
  assert (H5 : 0 < y1) by lra.
  apply Qle_shift_div_l; [lra|].
  assert (E : x1 / y1 * y2 == x1 * y2 / y1) by (field; lra).
  rewrite E.
  apply Qle_shift_div_r; [lra|]. nra.
Qed.

(** ... and [a < 2^(binade a + 1)]. *)
Lemma binade_lt (a : Q) : 0 < a -> a < 2 ^ (binade a + 1).
Proof.
  intros Ha. unfold binade.
  destruct (Qle_bool _ a) eqn:Hle.
  - destruct a as [n d]. cbn [Qnum Qden] in *.
    assert (Hn : (0 < n)%Z) by (unfold Qlt in Ha; cbn in Ha; lia).
    pose proof (Z.log2_spec n Hn) as [_ Hn2].
    pose proof (Z.log2_spec (Zpos d) (Pos2Z.is_pos d)) as [Hd1 _].
    pose proof (Z.log2_nonneg n) as Hln.
    pose proof (Z.log2_nonneg (Zpos d)) as Hld.
    replace (Z.log2 n - Z.log2 (Z.pos d) + 1)%Z
      with (Z.succ (Z.log2 n) - Z.log2 (Z.pos d))%Z by lia.
    rewrite Qpower_minus by lra.
    rewrite <- (Zpower_Qpower 2 (Z.succ (Z.log2 n))) by lia.
    rewrite <- (Zpower_Qpower 2 (Z.log2 (Z.pos d))) by lia.
    rewrite (Qmake_Qdiv n d).
    assert (H1 : inject_Z n < inject_Z (2 ^ Z.succ (Z.log2 n))) by (by rewrite <- Zlt_Qlt).
    assert (H2 : inject_Z (2 ^ Z.log2 (Z.pos d)) <= inject_Z (Z.pos d))
      by (by rewrite <- Zle_Qle).
    assert (H3 : 0 < inject_Z (2 ^ Z.log2 (Z.pos d))).
    { rewrite <- (Zlt_Qlt 0). apply Z.pow_pos_nonneg; lia. }
    assert (H4 : 0 < inject_Z n) by (rewrite <- (Zlt_Qlt 0); lia).
    set (x1 := inject_Z (2 ^ Z.succ (Z.log2 n))) in *.
    set (y1 := inject_Z (2 ^ Z.log2 (Z.pos d))) in *.
    set (x2 := inject_Z n) in *. set (y2 := inject_Z (Z.pos d)) in *.
    apply Qlt_shift_div_l; [lra|].
    assert (E : x2 / y2 * y1 == x2 * y1 / y2) by (field; lra).
    rewrite E. apply Qlt_shift_div_r; [lra|]. nra.
  - replace (Z.log2 (Qnum a) - Z.log2 (Z.pos (Qden a)) - 1 + 1)%Z
      with (Z.log2 (Qnum a) - Z.log2 (Z.pos (Qden a)))%Z by lia.
    apply Qnot_le_lt. intros H%Qle_bool_iff. congruence.
Qed.

Lemma Qabs_sgn (q : Q) : q == inject_Z (Z.sgn (Qnum q)) * Qabs q.
Proof.
  destruct q as [[|p|p] d]; unfold Qeq; cbn; lia.
Qed.

Lemma two_pow_53 (e : Z) : 2 ^ (e - 52) * (1 # 2) == 2 ^ e * (1 # 9007199254740992).
Proof.
  rewrite Qpower_minus by lra.
  change (2 ^ 52) with (4503599627370496 # 1). field.
Qed.

(** The relative error of a rounding that neither overflows nor
    underflows is at most [2^-53]. *)
Lemma round64_error (q : Qc) :
  in_range q = true ->
  exists r : Qc,
    round64 q = Fin r /\
    Qabs (r - q) <= (1 # 9007199254740992) * Qabs q.
Proof.
  unfold in_range. intros Hrange.
  assert (Hzero : Qeq_bool (Qabs q) 0 = true ->
    exists r : Qc, round64 q = Fin r /\ Qabs (r - q) <= (1 # 9007199254740992) * Qabs q).
  { intros H0. exists 0%Qc. unfold round64. rewrite H0. split; [done|].
    apply Qeq_bool_iff in H0.
    assert (Hq : Qabs (0%Qc - q) == Qabs q).
    { change (this 0%Qc) with 0%Q. rewrite <- (Qabs_opp q). apply Qabs_wd. ring. }
    rewrite Hq, H0. lra. }
  destruct (Qeq_bool (Qabs q) 0) eqn:Ha0; [by apply Hzero|clear Hzero].
  apply orb_true_iff in Hrange as [Hq0|[Hmin Hfin]%andb_true_iff].
  { apply Qeq_bool_iff in Hq0. apply Qeq_bool_neq in Ha0. exfalso. apply Ha0.
    rewrite Hq0. reflexivity. }
  apply Qle_bool_iff in Hmin. apply Qeq_bool_neq in Ha0.
  assert (Hpos : 0 < Qabs q).
  { pose proof (Qabs_nonneg q). apply Qle_lteq in H as [H|H]; [done|].
    exfalso. apply Ha0. by symmetry. }
  revert Hfin. unfold round64.
  destruct (Qeq_bool (Qabs q) 0) eqn:Ha0'; [by apply Qeq_bool_iff in Ha0'|].
  set (E := Z.max (binade (Qabs q)) (-1022)).
  set (m := round_half_even (Qabs q / 2 ^ (E - 52))).
  destruct (Qle_bool (2 ^ 1024) (inject_Z m * 2 ^ (E - 52))) eqn:Hover.
  { unfold Qc_sgn. by destruct (Z.sgn (Qnum q)). }
  intros _. eexists. split; [reflexivity|].
  cbn [this Q2Qc]. rewrite Qred_correct.
  assert (HE : 2 ^ E <= Qabs q).
  { unfold E. destruct (Z.max_spec (binade (Qabs q)) (-1022)) as [[_ ->]|[_ ->]];
      [exact Hmin|by apply binade_le]. }
  assert (Hc : 0 < 2 ^ (E - 52)) by (apply Qpower_0_lt; lra).
  pose proof (round_half_even_error (Qabs q / 2 ^ (E - 52))) as Hm. fold m in Hm.
  assert (Hv : Qabs (inject_Z m * 2 ^ (E - 52) - Qabs q) <= 2 ^ (E - 52) * (1 # 2)).
  { assert (Heq : inject_Z m * 2 ^ (E - 52) - Qabs q
                  == 2 ^ (E - 52) * (inject_Z m - Qabs q / 2 ^ (E - 52)))
      by (field; lra).
    rewrite Heq, Qabs_Qmult, (Qabs_pos (2 ^ (E - 52))) by lra.
    apply Qmult_le_l; [exact Hc|exact Hm]. }
  rewrite two_pow_53 in Hv.
  assert (Hs : Qabs (inject_Z (Qc_sgn q) * (inject_Z m * 2 ^ (E - 52)) - q)
               == Qabs (inject_Z m * 2 ^ (E - 52) - Qabs q)).
  { unfold Qc_sgn. rewrite (Qabs_sgn q) at 2.
    set (v := inject_Z m * 2 ^ (E - 52)). set (a := Qabs q).
    destruct (Qnum q) as [|p|p] eqn:Hnum.
    - exfalso. apply Ha0. destruct q as [[n d] ?]. cbn in Hnum. subst n. reflexivity.
    - cbn [Z.sgn]. apply Qabs_wd. ring.
    - cbn [Z.sgn]. rewrite <- (Qabs_opp (v - a)). apply Qabs_wd. ring. }
  rewrite Hs. set (t := Qabs (inject_Z m * 2 ^ (E - 52) - Qabs q)) in *.
  set (a := Qabs q) in *. set (pe := 2 ^ E) in *. lra.
Qed.

Lemma Qabs_le_sum (t t1 t2 : Q) : t == t1 + t2 -> Qabs t <= Qabs t1 + Qabs t2.
Proof. intros ->. apply Qabs_triangle. Qed.

(** Four roundings in a row: the errors of the subtraction, the
    division, the product and the sum add up to less than four units of
    rounding, relative to [|x| + |x - mu|]. *)
Lemma round_trip_bound (x mu sigma d z p r : Q) :
  0 < sigma ->
  Qabs (d - (x - mu)) <= (1 # 9007199254740992) * Qabs (x - mu) ->
  Qabs (z - d / sigma) <= (1 # 9007199254740992) * Qabs (d / sigma) ->
  Qabs (p - z * sigma) <= (1 # 9007199254740992) * Qabs (z * sigma) ->
  Qabs (r - (p + mu)) <= (1 # 9007199254740992) * Qabs (p + mu) ->
  Qabs (r - x) <= (1 # 2251799813685248) * (Qabs x + Qabs (x - mu)).
Proof.
  intros Hsigma H1 H2 H3 H4.
  assert (Hd : Qabs d <= Qabs (x - mu) + Qabs (d - (x - mu)))
    by (apply Qabs_le_sum; ring).
  assert (E2 : Qabs (z * sigma - d) == Qabs (z - d / sigma) * sigma).
  { assert (Heq : z * sigma - d == (z - d / sigma) * sigma) by (field; lra).
    rewrite Heq, Qabs_Qmult, (Qabs_pos sigma) by lra. reflexivity. }
  assert (E2' : Qabs (d / sigma) * sigma == Qabs d).
  { assert (Heq : d == d / sigma * sigma) by (field; lra).
    rewrite Heq at 2. rewrite Qabs_Qmult, (Qabs_pos sigma) by lra. reflexivity. }
  assert (H2' : Qabs (z * sigma - d) <= (1 # 9007199254740992) * Qabs d).
  { rewrite E2, <- E2', Qmult_assoc. apply Qmult_le_compat_r; [exact H2|lra]. }
  assert (Hz : Qabs (z * sigma) <= Qabs d + Qabs (z * sigma - d))
    by (apply Qabs_le_sum; ring).
  assert (Hp : Qabs (p + mu) <=
               Qabs x + Qabs ((d - (x - mu)) + (z * sigma - d) + (p - z * sigma)))
    by (apply Qabs_le_sum; ring).
  pose proof (Qabs_triangle ((d - (x - mu)) + (z * sigma - d)) (p - z * sigma)) as T1.
  pose proof (Qabs_triangle (d - (x - mu)) (z * sigma - d)) as T2.
  assert (Hr : Qabs (r - x) <=
               Qabs ((d - (x - mu)) + (z * sigma - d) + (p - z * sigma))
               + Qabs (r - (p + mu)))
    by (apply Qabs_le_sum; ring).
  pose proof (Qabs_nonneg x) as N1. pose proof (Qabs_nonneg (x - mu)) as N2.
  set (a1 := Qabs (d - (x - mu))) in *.
  set (a2 := Qabs (z * sigma - d)) in *.
  set (a3 := Qabs (p - z * sigma)) in *.
  set (a4 := Qabs (r - (p + mu))) in *.
  set (a12 := Qabs ((d - (x - mu)) + (z * sigma - d))) in *.
  set (a123 := Qabs ((d - (x - mu)) + (z * sigma - d) + (p - z * sigma))) in *.
  set (A := Qabs (x - mu)) in *. set (X := Qabs x) in *.
  set (D := Qabs d) in *. set (Zs := Qabs (z * sigma)) in *.
  set (P := Qabs (p + mu)) in *. set (Rx := Qabs (r - x)) in *.
  clearbody a1 a2 a3 a4 a12 a123 A X D Zs P Rx. clear E2 E2' H2.
  lra.
Qed.

Ltac qc_to_q :=
  unfold Qcle, Qclt, Qcminus, Qcdiv, tolerance in *;
  cbn [this Qcplus Qcopp Qcmult Qcinv Qcabs Q2Qc] in *;
  rewrite ?Qred_correct in *.

(** The same on floats. *)
Lemma round_trip64_error (x mu sigma : float64) :
  finite_positive sigma ->
  round_trip_in_range x mu sigma = true ->
  exists qx qmu qy : Qc,
    x = Fin qx /\ mu = Fin qmu /\ round_trip64 x mu sigma = Fin qy /\
    (Qcabs (qy - qx) <= tolerance * (Qcabs qx + Qcabs (qx - qmu)))%Qc.
Proof.
  intros Hsigma Hrange.
  destruct (finite_positive_inv sigma Hsigma) as (s & -> & Hs0 & Hsgn & Hne).
  assert (Hs : 0 < s).
  { unfold Qc_sgn in Hsgn. unfold Qlt. cbn. lia. }
  unfold round_trip_in_range in Hrange.
  apply andb_true_iff in Hrange as [Hrange H4].
  apply andb_true_iff in Hrange as [Hrange H3].
  apply andb_true_iff in Hrange as [H1 H2].
  destruct x as [qx| | |], mu as [qmu| | |]; try discriminate.
  cbn [fsub fneg fadd exact_in_range] in H1.
  destruct (round64_error _ H1) as (r1 & Hr1 & B1).
  assert (E1 : fsub64 (Fin qx) (Fin qmu) = Fin r1) by exact Hr1.
  rewrite E1 in H2, H3, H4.
  unfold fdiv in H2. rewrite Hs0 in H2. cbn [exact_in_range] in H2.
  destruct (round64_error _ H2) as (r2 & Hr2 & B2).
  assert (E2 : fdiv64 (Fin r1) (Fin s) = Fin r2).
  { unfold fdiv64, fdiv. rewrite Hs0. exact Hr2. }
  rewrite E2 in H3, H4.
  cbn [fmul exact_in_range] in H3.
  destruct (round64_error _ H3) as (r3 & Hr3 & B3).
  assert (E3 : fmul64 (Fin r2) (Fin s) = Fin r3) by exact Hr3.
  rewrite E3 in H4.
  cbn [fadd exact_in_range] in H4.
  destruct (round64_error _ H4) as (r4 & Hr4 & B4).
  exists qx, qmu, r4. repeat split.
  - unfold round_trip64. rewrite E1, E2, E3. exact Hr4.
  - clear H1 H2 H3 H4 Hr1 Hr2 Hr3 Hr4 E1 E2 E3 Hs0 Hsgn Hne Hsigma.
    qc_to_q.
    by apply (round_trip_bound qx qmu s r1 r2 r3 r4).
Qed.

Lemma round_half_even_Z (k : Z) (a : Q) : a == inject_Z k -> round_half_even a = k.
Proof.
  intros Ha. unfold round_half_even. cbv zeta.
  assert (Hk : Qfloor a = k) by (by rewrite Ha, Qfloor_Z).
  rewrite Hk.
  replace (Qcompare (a - inject_Z k) (1 # 2)) with Lt; [done|].
  symmetry. apply (proj1 (Qlt_alt _ _)). lra.
Qed.

Lemma Qabs_zero (q : Q) : Qabs q == 0 -> q == 0.
Proof.
  intros H. assert (Hle : Qabs q <= 0) by (rewrite H; lra).
  apply Qabs_Qle_condition in Hle. lra.
Qed.

(** What [round64] returns unchanged, it has exactly: the significand
    is an integer. *)
Lemma round64_fixed (q : Qc) :
  round64 q = Fin q -> ~ Qabs q == 0 ->
  exists m : Z,
    inject_Z m * 2 ^ (Z.max (binade (Qabs q)) (-1022) - 52) == Qabs q.
Proof.
  unfold round64. intros Hq Ha.
  destruct (Qeq_bool (Qabs q) 0) eqn:Ha0; [by apply Qeq_bool_iff in Ha0|].
  set (c := (Z.max (binade (Qabs q)) (-1022) - 52)%Z) in *.
  set (m := round_half_even (Qabs q / 2 ^ c)) in *.
  destruct (Qle_bool (2 ^ 1024) (inject_Z m * 2 ^ c)) eqn:Hover.
  { unfold Qc_sgn in Hq. by destruct (Z.sgn (Qnum q)). }
  exists m. injection Hq as Hq.
  assert (Hv : inject_Z (Qc_sgn q) * (inject_Z m * 2 ^ c) == q).
  { rewrite <- Hq at 2. cbn [this Q2Qc]. by rewrite Qred_correct. }
  unfold Qc_sgn in Hv. rewrite (Qabs_sgn q) in Hv at 2.
  set (v := inject_Z m * 2 ^ c) in *. set (a := Qabs q) in *.
  destruct (Qnum q) as [|p|p] eqn:Hnum.
  - exfalso. apply Ha. unfold a. destruct q as [[n d] ?]. cbn in Hnum. subst n.
    reflexivity.
  - cbn [Z.sgn] in Hv. change (inject_Z 1) with 1 in Hv. lra.
  - cbn [Z.sgn] in Hv. change (inject_Z (-1)) with (- (1)) in Hv. lra.
Qed.

(** Doubling a float is exact, short of an overflow. *)
Lemma round64_double (q : Qc) :
  round64 q = Fin q -> Qabs q < 2 ^ 1023 ->
  round64 (q + q) = Fin (q + q)%Qc.
Proof.
  intros Hq Hbig.
  assert (Ha2 : Qabs (q + q)%Qc == 2 * Qabs q).
  { cbn [this Qcplus Q2Qc]. rewrite Qred_correct.
    assert (E : q + q == 2 * q) by ring.
    rewrite E, Qabs_Qmult. reflexivity. }
  destruct (Qeq_dec (Qabs q) 0) as [Ha|Ha].
  { assert (Hz : (q + q)%Qc = 0%Qc).
    { apply Qc_is_canon. apply Qabs_zero. rewrite Ha2, Ha. reflexivity. }
    rewrite Hz. reflexivity. }
  destruct (round64_fixed q Hq Ha) as [m Hm].
  assert (Hpos : 0 < Qabs q).
  { pose proof (Qabs_nonneg q) as H. apply Qle_lteq in H as [H|H]; [done|].
    exfalso. apply Ha. by symmetry. }
  assert (Hpos2 : 0 < Qabs (q + q)%Qc) by (rewrite Ha2; lra).
  pose proof (binade_le _ Hpos2) as Hlo. pose proof (binade_lt _ Hpos) as Hhi.
  assert (Hb : (binade (Qabs (q + q)%Qc) < binade (Qabs q) + 2)%Z).
  { apply (Qpower_lt_compat_l_inv 2); [|lra].
    replace (binade (Qabs q) + 2)%Z with (binade (Qabs q) + 1 + 1)%Z by lia.
    rewrite (Qpower_plus 2 (binade (Qabs q) + 1) 1) by lra.
    change (2 ^ 1) with 2.
    set (x := 2 ^ binade (Qabs (q + q)%Qc)) in *.
    set (y := 2 ^ (binade (Qabs q) + 1)) in *.
    rewrite Ha2 in Hlo. lra. }
  unfold round64.
  destruct (Qeq_bool (Qabs (q + q)%Qc) 0) eqn:Ha0.
  { apply Qeq_bool_iff in Ha0. rewrite Ha0 in Hpos2. lra. }
  set (c := (Z.max (binade (Qabs q)) (-1022) - 52)%Z) in *.
  set (c2 := (Z.max (binade (Qabs (q + q)%Qc)) (-1022) - 52)%Z).
  assert (Hk : (0 <= c + 1 - c2)%Z) by lia.
  assert (Hscale : 2 * 2 ^ c == inject_Z (2 ^ (c + 1 - c2)) * 2 ^ c2).
  { rewrite Zpower_Qpower by lia. change (inject_Z 2) with 2.
    rewrite <- Qpower_plus by lra.
    replace (c + 1 - c2 + c2)%Z with (1 + c)%Z by lia.
    rewrite Qpower_plus by lra. reflexivity. }
  assert (Hc2 : 0 < 2 ^ c2) by (apply Qpower_0_lt; lra).
  set (k := (c + 1 - c2)%Z) in *.
  assert (Hv2 : inject_Z (m * 2 ^ k) * 2 ^ c2 == Qabs (q + q)%Qc).
  { rewrite inject_Z_mult, Ha2, <- Hm.
    set (P := 2 ^ c2) in *. set (Pc := 2 ^ c) in *. set (K := inject_Z (2 ^ k)) in *.
    assert (E : 2 * (inject_Z m * Pc) == inject_Z m * (2 * Pc)) by ring.
    rewrite E, Hscale. ring. }
  assert (Hm2 : Qabs (q + q)%Qc / 2 ^ c2 == inject_Z (m * 2 ^ k)).
  { rewrite <- Hv2. set (P := 2 ^ c2) in *. field. lra. }
  rewrite (round_half_even_Z _ _ Hm2).
  destruct (Qle_bool (2 ^ 1024) (inject_Z (m * 2 ^ k) * 2 ^ c2)) eqn:Hover.
  { apply Qle_bool_iff in Hover. rewrite Hv2, Ha2 in Hover.
    change (2 ^ 1024) with (2 * 2 ^ 1023) in Hover. lra. }
  f_equal. apply Qc_is_canon. cbn [this Q2Qc]. rewrite Qred_correct, Hv2.
  unfold Qc_sgn. symmetry. apply Qabs_sgn.
Qed.

Lemma exceeds_false_bound (q : Qc) : exceeds (Fin q) = false -> Qabs q < 2 ^ 1023.
Proof.
  unfold exceeds, threshold, fz, fabs, fgt, Qc_ltb.
  intros H%negb_false_iff%Qle_bool_iff.
  cbn [this Qcabs] in H.
  apply Qle_lt_trans with (1 := H). reflexivity.
Qed.

End RoundingProperties.

(** On one sample: standardise, scale back, shift back. *)
Lemma round_trip_sample (x mu sigma : float64) :
  isfinite mu = true -> finite_positive sigma ->
  fadd (fmul (fdiv (fsub x mu) sigma) sigma) mu = x.
Proof.
  intros Hmu Hsigma.
  destruct mu as [u| | |]; try discriminate.
  destruct (finite_positive_inv sigma Hsigma) as (s & -> & Hs0 & Hsgn & Hne).
  destruct x as [a| | |]; cbn [fsub fneg fadd].
  - unfold fdiv. rewrite Hs0. cbn [fmul fadd]. f_equal. field. exact Hne.
  - assert (Hdiv : fdiv PInf (Fin s) = PInf)
      by (unfold fdiv; rewrite Hs0; cbn [fsign]; by rewrite Hsgn).
    rewrite Hdiv. cbn [fmul fsign]. by rewrite Hsgn.
  - assert (Hdiv : fdiv NInf (Fin s) = NInf)
      by (unfold fdiv; rewrite Hs0; cbn [fsign]; by rewrite Hsgn).
    rewrite Hdiv. cbn [fmul fsign]. by rewrite Hsgn.
  - reflexivity.
Qed.

Lemma round_trip_rows (m : matrix) (mean std : list float64) :
  length mean = length m -> length std = length m ->
  Forall (fun x => isfinite x = true) mean ->
  Forall finite_positive std ->
  zip_with (fun row s => map (fun x => fadd x s) row)
    (zip_with (fun row s => map (fun x => fmul x s) row)
       (zip_with (fun row s => map (fun x => fdiv x s) row)
          (zip_with (fun row s => map (fun x => fsub x s) row) m mean) std) std) mean
  = m.
Proof.
  revert mean std. induction m as [|row m IH]; intros mean std Hmean Hstd Hfin Hpos.
  - destruct mean; [done | discriminate].
  - destruct mean as [|mu mean]; [discriminate|].
    destruct std as [|sigma std]; [discriminate|].
    inversion Hfin as [|? ? Hmu Hfin']; subst.
    inversion Hpos as [|? ? Hsigma Hpos']; subst.
    cbn [zip_with]. f_equal.
    + rewrite !map_map. apply map_id_on, Forall_forall.
      intros x _. by apply round_trip_sample.
    + apply IH; [by injection Hmean | by injection Hstd | done | done].
Qed.

(** C8, counterexample.  A positive std need not be a number: with the
    std [+inf] the standardised value is 0 and the way back gives [nan],
    already in exact arithmetic.  And in [float64] finite values with a
    positive std are not enough: [2^1023 - (-2^1023)] overflows, and the
    round trip returns [+inf]. *)
Lemma z_score_round_trip_fails :
  (Forall (fun s => fgt s (Fin 0) = true) [PInf] /\
   exists z, z_score [[fz 1]] [fz 0] [PInf] = Ok z /\
             unscore z [fz 0] [PInf] = Ok [[NaN]] /\
             unscore z [fz 0] [PInf] <> Ok [[fz 1]]) /\
  (Forall (fun s => fgt s (Fin 0) = true) [fz 1] /\
   isfinite two_to_1023 = true /\
   exists z, z_score64 [[two_to_1023]] [fneg two_to_1023] [fz 1] = Ok z /\
             unscore64 z [fneg two_to_1023] [fz 1] = Ok [[PInf]] /\
             unscore64 z [fneg two_to_1023] [fz 1] <> Ok [[two_to_1023]]).
Proof.
  split.
  - split; [by repeat constructor|].
    exists [[Fin 0]]. split; [vm_compute; reflexivity|].
    assert (E : unscore [[Fin 0]] [fz 0] [PInf] = Ok [[NaN]]) by (vm_compute; reflexivity).
    split; [exact E|]. rewrite E. discriminate.
  - split; [by repeat constructor|]. split; [vm_compute; reflexivity|].
    exists [[PInf]]. split; [vm_compute; reflexivity|].
    assert (E : unscore64 [[PInf]] [fneg two_to_1023] [fz 1] = Ok [[PInf]])
      by (vm_compute; reflexivity).
    split; [exact E|]. rewrite E.
    assert (Hfin : isfinite two_to_1023 = true) by (vm_compute; reflexivity).
    revert Hfin. generalize two_to_1023. by intros [q| | |].
Qed.

(** C8, as the code has it.  For mean and std vectors with one entry per
    channel, the means numbers and the stds positive numbers, [z_score]
    returns [(m - mean) / std], broadcast per channel along time.  In
    exact arithmetic [z_score(m, mean, std) * std + mean], with the
    product and the sum broadcast in the same way, is [m] again.  In
    [float64], where each of the four operations rounds, a sample [x]
    for which none of them overflows or underflows comes back within
    [2^-51 * (|x| + |x - mean|)]. *)
Theorem z_score_round_trip (m : matrix) (mean std : list float64) :
  length mean = length m ->
  length std = length m ->
  Forall (fun x => isfinite x = true) mean ->
  Forall finite_positive std ->
  (exists z,
    z_score m mean std = Ok z /\
    (forall c t x mu sigma,
        (m !! c) ≫= (fun row => row !! t) = Some x ->
        mean !! c = Some mu -> std !! c = Some sigma ->
        (z !! c) ≫= (fun row => row !! t) = Some (fdiv (fsub x mu) sigma)) /\
    unscore z mean std = Ok m) /\
  (exists z64 m64,
    z_score64 m mean std = Ok z64 /\
    unscore64 z64 mean std = Ok m64 /\
    forall c t x mu sigma,
      (m !! c) ≫= (fun row => row !! t) = Some x ->
      mean !! c = Some mu -> std !! c = Some sigma ->
      (z64 !! c) ≫= (fun row => row !! t) = Some (fdiv64 (fsub64 x mu) sigma) /\
      (m64 !! c) ≫= (fun row => row !! t) = Some (round_trip64 x mu sigma) /\
      (round_trip_in_range x mu sigma = true ->
       exists qx qmu qy : Qc,
         x = Fin qx /\ mu = Fin qmu /\ round_trip64 x mu sigma = Fin qy /\
         (Qcabs (qy - qx) <= tolerance * (Qcabs qx + Qcabs (qx - qmu)))%Qc)).
Proof.
  intros Hmean Hstd Hfin Hpos. split.
  - eexists.
    split; [by apply z_score_same_length|]. split.
    + intros c t x mu sigma Hx Hmu Hsigma.
      destruct (m !! c) as [row|] eqn:Hrow; [|done]. cbn in Hx.
      rewrite !lookup_zip_with, Hrow, Hmu, Hsigma. cbn.
      by rewrite !map_lookup, Hx.
    + unfold unscore.
      set (centred := zip_with (fun row s => map (fun x => fsub x s) row) m mean).
      set (z := zip_with (fun row s => map (fun x => fdiv x s) row) centred std).
      assert (Hc : length centred = length m)
        by (apply length_zip_with_l_eq; congruence).
      assert (Hz : length z = length m)
        by (unfold z; rewrite length_zip_with_l_eq; congruence).
      rewrite broadcast_column_same_length by congruence. cbn [rbind].
      rewrite broadcast_column_same_length
        by (rewrite length_zip_with_l_eq; congruence).
      f_equal. by apply round_trip_rows.
  - set (centred := zip_with (fun row s => map (fun x => fsub64 x s) row) m mean).
    set (z := zip_with (fun row s => map (fun x => fdiv64 x s) row) centred std).
    set (scaled := zip_with (fun row s => map (fun x => fmul64 x s) row) z std).
    assert (Hc : length centred = length m)
      by (apply length_zip_with_l_eq; congruence).
    assert (Hz : length z = length m)
      by (unfold z; rewrite length_zip_with_l_eq; congruence).
    assert (Hs : length scaled = length m)
      by (unfold scaled; rewrite length_zip_with_l_eq; congruence).
    exists z, (zip_with (fun row s => map (fun x => fadd64 x s) row) scaled mean).
    split; [|split].
    + unfold z_score64. rewrite broadcast_column_same_length by done. cbn [rbind].
      fold centred. apply broadcast_column_same_length. congruence.
    + unfold unscore64. rewrite broadcast_column_same_length by congruence.
      cbn [rbind]. fold scaled. apply broadcast_column_same_length. congruence.
    + intros c t x mu sigma Hx Hmu Hsigma.
      destruct (m !! c) as [row|] eqn:Hrow; [|done]. cbn in Hx.
      split; [|split].
      * unfold z, centred. rewrite !lookup_zip_with, Hrow, Hmu, Hsigma. cbn.
        by rewrite !map_lookup, Hx.
      * unfold scaled, z, centred.
        rewrite !lookup_zip_with, Hrow, Hmu, Hsigma. cbn.
        by rewrite !map_lookup, Hx.
      * apply round_trip64_error.
        eapply Forall_lookup_1 in Hpos; [exact Hpos|exact Hsigma].
Qed.

Lemma z_score_round_trip_witness :
  (exists z,
    z_score decimal_array decimal_mean decimal_std = Ok z /\
    (forall c t x mu sigma,
        (decimal_array !! c) ≫= (fun row => row !! t) = Some x ->
        decimal_mean !! c = Some mu -> decimal_std !! c = Some sigma ->
        (z !! c) ≫= (fun row => row !! t) = Some (fdiv (fsub x mu) sigma)) /\
    unscore z decimal_mean decimal_std = Ok decimal_array) /\
  (exists z64 m64,
    z_score64 decimal_array decimal_mean decimal_std = Ok z64 /\
    unscore64 z64 decimal_mean decimal_std = Ok m64 /\
    forall c t x mu sigma,
      (decimal_array !! c) ≫= (fun row => row !! t) = Some x ->
      decimal_mean !! c = Some mu -> decimal_std !! c = Some sigma ->
      (z64 !! c) ≫= (fun row => row !! t) = Some (fdiv64 (fsub64 x mu) sigma) /\
      (m64 !! c) ≫= (fun row => row !! t) = Some (round_trip64 x mu sigma) /\
      (round_trip_in_range x mu sigma = true ->
       exists qx qmu qy : Qc,
         x = Fin qx /\ mu = Fin qmu /\ round_trip64 x mu sigma = Fin qy /\
         (Qcabs (qy - qx) <= tolerance * (Qcabs qx + Qcabs (qx - qmu)))%Qc)).
Proof.
  apply (z_score_round_trip decimal_array decimal_mean decimal_std).
  - reflexivity.
  - reflexivity.
  - repeat constructor.
  - repeat constructor.
Defined.

(** In [float64] the way back need not be exact: the sample [22/7] of
    [decimal_array] comes back one unit in the last place lower, with no
    overflow or underflow on the way. *)
Example round_trip64_inexact :
  round_trip_in_range (f64 (22 # 7)) (f64 (1 # 3)) (f64 (7 # 10)) = true /\
  f64 (22 # 7) = Fin (Q2Qc (7077085128725065 # 2251799813685248)) /\
  round_trip64 (f64 (22 # 7)) (f64 (1 # 3)) (f64 (7 # 10))
  = Fin (Q2Qc (7077085128725064 # 2251799813685248)).
Proof. repeat split; compute_done. Qed.

(** An underflow is out of the bound: the smallest positive float,
    standardised with the std 4, comes back as 0. *)
Example round_trip64_underflow :
  round_trip_in_range (f64 (2 ^ (-1074))) (fz 0) (fz 4) = false /\
  isfinite (f64 (2 ^ (-1074))) = true /\ f64 (2 ^ (-1074)) <> Fin 0 /\
  round_trip64 (f64 (2 ^ (-1074))) (fz 0) (fz 4) = Fin 0.
Proof. repeat split; compute_done. Qed.

(** The standardised values of the witness. *)
Example z_score_example :
  z_score [[fz 1; fz 2; fz 6]] [fz 3] [fz 2]
  = Ok [[fz (-1); Fin (Q2Qc (-1 # 2)); Fin (Q2Qc (3 # 2))]].
Proof. compute_done. Qed.

(** ** Properties of [open_and_interpolate], [get_stats] and the loop *)

Section PipelineProperties.

Context `{Library}.

Lemma interpolate_length (raw_data rows : matrix) :
  interpolate raw_data = Ok rows -> length rows = length raw_data.
Proof.
  rewrite interpolate_closed_form.
  destruct (existsb residual_row (mask_large raw_data)); [done|].
  intros [= <-]. unfold mask_large. by rewrite !length_map.
Qed.

Lemma filter_ext_on {A} (P Q : A -> Prop)
  `{!forall x, Decision (P x), !forall x, Decision (Q x)} (l : list A) :
  (forall x, x ∈ l -> P x <-> Q x) -> filter P l = filter Q l.
Proof.
  induction l as [|x l IH]; intros Hl; [done|].
  rewrite !filter_cons.
  rewrite IH by (intros y Hy; apply Hl; by apply list_elem_of_further).
  apply decide_ext, Hl, list_elem_of_here.
Qed.

Lemma fst_filter {A B} (Q : A -> Prop) (P : A * B -> Prop)
  `{!forall x, Decision (Q x), !forall p, Decision (P p)} (l : list (A * B)) :
  (forall p, P p <-> Q p.1) ->
  (filter P l).*1 = filter Q (l.*1).
Proof.
  intros Hiff. induction l as [|[n d] l IH]; [done|].
  rewrite fmap_cons, !filter_cons. cbn [fst].
  destruct (decide (P (n, d))) as [HP|HP], (decide (Q n)) as [HQ|HQ].
  - rewrite fmap_cons. cbn [fst]. by f_equal.
  - exfalso. by apply HQ, (Hiff (n, d)).
  - exfalso. by apply HP, Hiff.
  - exact IH.
Qed.

(** What [drop_channels] keeps are the canonical channels of the file,
    names and samples together, in the order of the file. *)
Lemma kept_channels_pairs (raw : Raw) :
  channels (kept_channels raw) =
  filter (fun ch => ch.1 ∈ CH_NAMES) (channels raw).
Proof.
  unfold kept_channels, drop_channels. cbn [channels].
  apply filter_ext_on. intros [n d] Hin. cbn [fst].
  rewrite list_elem_of_filter.
  assert (Hn : n ∈ ch_names raw)
    by (apply (list_elem_of_fmap_2 fst _ _ Hin)).
  split.
  - intros Hp. destruct (decide (n ∈ CH_NAMES)); [done|].
    exfalso. apply Hp. by split.
  - intros Hq [Hc _]. by apply Hc.
Qed.

Lemma kept_channels_names (raw : Raw) :
  ch_names (kept_channels raw) = filter (fun ch => ch ∈ CH_NAMES) (ch_names raw).
Proof.
  unfold ch_names. rewrite kept_channels_pairs.
  by apply fst_filter.
Qed.

Lemma kept_channels_lengths (raw : Raw) :
  length (get_data (kept_channels raw)) = length (ch_names (kept_channels raw)).
Proof. unfold get_data, ch_names. by rewrite !length_fmap. Qed.

(** The three ways [open_and_interpolate] goes once the file is read. *)
Lemma open_and_interpolate_read (file : string) (raw : Raw) (split_bands : bool)
  (w : world) :
  read_raw_fif file = Ok raw ->
  open_and_interpolate file split_bands w =
  match interpolate (get_data (kept_channels raw)) with
  | Raise (ResidualNan _) => (logged w ("Residual NaNs in " ++ file), Ok None)
  | Raise e => (w, Raise e)
  | Ok rows =>
      match RawArray rows CH_NAMES (fz 128) with
      | Raise e => (w, Raise e)
      | Ok arr =>
          (w, Ok (Some (if split_bands
                        then Banded (isolate_bands (raw_filter arr broadband))
                        else Single (get_data (raw_filter arr broadband)))))
      end
  end.
Proof.
  intros Hread. unfold open_and_interpolate, io_bind at 1, io_lift at 1.
  rewrite Hread. fold (kept_channels raw).
  destruct (interpolate (get_data (kept_channels raw))) as [rows|e].
  - unfold io_bind, io_lift.
    destruct (RawArray rows CH_NAMES (fz 128)); [|done].
    by destruct split_bands.
  - by destruct e.
Qed.

(** C5, as the code has it.  When [open_and_interpolate] loads a
    recording (whose channel names are distinct, as [mne] makes them)
    into an array, the array has exactly 32 rows, one for each of the 32
    canonical channels, and every other channel of the file is dropped.
    The rows are those channels in the order in which the file lists
    them: they are the filtered, interpolated samples of the kept
    channels, and nothing reorders them. *)
Theorem open_and_interpolate_channels
  (file : string) (raw : Raw) (w w' : world) (arr : matrix) :
  read_raw_fif file = Ok raw ->
  NoDup (ch_names raw) ->
  open_and_interpolate file false w = (w', Ok (Some (Single arr))) ->
  length arr = 32 /\
  ch_names (kept_channels raw) ≡ₚ CH_NAMES /\
  channels (kept_channels raw) = filter (fun ch => ch.1 ∈ CH_NAMES) (channels raw) /\
  exists rows,
    interpolate (get_data (kept_channels raw)) = Ok rows /\
    arr = map (filter_channel (fz 128) broadband) rows.
Proof.
  intros Hread Hnodup Hopen.
  rewrite (open_and_interpolate_read file raw false w Hread) in Hopen.
  destruct (interpolate (get_data (kept_channels raw))) as [rows|e] eqn:Hint;
    [|destruct e; discriminate].
  unfold RawArray in Hopen.
  destruct (Nat.eqb (length rows) (length CH_NAMES)) eqn:Hrows; [|discriminate].
  apply Nat.eqb_eq in Hrows.
  assert (Harr : get_data (raw_filter {| sfreq := fz 128; channels := zip CH_NAMES rows |}
                             broadband)
                 = map (filter_channel (fz 128) broadband) rows).
  { unfold get_data, raw_filter. cbn [channels sfreq].
    change (map ?f ?l) with (f <$> l).
    rewrite <- list_fmap_compose.
    rewrite <- (snd_zip CH_NAMES rows) at 2 by (by rewrite Hrows).
    by rewrite <- list_fmap_compose. }
  rewrite Harr in Hopen. injection Hopen as _ <-.
  assert (Hkept : length (ch_names (kept_channels raw)) = length CH_NAMES).
  { rewrite <- kept_channels_lengths, <- Hrows. symmetry. by apply interpolate_length. }
  split; [by rewrite length_map|].
  split; [|split; [apply kept_channels_pairs|by eauto]].
  apply submseteq_length_Permutation; [|by rewrite Hkept].
  rewrite kept_channels_names.
  apply NoDup_submseteq; [by apply NoDup_filter|].
  intros ch Hch. by apply list_elem_of_filter in Hch as [Hcanon _].
Qed.

End PipelineProperties.

Lemma open_and_interpolate_channels_witness :
  exists arr,
    open_and_interpolate (H := sample_library) "train/clean_eeg.fif" false empty_world
      = (empty_world, Ok (Some (Single arr))) /\
    length arr = 32 /\
    ch_names (kept_channels clean_recording) ≡ₚ CH_NAMES /\
    channels (kept_channels clean_recording)
      = filter (fun ch => ch.1 ∈ CH_NAMES) (channels clean_recording) /\
    exists rows,
      interpolate (get_data (kept_channels clean_recording)) = Ok rows /\
      arr = map (filter_channel (Library := sample_library) (fz 128) broadband) rows.
Proof.
  eexists. split; [vm_compute; reflexivity|].
  apply (open_and_interpolate_channels (H := sample_library)
           "train/clean_eeg.fif" clean_recording empty_world empty_world).
  - reflexivity.
  - compute_done.
  - vm_compute. reflexivity.
Defined.

(** C5, counterexample.  A file that lists the canonical channels with
    [Fz] before [Cz] is loaded, and row 0 of the array then holds the
    samples of [Fz], where the canonical order has [Cz].  The filter of
    [sample_library] is the identity; by the theorem above the order of
    the rows is the same under every filter. *)
Lemma open_and_interpolate_keeps_file_order :
  exists arr,
    open_and_interpolate (H := sample_library) "train/swapped_eeg.fif" false empty_world
      = (empty_world, Ok (Some (Single arr))) /\
    ch_names (kept_channels swapped_recording) <> CH_NAMES /\
    ch_names (kept_channels swapped_recording) !! 0 = Some "Fz" /\
    CH_NAMES !! 0 = Some "Cz" /\
    channels swapped_recording !! 0 = Some ("Fz", [fz 0; fz 1; fz 2]) /\
    channels swapped_recording !! 1 = Some ("Cz", [fz 1; fz 1; fz 2]) /\
    arr !! 0 = Some [fz 0; fz 1; fz 2].
Proof.
  eexists. split; [vm_compute; reflexivity|].
  repeat split; compute_done.
Qed.

Section BatchProperties.

Context `{Library}.

Lemma io_for_app {I} (xs ys : list I) (body : I -> io unit) (w : world) :
  io_for (xs ++ ys) body w =
  io_bind (io_for xs body) (fun _ => io_for ys body) w.
Proof.
  revert w. induction xs as [|x xs IH]; intros w; [done|].
  cbn [app io_for]. unfold io_bind.
  destruct (body x w) as [w1 [[]|e]]; [|done].
  rewrite IH. reflexivity.
Qed.

(** X30.  The per-file loop of [main], taken on its own, skips a file
    on which [interpolate] raises [ResidualNan]: [open_and_interpolate]
    prints the line naming the file and returns [None]; the body of the
    loop then saves nothing for that file, and the loop goes on with the
    files that follow it, exactly as it would have run on them. *)
Theorem residual_nan_file_is_skipped
  (file : string) (raw : Raw) (msg : string)
  (input_dir output_dir : string) (split_bands : bool)
  (mean std : list float64) (before after : list string) (w : world) :
  read_raw_fif file = Ok raw ->
  interpolate (get_data (kept_channels raw)) = Raise (ResidualNan msg) ->
  open_and_interpolate file split_bands w
    = (logged w ("Residual NaNs in " ++ file), Ok None) /\
  main_loop_body input_dir output_dir split_bands mean std file w
    = (logged w ("Residual NaNs in " ++ file), Ok tt) /\
  main_loop input_dir output_dir split_bands mean std (file :: after) w
    = main_loop input_dir output_dir split_bands mean std after
        (logged w ("Residual NaNs in " ++ file)) /\
  main_loop input_dir output_dir split_bands mean std (before ++ file :: after) w
    = match main_loop input_dir output_dir split_bands mean std before w with
      | (w1, Ok _) =>
          main_loop input_dir output_dir split_bands mean std after
            (logged w1 ("Residual NaNs in " ++ file))
      | (w1, Raise e) => (w1, Raise e)
      end.
Proof.
  intros Hread Hres.
  assert (Hopen : forall w0, open_and_interpolate file split_bands w0
            = (logged w0 ("Residual NaNs in " ++ file), Ok None)).
  { intros w0. rewrite (open_and_interpolate_read file raw split_bands w0 Hread).
    by rewrite Hres. }
  assert (Hbody : forall w0,
            main_loop_body input_dir output_dir split_bands mean std file w0
            = (logged w0 ("Residual NaNs in " ++ file), Ok tt)).
  { intros w0. unfold main_loop_body, io_bind. by rewrite Hopen. }
  assert (Hcons : forall w0,
            main_loop input_dir output_dir split_bands mean std (file :: after) w0
            = main_loop input_dir output_dir split_bands mean std after
                (logged w0 ("Residual NaNs in " ++ file))).
  { intros w0. unfold main_loop. cbn [io_for]. unfold io_bind at 1.
    by rewrite Hbody. }
  repeat split; [apply Hopen | apply Hbody | apply Hcons |].
  unfold main_loop at 1. rewrite io_for_app. unfold io_bind at 1.
  fold (main_loop input_dir output_dir split_bands mean std before).
  destruct (main_loop input_dir output_dir split_bands mean std before w)
    as [w1 [[]|e]]; [|done].
  apply Hcons.
Qed.

Lemma concat_rest_none (acc : matrix) (rest : list (option matrix)) :
  None ∈ rest -> exists msg, concat_rest acc rest = Raise (ValueError msg).
Proof.
  revert acc. induction rest as [|[b|] rest IH]; intros acc Hin.
  - by apply elem_of_nil in Hin.
  - apply elem_of_cons in Hin as [?|Hin]; [done|].
    cbn [concat_rest]. unfold concat_two.
    destruct (Nat.eqb (length acc) (length b)); cbn [rbind]; [by apply IH|by eauto].
  - cbn [concat_rest]. by eauto.
Qed.

(** [np.concatenate] refuses a list that holds a [None]. *)
Lemma np_concatenate_none (tmp : list (option matrix)) :
  None ∈ tmp -> exists msg, np_concatenate tmp = Raise (ValueError msg).
Proof.
  destruct tmp as [|[a|] rest]; intros Hin.
  - by apply elem_of_nil in Hin.
  - apply elem_of_cons in Hin as [?|Hin]; [done|].
    cbn [np_concatenate]. by apply concat_rest_none.
  - cbn [np_concatenate]. by eauto.
Qed.

(** C2.  [get_stats] does not discard a recording that failed to load:
    [None] is appended to [tmp] like any array, and as soon as [tmp]
    holds a [None], [np.concatenate] raises [ValueError] and no
    statistics are computed. *)
Theorem get_stats_raises_on_failed_recording
  (file_list : list string) (w w' : world) (tmp : list (option loaded)) :
  io_collect file_list (fun file => open_and_interpolate file false) w = (w', Ok tmp) ->
  None ∈ tmp ->
  exists msg, get_stats file_list w = (w', Raise (ValueError msg)).
Proof.
  intros Hcollect Hnone.
  destruct (np_concatenate_none (map as_array tmp)) as [msg Hmsg].
  { change None with (as_array None). by apply (list_elem_of_fmap_2 as_array). }
  exists msg. unfold get_stats, io_bind at 1. rewrite Hcollect.
  unfold io_bind, io_lift. by rewrite Hmsg.
Qed.

Lemma io_collect_all_none (file_list : list string) (w : world) :
  (forall file w1, file ∈ file_list ->
     exists w2, open_and_interpolate file false w1 = (w2, Ok None)) ->
  exists w',
    io_collect file_list (fun file => open_and_interpolate file false) w
    = (w', Ok (replicate (length file_list) None)).
Proof.
  revert w. induction file_list as [|file files IH]; intros w Hall.
  - exists w. reflexivity.
  - destruct (Hall file w) as [w1 Hfile]; [apply list_elem_of_here|].
    destruct (IH w1) as [w2 Hfiles].
    { intros f w0 Hf. apply Hall. by apply list_elem_of_further. }
    exists w2. cbn [io_collect]. unfold io_bind at 1. rewrite Hfile.
    unfold io_bind at 1. rewrite Hfiles. reflexivity.
Qed.

(** C6.  When the list of files is empty, or every recording of the list
    fails to load, [get_stats] fails and returns no vectors of
    statistics: [np.concatenate] raises [ValueError], for want of an
    array to concatenate (this is the error the specification names
    InsufficientData). *)
Theorem get_stats_raises_without_data (file_list : list string) (w : world) :
  (forall file w1, file ∈ file_list ->
     exists w2, open_and_interpolate file false w1 = (w2, Ok None)) ->
  exists w',
    get_stats file_list w =
    (w', Raise (ValueError
                  match file_list with
                  | [] => "need at least one array to concatenate"
                  | _ :: _ => "zero-dimensional arrays cannot be concatenated"
                  end)).
Proof.
  intros Hall. destruct (io_collect_all_none file_list w Hall) as [w' Hcollect].
  exists w'. unfold get_stats, io_bind at 1. rewrite Hcollect.
  unfold io_bind, io_lift.
  by destruct file_list as [|file files].
Qed.

(** The empty list, on its own. *)
Lemma get_stats_empty (w : world) :
  get_stats [] w = (w, Raise (ValueError "need at least one array to concatenate")).
Proof. reflexivity. Qed.

End BatchProperties.

Lemma residual_nan_file_is_skipped_witness :
  open_and_interpolate (H := sample_library) "train/gapped_eeg.fif" false empty_world
    = (logged empty_world "Residual NaNs in train/gapped_eeg.fif", Ok None) /\
  main_loop_body (H := sample_library) "train" "out" false [fz 0] [fz 1]
      "train/gapped_eeg.fif" empty_world
    = (logged empty_world "Residual NaNs in train/gapped_eeg.fif", Ok tt) /\
  main_loop (H := sample_library) "train" "out" false [fz 0] [fz 1]
      ("train/gapped_eeg.fif" :: ["train/clean_eeg.fif"]) empty_world
    = main_loop (H := sample_library) "train" "out" false [fz 0] [fz 1]
        ["train/clean_eeg.fif"]
        (logged empty_world "Residual NaNs in train/gapped_eeg.fif") /\
  main_loop (H := sample_library) "train" "out" false [fz 0] [fz 1]
      (["train/clean_eeg.fif"] ++ "train/gapped_eeg.fif" :: ["train/clean_eeg.fif"])
      empty_world
    = match main_loop (H := sample_library) "train" "out" false [fz 0] [fz 1]
              ["train/clean_eeg.fif"] empty_world with
      | (w1, Ok _) =>
          main_loop (H := sample_library) "train" "out" false [fz 0] [fz 1]
            ["train/clean_eeg.fif"]
            (logged w1 "Residual NaNs in train/gapped_eeg.fif")
      | (w1, Raise e) => (w1, Raise e)
      end.
Proof.
  apply (residual_nan_file_is_skipped (H := sample_library)
           "train/gapped_eeg.fif" gapped_recording
           "Data still contain Nans after interpolation"
           "train" "out" false [fz 0] [fz 1]
           ["train/clean_eeg.fif"] ["train/clean_eeg.fif"] empty_world).
  - reflexivity.
  - compute_done.
Defined.

Lemma get_stats_raises_on_failed_recording_witness :
  exists msg,
    get_stats (H := sample_library)
      ["train/clean_eeg.fif"; "train/gapped_eeg.fif"] empty_world
    = (logged empty_world "Residual NaNs in train/gapped_eeg.fif",
       Raise (ValueError msg)).
Proof.
  eapply (get_stats_raises_on_failed_recording (H := sample_library)
            ["train/clean_eeg.fif"; "train/gapped_eeg.fif"] empty_world).
  - vm_compute. reflexivity.
  - apply list_elem_of_further, list_elem_of_here.
Defined.

Lemma get_stats_raises_without_data_witness :
  exists w',
    get_stats (H := sample_library)
      ["train/gapped_eeg.fif"; "train/gapped2_eeg.fif"] empty_world
    = (w', Raise (ValueError "zero-dimensional arrays cannot be concatenated")).
Proof.
  apply (get_stats_raises_without_data (H := sample_library)
           ["train/gapped_eeg.fif"; "train/gapped2_eeg.fif"] empty_world).
  intros file w1 Hfile.
  apply elem_of_cons in Hfile as [->|Hfile];
    [|apply elem_of_cons in Hfile as [->|Hfile]; [|by apply elem_of_nil in Hfile]].
  - eexists. vm_compute. reflexivity.
  - eexists. vm_compute. reflexivity.
Defined.

(** The paths of [main]: [str.replace] replaces every occurrence. *)
Example str_replace_examples :
  str_replace (str_replace "data/pruned/train/s01_eeg.fif" ".fif" ".npy")
              "data/pruned" "data/preprocessed"
    = "data/preprocessed/train/s01_eeg.npy"
  /\ str_replace "a.fif.fif" ".fif" ".npy" = "a.npy.npy"
  /\ str_replace "aaa" "aa" "b" = "ba"
  /\ str_replace "ab" "" "-" = "-a-b-".
Proof. repeat split. Qed.

(** What the loop of [main] writes for a clean file after a skipped one. *)
Example main_loop_example :
  exists z,
    main_loop (H := sample_library) "train" "out" false
      (replicate 32 (fz 1)) (replicate 32 (fz 1))
      ["train/gapped_eeg.fif"; "train/clean_eeg.fif"] empty_world
    = ({| stdout := ["Residual NaNs in train/gapped_eeg.fif"];
          saved := [("out/clean_eeg.npy", z)] |}, Ok tt).
Proof. eexists. vm_compute. reflexivity. Qed.

(** Statistics of a single clean recording. *)
Example get_stats_example :
  exists mean std,
    get_stats (H := sample_library) ["train/clean_eeg.fif"] empty_world
    = (empty_world, Ok (mean, std)) /\
    mean !! 3 = Some (fz 2).
Proof. eexists _, _. split; [vm_compute; reflexivity|]. compute_done. Qed.

(** The statistics come first in [main]: a training file that fails to
    load stops the run in [get_stats], before the loop saves anything. *)
Example main_stops_on_failed_training_file :
  exists w msg,
    main_from_stats (H := sample_library) "train" "out" false
      ["train/clean_eeg.fif"; "train/gapped_eeg.fif"]
      ["train/clean_eeg.fif"; "train/gapped_eeg.fif"]
      [("s01", ["train/clean_eeg.fif"; "train/gapped_eeg.fif"])]
      empty_world
    = (w, Raise (ValueError msg)) /\
    saved w = [].
Proof. eexists _, _. split; [vm_compute; reflexivity|reflexivity]. Qed.

(** * Further properties of [interpolate] *)

Lemma within_threshold_fin (x : float64) :
  within_threshold x -> exists a, x = Fin a.
Proof. intros [Hnan Hexc]. destruct x; by eauto. Qed.

Lemma within_threshold_not_flagged (x : float64) :
  within_threshold x <-> flagged x = false.
Proof. unfold within_threshold, flagged. by rewrite orb_false_iff. Qed.

Lemma nan_or_within_mask (x : float64) : nan_or_within (mask_sample x).
Proof.
  unfold mask_sample. destruct (exceeds x) eqn:Hexc; [by left|].
  destruct x; [right|right|right|by left]; done.
Qed.

Lemma nan_or_within_repair (x : float64) : nan_or_within x -> nan_or_within (repair x).
Proof.
  intros [->|Hx]; [by left|].
  destruct (within_threshold_fin x Hx) as [a ->]. rewrite repair_fin. by right.
Qed.

Lemma fill_from_nan_or_within (prev : float64) (row : list float64) :
  nan_or_within prev -> Forall nan_or_within row ->
  Forall nan_or_within (fill_from prev row).
Proof.
  revert prev. induction row as [|x row IH]; intros prev Hprev Hrow; [done|].
  inversion Hrow as [|? ? Hx Hrow']; subst. cbn [fill_from].
  destruct (isnan x).
  - constructor; [by apply nan_or_within_repair|].
    apply IH; [by apply nan_or_within_repair|done].
  - constructor; [done|]. by apply IH.
Qed.

Lemma fill_row_nan_or_within (row : list float64) :
  Forall nan_or_within row -> Forall nan_or_within (fill_row row).
Proof.
  intros Hrow. destruct row as [|x r]; [done|]. unfold fill_row.
  apply fill_from_nan_or_within; [|done].
  destruct (last_is_Some (x :: r)) as [_ [z Hz]]; [done|]. rewrite Hz. cbn.
  eapply Forall_forall; [exact Hrow|]. by eapply last_Some_elem_of.
Qed.

Lemma no_nan_within (row : list float64) :
  has_nan row = false -> Forall nan_or_within row -> Forall within_threshold row.
Proof.
  induction row as [|x row IH]; intros Hnan Hrow; [done|].
  cbn [has_nan existsb] in Hnan. apply orb_false_iff in Hnan as [Hx Hnan].
  inversion Hrow as [|? ? [->|Hw] Hrow']; subst; [done|].
  constructor; [done|]. by apply IH.
Qed.

Lemma fill_from_length (prev : float64) (row : list float64) :
  length (fill_from prev row) = length row.
Proof.
  revert prev. induction row as [|x row IH]; intros prev; [done|].
  cbn [fill_from length]. by rewrite IH.
Qed.

Lemma fill_row_length (row : list float64) : length (fill_row row) = length row.
Proof. destruct row; [done|]. apply fill_from_length. Qed.

(** What a successful call returned, and why it was successful. *)
Lemma interpolate_ok_inv (raw_data m' : matrix) :
  interpolate raw_data = Ok m' ->
  m' = map fill_row (mask_large raw_data) /\
  existsb residual_row (mask_large raw_data) = false.
Proof.
  rewrite interpolate_closed_form.
  destruct (existsb residual_row (mask_large raw_data)); [done|].
  by intros [= <-].
Qed.

Lemma existsb_false_Forall {A} (p : A -> bool) (l : list A) :
  existsb p l = false -> Forall (fun x => p x = false) l.
Proof.
  induction l as [|x l IH]; [done|]. cbn [existsb].
  intros [Hx Hl]%orb_false_iff. constructor; [done|by apply IH].
Qed.

Lemma filled_row_within (row : list float64) :
  residual_row (map mask_sample row) = false ->
  Forall within_threshold (fill_row (map mask_sample row)).
Proof.
  intros Hres. apply no_nan_within.
  - by rewrite has_nan_fill_row.
  - apply fill_row_nan_or_within.
    clear Hres. induction row as [|x row IH]; cbn [map]; constructor;
      [apply nan_or_within_mask|done].
Qed.

(** X1.  [interpolate] raises [ResidualNan] exactly when some channel
    both starts and ends with a flagged sample (one that is [nan] or
    whose absolute value exceeds 100.0). *)
Theorem interpolate_raises_iff (raw_data : matrix) :
  interpolate raw_data
    = Raise (ResidualNan "Data still contain Nans after interpolation") <->
  exists row x z,
    row ∈ raw_data /\ head row = Some x /\ last row = Some z /\
    flagged x = true /\ flagged z = true.
Proof.
  rewrite interpolate_closed_form.
  assert (Hrow : forall row,
    residual_row (map mask_sample row) = true <->
    exists x z, head row = Some x /\ last row = Some z /\
                flagged x = true /\ flagged z = true).
  { intros [|x r].
    { split; [discriminate|intros (? & ? & [=] & _)]. }
    destruct (last_is_Some (x :: r)) as [_ [z Hz]]; [done|].
    unfold residual_row. cbn [map].
    change (mask_sample x :: map mask_sample r) with (map mask_sample (x :: r)).
    rewrite last_map, Hz. cbn [fmap option_fmap option_map default from_option id].
    rewrite !isnan_mask_sample, andb_true_iff. split.
    - intros [Hx Hz']. exists x, z. repeat split; done.
    - intros (x' & z' & [= <-] & [= <-] & Hx & Hz'). by split. }
  destruct (existsb residual_row (mask_large raw_data)) eqn:Hex.
  - split; [intros _|done].
    apply existsb_exists in Hex as (mrow & Hin & Hres).
    apply in_map_iff in Hin as (row & <- & Hin).
    apply Hrow in Hres as (x & z & Hres).
    exists row, x, z. split; [by apply list_elem_of_In|done].
  - split; [done|]. intros (row & x & z & Hin & Hres).
    assert (Hex' : existsb residual_row (mask_large raw_data) = true).
    { apply existsb_exists. exists (map mask_sample row). split.
      - apply in_map. by apply list_elem_of_In.
      - apply Hrow. by exists x, z. }
    congruence.
Qed.

(** X2.  What [interpolate] returns has the shape of its argument and
    holds only numbers whose absolute value does not exceed 100.0: no
    [nan], no infinity, no large value is left. *)
Theorem interpolate_result_within_threshold (raw_data m' : matrix) :
  interpolate raw_data = Ok m' ->
  Forall2 (fun row row' => length row' = length row) raw_data m' /\
  Forall (Forall within_threshold) m'.
Proof.
  intros [-> Hres]%interpolate_ok_inv.
  unfold mask_large in *. rewrite existsb_map in Hres.
  apply existsb_false_Forall in Hres.
  induction raw_data as [|row m IH]; [by split; constructor|].
  inversion Hres as [|? ? Hrow Hm]; subst.
  destruct (IH Hm) as [IH1 IH2]. cbn [map]. split; constructor; try done.
  - by rewrite fill_row_length, length_map.
  - by apply filled_row_within.
Qed.

Lemma interpolate_result_within_threshold_witness :
  Forall2 (fun row row' => length row' = length row)
    [[fz 1; fz 500; PInf; NaN]; [fz 300; fz 2; fz 9; fz 7]]
    [[fz 1; fz 1; fz 1; fz 1]; [fz 7; fz 2; fz 9; fz 7]] /\
  Forall (Forall within_threshold) [[fz 1; fz 1; fz 1; fz 1]; [fz 7; fz 2; fz 9; fz 7]].
Proof.
  apply (interpolate_result_within_threshold
           [[fz 1; fz 500; PInf; NaN]; [fz 300; fz 2; fz 9; fz 7]]).
  compute_done.
Defined.

Lemma fill_from_lookup_valid (row : list float64) (prev x : float64) (t : nat) :
  row !! t = Some x -> isnan x = false -> fill_from prev row !! t = Some x.
Proof.
  revert prev t. induction row as [|y row IH]; intros prev t Hx Hnan; [done|].
  destruct t as [|t]; cbn [fill_from].
  - cbn in Hx. injection Hx as ->. by rewrite Hnan.
  - cbn in Hx. change ((?h :: ?l) !! S ?n) with (l !! n). by apply IH.
Qed.

Lemma fill_row_lookup_valid (row : list float64) (x : float64) (t : nat) :
  row !! t = Some x -> isnan x = false -> fill_row row !! t = Some x.
Proof.
  destruct row as [|y r]; [done|]. unfold fill_row. apply fill_from_lookup_valid.
Qed.

(** X3.  [interpolate] changes flagged samples only: a sample that is a
    number within the threshold is found unchanged, at the same place,
    in the array returned. *)
Theorem interpolate_keeps_valid_samples
  (raw_data m' : matrix) (c t : nat) (row : list float64) (x : float64) :
  interpolate raw_data = Ok m' ->
  raw_data !! c = Some row -> row !! t = Some x -> within_threshold x ->
  (m' !! c) ≫= (fun r => r !! t) = Some x.
Proof.
  intros [-> _]%interpolate_ok_inv Hc Ht [Hnan Hexc].
  unfold mask_large. rewrite !map_lookup, Hc.
  cbn [fmap option_fmap option_map mbind option_bind].
  apply fill_row_lookup_valid; [|done].
  rewrite map_lookup, Ht. cbn. unfold mask_sample. by rewrite Hexc.
Qed.

Lemma interpolate_keeps_valid_samples_witness :
  ([[fz 1; fz 1; fz 3]; [fz 4; fz 5; fz 5]] !! 1) ≫= (fun r => r !! 1) = Some (fz 5).
Proof.
  apply (interpolate_keeps_valid_samples
           [[fz 1; fz 500; fz 3]; [fz 4; fz 5; fz (-200)]]
           [[fz 1; fz 1; fz 3]; [fz 4; fz 5; fz 5]] 1 1 [fz 4; fz 5; fz (-200)] (fz 5)).
  - compute_done.
  - reflexivity.
  - reflexivity.
  - compute_done.
Defined.

Lemma fill_from_lookup_flagged (row : list float64) (prev x : float64) (t : nat) :
  row !! S t = Some x -> isnan x = true ->
  fill_from prev row !! S t = repair <$> (fill_from prev row !! t).
Proof.
  revert prev t. induction row as [|y row IH]; intros prev t Hx Hnan; [done|].
  cbn in Hx. cbn [fill_from].
  change ((?h :: ?l) !! S ?n) with (l !! n).
  destruct t as [|t].
  - destruct row as [|x' row]; [done|]. cbn in Hx. injection Hx as ->.
    cbn [fill_from]. by rewrite Hnan.
  - change ((?h :: ?l) !! S ?n) with (l !! n). by apply IH.
Qed.

(** X4.  In the array [interpolate] returns, a sample that was flagged
    and is not the first of its channel carries the value of the sample
    just before it: runs of flagged samples are filled with the last
    value that precedes them. *)
Theorem interpolate_forward_fills
  (raw_data m' : matrix) (c t : nat) (row : list float64) (x : float64) :
  interpolate raw_data = Ok m' ->
  raw_data !! c = Some row -> row !! S t = Some x -> flagged x = true ->
  (m' !! c) ≫= (fun r => r !! S t) = (m' !! c) ≫= (fun r => r !! t)
  /\ is_Some ((m' !! c) ≫= (fun r => r !! t)).
Proof.
  intros [-> Hres]%interpolate_ok_inv Hc Ht Hx.
  unfold mask_large in *. rewrite existsb_map in Hres.
  apply existsb_false_Forall in Hres.
  assert (Hrow : residual_row (map mask_sample row) = false).
  { eapply Forall_forall in Hres; [exact Hres|]. by eapply list_elem_of_lookup_2. }
  rewrite !map_lookup, Hc.
  cbn [fmap option_fmap option_map mbind option_bind].
  pose proof (filled_row_within row Hrow) as Hwithin.
  assert (Hlt : t < length (fill_row (map mask_sample row))).
  { rewrite fill_row_length, length_map. apply lookup_lt_Some in Ht. lia. }
  destruct (lookup_lt_is_Some_2 _ _ Hlt) as [y Hy].
  assert (Hfill : fill_row (map mask_sample row) !! S t
                  = repair <$> (fill_row (map mask_sample row) !! t)).
  { destruct row as [|x0 r]; [done|]. unfold fill_row. cbn [map].
    apply (fill_from_lookup_flagged _ _ (mask_sample x)).
    - change (mask_sample x0 :: map mask_sample r) with (map mask_sample (x0 :: r)).
      by rewrite map_lookup, Ht.
    - by rewrite isnan_mask_sample. }
  rewrite Hfill, Hy. cbn [fmap option_fmap option_map].
  eapply Forall_forall in Hwithin; [|by eapply list_elem_of_lookup_2].
  destruct (within_threshold_fin y Hwithin) as [a ->].
  rewrite repair_fin. by eauto.
Qed.

Lemma interpolate_forward_fills_witness :
  ([[fz 1; fz 7; fz 7; fz 7; fz 3]] !! 0) ≫= (fun r => r !! 3)
  = ([[fz 1; fz 7; fz 7; fz 7; fz 3]] !! 0) ≫= (fun r => r !! 2)
  /\ is_Some (([[fz 1; fz 7; fz 7; fz 7; fz 3]] !! 0) ≫= (fun r => r !! 2)).
Proof.
  apply (interpolate_forward_fills
           [[fz 1; fz 7; fz 500; NaN; fz 3]]
           [[fz 1; fz 7; fz 7; fz 7; fz 3]] 0 2 [fz 1; fz 7; fz 500; NaN; fz 3] NaN).
  - compute_done.
  - reflexivity.
  - reflexivity.
  - reflexivity.
Defined.

(** An array of numbers within the threshold goes through unchanged. *)
Lemma interpolate_clean_unchanged (m : matrix) :
  Forall (Forall within_threshold) m -> interpolate m = Ok m.
Proof.
  intros Hall. rewrite interpolate_closed_form.
  assert (Hmask : mask_large m = m).
  { apply map_id_on. eapply Forall_impl; [exact Hall|].
    intros row Hrow. by apply within_threshold_row. }
  rewrite Hmask, existsb_none.
  - f_equal. apply map_id_on. eapply Forall_impl; [exact Hall|].
    intros row Hrow. apply fill_row_no_nan. by apply within_threshold_row.
  - eapply Forall_impl; [exact Hall|].
    intros row Hrow. apply residual_row_no_nan. by apply within_threshold_row.
Qed.

(** X5.  [interpolate] is idempotent: applied to an array it has
    returned, it returns that array again. *)
Theorem interpolate_idempotent (raw_data m' : matrix) :
  interpolate raw_data = Ok m' -> interpolate m' = Ok m'.
Proof.
  intros Hok. apply interpolate_clean_unchanged.
  destruct (interpolate_ok_inv _ _ Hok) as [-> Hres].
  unfold mask_large in *. rewrite existsb_map in Hres.
  apply existsb_false_Forall in Hres.
  induction raw_data as [|row m IH]; [constructor|].
  inversion Hres as [|? ? Hrow Hm]; subst. cbn [map]. constructor.
  - by apply filled_row_within.
  - apply IH; [|done]. rewrite interpolate_closed_form.
    unfold mask_large. rewrite existsb_map, existsb_none; done.
Qed.

Lemma interpolate_idempotent_witness :
  interpolate [[fz 1; fz 1; fz 1; fz 3]] = Ok [[fz 1; fz 1; fz 1; fz 3]].
Proof.
  apply (interpolate_idempotent [[fz 1; fz 500; NInf; fz 3]]).
  compute_done.
Defined.

(** X6.  The channels are repaired independently of each other:
    [interpolate] on an array made of two blocks of channels returns the
    two results one above the other, and fails when it fails on either
    block. *)
Theorem interpolate_app (a b : matrix) :
  interpolate (a ++ b) =
  match interpolate a, interpolate b with
  | Ok a', Ok b' => Ok (a' ++ b')
  | Raise e, _ => Raise e
  | _, Raise e => Raise e
  end.
Proof.
  rewrite !interpolate_closed_form. unfold mask_large.
  rewrite !map_app, existsb_app.
  destruct (existsb residual_row (map (map mask_sample) a));
    destruct (existsb residual_row (map (map mask_sample) b)); reflexivity.
Qed.

(** * Further properties of [z_score] *)

Lemma broadcast_column_scalar
  (op : float64 -> float64 -> float64) (a : matrix) (s : float64) :
  broadcast_column op a [s] = Ok (map (fun row => map (fun x => op x s) row) a).
Proof.
  unfold broadcast_column.
  destruct a as [|row [|row' a]]; reflexivity.
Qed.

(** X7.  A mean and a std vector of one entry are broadcast to every
    channel: each sample [x] of the array becomes [(x - mean) / std],
    whatever the number of channels. *)
Theorem z_score_one_entry (raw_data : matrix) (mu sigma : float64) :
  z_score raw_data [mu] [sigma]
  = Ok (map (map (fun x => fdiv (fsub x mu) sigma)) raw_data).
Proof.
  unfold z_score. rewrite broadcast_column_scalar. cbn [rbind].
  rewrite broadcast_column_scalar. f_equal.
  rewrite map_map. apply map_ext. intros row. by rewrite map_map.
Qed.

Lemma fsub_zero (x : float64) : fsub x (fz 0) = x.
Proof.
  destruct x as [a| | |]; try reflexivity.
  unfold fsub, fneg, fadd, fz. f_equal.
  replace (qz 0) with 0%Qc by (by apply Qc_is_canon). ring.
Qed.

Lemma fdiv_one (x : float64) : fdiv x (fz 1) = x.
Proof.
  destruct x as [a| | |]; try reflexivity.
  unfold fdiv, fz. change (Qc_eqb (qz 1) 0) with false. cbv iota. f_equal.
  replace (qz 1) with 1%Qc by (by apply Qc_is_canon). field. discriminate.
Qed.

Lemma zip_with_replicate {A B C} (f : A -> B -> C) (l : list A) (b : B) :
  zip_with f l (replicate (length l) b) = map (fun a => f a b) l.
Proof. induction l as [|a l IH]; [done|]. cbn. by rewrite IH. Qed.

(** X8.  Standardising with mean 0 and standard deviation 1 in every
    channel returns the array as it is, [nan] and infinities included. *)
Theorem z_score_zero_one (raw_data : matrix) :
  z_score raw_data (replicate (length raw_data) (fz 0))
                   (replicate (length raw_data) (fz 1))
  = Ok raw_data.
Proof.
  rewrite z_score_same_length by apply length_replicate.
  f_equal.
  rewrite zip_with_replicate.
  replace (length raw_data)
    with (length (map (fun a : list float64 => map (fun x => fsub x (fz 0)) a) raw_data))
    by apply length_map.
  rewrite zip_with_replicate, map_map.
  apply map_id_on, Forall_forall. intros row _.
  rewrite map_map. apply map_id_on, Forall_forall. intros x _.
  by rewrite fsub_zero, fdiv_one.
Qed.

Lemma broadcast_column_mismatch
  (op : float64 -> float64 -> float64) (a : matrix) (v : list float64) :
  length v <> length a -> length v <> 1 -> length a <> 1 ->
  broadcast_column op a v
  = Raise (ValueError "operands could not be broadcast together").
Proof.
  intros Hne Hv Ha. unfold broadcast_column.
  replace (Nat.eqb (length a) (length v)) with false
    by (symmetry; apply Nat.eqb_neq; congruence).
  destruct a as [|r [|r' a]], v as [|s [|s' v]]; done.
Qed.

(** X9.  Numpy's broadcasting decides what [z_score] accepts: when the
    array has more than one channel (or none), a mean vector, or with a
    fitting mean vector a std vector, whose length is neither the number
    of channels nor 1 makes [z_score] raise [ValueError]. *)
Theorem z_score_shape_mismatch (raw_data : matrix) (mean std : list float64) :
  length raw_data <> 1 ->
  (length mean <> length raw_data /\ length mean <> 1) \/
  (length mean = length raw_data /\
   length std <> length raw_data /\ length std <> 1) ->
  z_score raw_data mean std
  = Raise (ValueError "operands could not be broadcast together").
Proof.
  intros Hm [[Hmean Hmean1]|(Hmean & Hstd & Hstd1)]; unfold z_score.
  - by rewrite broadcast_column_mismatch.
  - rewrite broadcast_column_same_length by done. cbn [rbind].
    apply broadcast_column_mismatch; rewrite ?length_zip_with_l_eq; congruence.
Qed.

Lemma z_score_shape_mismatch_witness :
  z_score [[fz 1; fz 2]; [fz 3; fz 4]; [fz 5; fz 6]] [fz 0; fz 0] [fz 1; fz 1]
  = Raise (ValueError "operands could not be broadcast together").
Proof.
  apply (z_score_shape_mismatch
           [[fz 1; fz 2]; [fz 3; fz 4]; [fz 5; fz 6]] [fz 0; fz 0] [fz 1; fz 1]).
  - cbn. lia.
  - left. cbn. lia.
Defined.

(** X10.  With one mean and one std per channel, [z_score] returns an
    array of the shape of its argument. *)
Theorem z_score_shape (raw_data : matrix) (mean std : list float64) :
  length mean = length raw_data ->
  length std = length raw_data ->
  exists z,
    z_score raw_data mean std = Ok z /\
    Forall2 (fun row zrow => length zrow = length row) raw_data z.
Proof.
  intros Hmean Hstd. eexists. split; [by apply z_score_same_length|].
  revert mean std Hmean Hstd.
  induction raw_data as [|row m IH]; intros mean std Hmean Hstd.
  - destruct mean; [constructor|discriminate].
  - destruct mean as [|mu mean]; [discriminate|].
    destruct std as [|sigma std]; [discriminate|].
    cbn [zip_with]. constructor; [by rewrite !length_map|].
    apply IH; [by injection Hmean|by injection Hstd].
Qed.

Lemma z_score_shape_witness :
  exists z,
    z_score [[fz 1; fz 2; fz 6]; [fz 4; fz (-5); fz 0]] [fz 3; fz (-1)] [fz 2; fz 0] = Ok z /\
    Forall2 (fun row zrow => length zrow = length row)
            [[fz 1; fz 2; fz 6]; [fz 4; fz (-5); fz 0]] z.
Proof.
  apply (z_score_shape
           [[fz 1; fz 2; fz 6]; [fz 4; fz (-5); fz 0]] [fz 3; fz (-1)] [fz 2; fz 0]);
    reflexivity.
Defined.

(** * Further properties of [open_and_interpolate] and [get_stats] *)

Section Effects.

Context `{Library}.

Lemma extend_nil (w : world) : extend w [] [] = w.
Proof. destruct w. unfold extend. cbn. by rewrite !app_nil_r. Qed.

Lemma extend_extend (w : world) (l1 l2 : list string)
  (o1 o2 : list (string * list (list float64))) :
  extend (extend w l1 o1) l2 o2 = extend w (l1 ++ l2) (o1 ++ o2).
Proof. unfold extend. cbn. by rewrite !app_assoc. Qed.

Lemma writes_ret {A} (a : A) : writes (io_ret a) [] [] (Ok a).
Proof. intros w. unfold io_ret. by rewrite extend_nil. Qed.

Lemma writes_lift {A} (r : result A) : writes (io_lift r) [] [] r.
Proof. intros w. unfold io_lift. by rewrite extend_nil. Qed.

Lemma writes_print (line : string) : writes (print line) [line] [] (Ok tt).
Proof. intros w. unfold print, logged, extend. by rewrite app_nil_r. Qed.

Lemma writes_np_save (file : string) (arr : matrix) :
  writes (np_save file arr) []
    (if np_save_opens file then [(file, arr)] else [])
    (if np_save_opens file then Ok tt
     else Raise (OSError "No such file or directory")).
Proof.
  intros w. unfold np_save. destruct (np_save_opens file).
  - unfold extend. by rewrite app_nil_r.
  - by rewrite extend_nil.
Qed.

Lemma writes_bind_ok {A B} (m : io A) (k : A -> io B) l1 o1 a l2 o2 r l o :
  writes m l1 o1 (Ok a) -> writes (k a) l2 o2 r ->
  l = l1 ++ l2 -> o = o1 ++ o2 ->
  writes (io_bind m k) l o r.
Proof.
  intros Hm Hk -> -> w. unfold io_bind. by rewrite Hm, Hk, extend_extend.
Qed.

Lemma writes_bind_raise {A B} (m : io A) (k : A -> io B) l o e :
  writes m l o (Raise e) -> writes (io_bind m k) l o (Raise e).
Proof. intros Hm w. unfold io_bind. by rewrite Hm. Qed.

(** From any world, [open_and_interpolate] ends in the same way, and
    prints at most its one line. *)
Lemma open_and_interpolate_writes (file : string) (split_bands : bool) :
  exists r,
    writes (open_and_interpolate file split_bands)
      (match r with Ok None => [("Residual NaNs in " ++ file)%string] | _ => [] end) [] r.
Proof.
  destruct (read_raw_fif file) as [raw|e] eqn:Hread.
  - pose proof (open_and_interpolate_read file raw split_bands) as Hopen.
    destruct (interpolate (get_data (kept_channels raw))) as [rows|[]] eqn:Hint.
    2: { exists (Ok None). intros w. rewrite Hopen by done.
         unfold logged, extend. by rewrite app_nil_r. }
    2-6: eexists (Raise _); intros w; rewrite Hopen by done; by rewrite extend_nil.
    destruct (RawArray rows CH_NAMES (fz 128)) as [arr|e] eqn:Harr.
    + eexists (Ok (Some _)). intros w. rewrite Hopen by done.
      by rewrite extend_nil.
    + exists (Raise e). intros w. rewrite Hopen by done. by rewrite extend_nil.
  - exists (Raise e). intros w.
    unfold open_and_interpolate, io_bind, io_lift. rewrite Hread.
    by rewrite extend_nil.
Qed.

(** X12.  How [open_and_interpolate] ends does not depend on what was
    printed or saved before it is called.  It prints one line, naming
    the file, exactly when it returns [None]; in every other case it
    prints nothing; and it never saves anything. *)
Theorem open_and_interpolate_effects (file : string) (split_bands : bool) :
  exists r,
    forall w,
      open_and_interpolate file split_bands w =
      (match r with
       | Ok None => logged w ("Residual NaNs in " ++ file)
       | _ => w
       end, r).
Proof.
  destruct (open_and_interpolate_writes file split_bands) as [r Hr].
  exists r. intros w. rewrite Hr.
  destruct r as [[l|]|e]; rewrite ?extend_nil; try done.
  unfold logged, extend. by rewrite app_nil_r.
Qed.

Lemma io_collect_writes (file_list : list string) :
  exists lines r,
    writes (io_collect file_list (fun file => open_and_interpolate file false))
           lines [] r /\
    Forall (fun line => exists file,
              file ∈ file_list /\ line = ("Residual NaNs in " ++ file)%string) lines.
Proof.
  induction file_list as [|file files (lines & r & Hfiles & Hlines)].
  - exists [], (Ok []). split; [apply writes_ret|constructor].
  - destruct (open_and_interpolate_writes file false) as [r1 Hfile].
    assert (Hlines' : Forall (fun line => exists f,
               f ∈ file :: files /\ line = ("Residual NaNs in " ++ f)%string) lines).
    { eapply Forall_impl; [exact Hlines|].
      intros line (f & Hf & ->). exists f. split; [by apply list_elem_of_further|done]. }
    destruct r1 as [a|e].
    + assert (Hfirst : Forall (fun line => exists f,
               f ∈ file :: files /\ line = ("Residual NaNs in " ++ f)%string)
               match a with
               | Some _ => []
               | None => [("Residual NaNs in " ++ file)%string]
               end).
      { destruct a as [l|]; constructor; [|constructor].
        exists file. split; [apply list_elem_of_here|done]. }
      destruct r as [tmp|e].
      * eexists _, (Ok (a :: tmp)). split.
        -- cbn [io_collect].
           eapply writes_bind_ok; [exact Hfile| |reflexivity|reflexivity].
           eapply writes_bind_ok; [exact Hfiles|apply writes_ret|reflexivity|reflexivity].
        -- apply Forall_app. split; [done|]. apply Forall_app. by split.
      * eexists _, (Raise e). split.
        -- cbn [io_collect].
           eapply writes_bind_ok; [exact Hfile| |reflexivity|reflexivity].
           by apply writes_bind_raise.
        -- apply Forall_app. by split.
    + exists [], (Raise e). split; [|constructor].
      cbn [io_collect]. by apply writes_bind_raise.
Qed.

Lemma get_stats_writes (file_list : list string) :
  exists lines r,
    writes (get_stats file_list) lines [] r /\
    Forall (fun line => exists file,
              file ∈ file_list /\ line = ("Residual NaNs in " ++ file)%string) lines.
Proof.
  destruct (io_collect_writes file_list) as (lines & r & Hcollect & Hlines).
  destruct r as [tmp|e].
  - destruct (np_concatenate (map as_array tmp)) as [data|e] eqn:Hdata.
    + eexists lines, (Ok _). split; [|done]. unfold get_stats.
      eapply writes_bind_ok; [exact Hcollect| |by rewrite app_nil_r|reflexivity].
      eapply writes_bind_ok;
        [rewrite Hdata; apply writes_lift|apply writes_ret|reflexivity|reflexivity].
    + exists lines, (Raise e). split; [|done]. unfold get_stats.
      eapply writes_bind_ok; [exact Hcollect| |by rewrite app_nil_r|reflexivity].
      apply writes_bind_raise. rewrite Hdata. apply writes_lift.
  - exists lines, (Raise e). split; [|done]. unfold get_stats.
    by apply writes_bind_raise.
Qed.

(** X13.  [get_stats] never saves an array, and all it prints are the
    lines of the recordings that failed to load, after what was printed
    before; what it returns does not depend on the world it starts
    from. *)
Theorem get_stats_effects (file_list : list string) :
  exists lines r,
    Forall (fun line => exists file,
              file ∈ file_list /\ line = ("Residual NaNs in " ++ file)%string) lines /\
    forall w,
      get_stats file_list w
      = ({| stdout := stdout w ++ lines; saved := saved w |}, r).
Proof.
  destruct (get_stats_writes file_list) as (lines & r & Hw & Hlines).
  exists lines, r. split; [done|]. intros w. rewrite Hw.
  unfold extend. by rewrite app_nil_r.
Qed.

(** X14.  A recording that does not hold every one of the 32 canonical
    channels is refused: once its samples are interpolated,
    [open_and_interpolate] raises the [ValueError] of the [RawArray]
    constructor, in either mode, and prints nothing. *)
Theorem open_and_interpolate_missing_channel
  (file : string) (raw : Raw) (rows : matrix) (split_bands : bool) (w : world) :
  read_raw_fif file = Ok raw ->
  interpolate (get_data (kept_channels raw)) = Ok rows ->
  length (filter (fun ch => ch ∈ CH_NAMES) (ch_names raw)) <> 32 ->
  open_and_interpolate file split_bands w
  = (w, Raise (ValueError "len(data) does not match len(info['ch_names'])")).
Proof.
  intros Hread Hint Hlen.
  rewrite (open_and_interpolate_read file raw split_bands w Hread), Hint.
  unfold RawArray.
  replace (Nat.eqb (length rows) (length CH_NAMES)) with false; [done|].
  symmetry. apply Nat.eqb_neq. intros Hrows. apply Hlen.
  rewrite <- kept_channels_names, <- kept_channels_lengths.
  rewrite <- (interpolate_length _ _ Hint). exact Hrows.
Qed.

End Effects.

Lemma open_and_interpolate_missing_channel_witness :
  open_and_interpolate (H := short_library) "train/short_eeg.fif" false empty_world
  = (empty_world, Raise (ValueError "len(data) does not match len(info['ch_names'])")).
Proof.
  eapply (open_and_interpolate_missing_channel (H := short_library)
            "train/short_eeg.fif" short_recording).
  - reflexivity.
  - vm_compute. reflexivity.
  - vm_compute. lia.
Defined.

Section Loading.

Context `{Library}.

Lemma map_zip_snd {A B C} (f : B -> C) (names : list A) (rows : list B) :
  map (fun ch => (ch.1, f ch.2)) (zip names rows) = zip names (map f rows).
Proof.
  revert rows. induction names as [|n names IH]; intros [|r rows]; try done.
  cbn. by rewrite <- IH.
Qed.

Lemma get_data_raw_filter (raw : Raw) (args : filter_args) :
  get_data (raw_filter raw args)
  = map (filter_channel (sfreq raw) args) (get_data raw).
Proof.
  unfold get_data, raw_filter. cbn [channels].
  induction (channels raw) as [|[n r] l IH]; [done|]. cbn. by rewrite <- IH.
Qed.

Lemma raw_filter_zip (fs : float64) (names : list string) (rows : matrix)
  (args : filter_args) :
  raw_filter {| sfreq := fs; channels := zip names rows |} args
  = {| sfreq := fs; channels := zip names (map (filter_channel fs args) rows) |}.
Proof. unfold raw_filter. cbn [sfreq channels]. by rewrite map_zip_snd. Qed.

(** X15.  Band splitting loads the files the plain mode loads, skips
    the files it skips and fails where it fails: the dictionary of bands
    is computed from the very array the plain mode returns, labelled
    with the canonical names at 128 Hz. *)
Theorem split_bands_same_outcome (file : string) (w : world) :
  (open_and_interpolate file true w).2 =
  match (open_and_interpolate file false w).2 with
  | Ok (Some (Single arr)) =>
      Ok (Some (Banded (isolate_bands {| sfreq := fz 128; channels := zip CH_NAMES arr |})))
  | other => other
  end.
Proof.
  destruct (read_raw_fif file) as [raw|e] eqn:Hread.
  - rewrite !(open_and_interpolate_read file raw _ w Hread).
    destruct (interpolate (get_data (kept_channels raw))) as [rows|[]]; try done.
    unfold RawArray.
    destruct (Nat.eqb (length rows) (length CH_NAMES)) eqn:Hrows; [|done].
    apply Nat.eqb_eq in Hrows. cbn [snd].
    rewrite (raw_filter_zip (fz 128) CH_NAMES rows broadband). unfold get_data at 1. cbn [channels].
    rewrite snd_zip by (by rewrite length_map, Hrows). reflexivity.
  - unfold open_and_interpolate, io_bind, io_lift. by rewrite Hread.
Qed.

(** X16.  [data.filter] works in place, so the bands of [isolate_bands]
    are cut out of one another: theta is filtered out of the data, alpha
    out of the theta band, beta out of that alpha band and gamma out of
    that beta band, each with transition bandwidths of 1. *)
Theorem isolate_bands_cumulative (data : Raw) :
  let cut low high :=
    map (filter_channel (sfreq data) (band_args (fz low) (fz high))) in
  isolate_bands data =
  [("theta", cut 4 8 (get_data data));
   ("alpha", cut 8 12 (cut 4 8 (get_data data)));
   ("beta", cut 13 30 (cut 8 12 (cut 4 8 (get_data data))));
   ("gamma", cut 30 60 (cut 13 30 (cut 8 12 (cut 4 8 (get_data data)))))]%Z.
Proof.
  intros cut. unfold isolate_bands, bands. cbn [isolate_bands_loop].
  fold (band_args (fz 4) (fz 8)) (band_args (fz 8) (fz 12))
       (band_args (fz 13) (fz 30)) (band_args (fz 30) (fz 60)).
  rewrite !get_data_raw_filter. reflexivity.
Qed.

Lemma loaded_single_length (file : string) (w w' : world) (arr : matrix) :
  open_and_interpolate file false w = (w', Ok (Some (Single arr))) ->
  length arr = 32.
Proof.
  destruct (read_raw_fif file) as [raw|e] eqn:Hread.
  - rewrite (open_and_interpolate_read file raw _ w Hread).
    destruct (interpolate (get_data (kept_channels raw))) as [rows|[]]; try done.
    unfold RawArray.
    destruct (Nat.eqb (length rows) (length CH_NAMES)) eqn:Hrows; [|done].
    apply Nat.eqb_eq in Hrows. intros Heq.
    rewrite (raw_filter_zip (fz 128) CH_NAMES rows broadband) in Heq.
    unfold get_data in Heq. cbn [channels] in Heq.
    rewrite snd_zip in Heq by (by rewrite length_map, Hrows).
    injection Heq as _ <-. by rewrite length_map.
  - unfold open_and_interpolate, io_bind, io_lift. by rewrite Hread.
Qed.

Lemma concat_rest_hconcat (n : nat) (acc : matrix) (rest : list (list (list float64))) :
  length acc = n -> Forall (fun a => length a = n) rest ->
  concat_rest acc (map Some rest) = Ok (hconcat acc rest) /\
  length (hconcat acc rest) = n.
Proof.
  revert acc. induction rest as [|b rest IH]; intros acc Hacc Hrest; [done|].
  apply Forall_cons in Hrest as [Hb Hrest'].
  cbn [map concat_rest hconcat foldl]. unfold concat_two.
  rewrite Hacc, Hb, Nat.eqb_refl. cbn [rbind].
  apply IH; [|done]. by rewrite length_zip_with_l_eq by congruence.
Qed.

Lemma zip_with_app_nil (a : matrix) :
  zip_with app (replicate (length a) []) a = a.
Proof. induction a as [|row a IH]; [done|]. cbn. by rewrite IH. Qed.

(** [np.concatenate] on arrays of [n] channels each. *)
Lemma np_concatenate_hconcat (n : nat) (arrs : list (list (list float64))) :
  arrs <> [] -> Forall (fun a => length a = n) arrs ->
  np_concatenate (map Some arrs) = Ok (hconcat (replicate n []) arrs) /\
  length (hconcat (replicate n []) arrs) = n.
Proof.
  intros Hne Harrs. destruct arrs as [|a rest]; [done|].
  apply Forall_cons in Harrs as [Ha Hrest]. subst n.
  cbn [map np_concatenate hconcat foldl].
  rewrite zip_with_app_nil. by apply concat_rest_hconcat.
Qed.

(** The loop of [get_stats] when every file loads. *)
Lemma io_collect_loaded (file_list : list string) (w : world) :
  (forall file, file ∈ file_list ->
     exists arr, forall w1,
       open_and_interpolate file false w1 = (w1, Ok (Some (Single arr)))) ->
  io_collect file_list (fun file => open_and_interpolate file false) w
  = (w, Ok (map (fun file => Some (Single (loaded_array file))) file_list)) /\
  Forall (fun a => length a = 32) (map loaded_array file_list).
Proof.
  induction file_list as [|file files IH]; intros Hall; [by split|].
  destruct (Hall file) as [arr Harr]; [apply list_elem_of_here|].
  destruct IH as [IH1 IH2].
  { intros f Hf. apply Hall. by apply list_elem_of_further. }
  assert (Hload : loaded_array file = arr).
  { unfold loaded_array. by rewrite Harr. }
  split.
  - cbn [io_collect map]. unfold io_bind at 1. rewrite Harr.
    unfold io_bind at 1. rewrite IH1. unfold io_ret. by rewrite Hload.
  - cbn [map]. constructor; [|done]. rewrite Hload.
    by eapply (loaded_single_length file w w), Harr.
Qed.

(** X17.  When the list of files is not empty and every file loads,
    [get_stats] prints nothing and returns one mean and one standard
    deviation for each of the 32 channels: recordings that load always
    fit together along the time axis. *)
Theorem get_stats_all_loaded (file_list : list string) (w : world) :
  file_list <> [] ->
  (forall file, file ∈ file_list ->
     exists arr, forall w1,
       open_and_interpolate file false w1 = (w1, Ok (Some (Single arr)))) ->
  exists mean std,
    get_stats file_list w = (w, Ok (mean, std)) /\
    length mean = 32 /\ length std = 32.
Proof.
  intros Hne Hall.
  destruct (io_collect_loaded file_list w Hall) as [Hcollect Hrows].
  destruct (np_concatenate_hconcat 32 (map loaded_array file_list)) as [Hdata Hlen];
    [by destruct file_list|done|].
  eexists _, _. split.
  - unfold get_stats, io_bind at 1. rewrite Hcollect.
    rewrite map_map. cbn [as_array].
    rewrite <- (map_map loaded_array Some), Hdata.
    unfold io_bind, io_lift, io_ret. reflexivity.
  - unfold np_mean, np_std. by rewrite !length_map.
Qed.

End Loading.

Lemma get_stats_all_loaded_witness :
  exists mean std,
    get_stats (H := sample_library)
      ["train/clean_eeg.fif"; "train/swapped_eeg.fif"] empty_world
    = (empty_world, Ok (mean, std)) /\
    length mean = 32 /\ length std = 32.
Proof.
  apply (get_stats_all_loaded (H := sample_library)
           ["train/clean_eeg.fif"; "train/swapped_eeg.fif"] empty_world).
  - discriminate.
  - intros file Hfile.
    apply elem_of_cons in Hfile as [->|Hfile];
      [|apply elem_of_cons in Hfile as [->|Hfile]; [|by apply elem_of_nil in Hfile]].
    + eexists. intros w1. vm_compute. reflexivity.
    + eexists. intros w1. vm_compute. reflexivity.
Defined.

(** ** The statistics of files that load *)

Section LoadedStatistics.

Context `{Library}.

Lemma get_stats_loaded_value (file_list : list string) (w : world) :
  file_list <> [] ->
  (forall file, file ∈ file_list ->
     exists arr, forall w1,
       open_and_interpolate file false w1 = (w1, Ok (Some (Single arr)))) ->
  get_stats file_list w =
  (w, Ok (np_mean (hconcat (replicate 32 []) (map loaded_array file_list)),
          np_std (hconcat (replicate 32 []) (map loaded_array file_list)))).
Proof.
  intros Hne Hall.
  destruct (io_collect_loaded file_list w Hall) as [Hcollect Hrows].
  destruct (np_concatenate_hconcat 32 (map loaded_array file_list)) as [Hdata Hlen];
    [by destruct file_list|done|].
  unfold get_stats, io_bind at 1. rewrite Hcollect.
  rewrite map_map. cbn [as_array].
  rewrite <- (map_map loaded_array Some), Hdata.
  unfold io_bind, io_lift, io_ret. reflexivity.
Qed.

End LoadedStatistics.

(** * Further properties of the loop of [main] *)

Section MainLoop.

Context `{Library}.

Lemma io_for_writes {I} (items : list I) (body : I -> io unit) :
  (forall x, exists lines out r, writes (body x) lines out r) ->
  exists lines out r, writes (io_for items body) lines out r.
Proof.
  intros Hbody. induction items as [|x items (l2 & o2 & r2 & IH)].
  - exists [], [], (Ok tt). apply writes_ret.
  - destruct (Hbody x) as (l1 & o1 & [[]|e] & Hx).
    + exists (l1 ++ l2), (o1 ++ o2), r2. cbn [io_for].
      by eapply writes_bind_ok.
    + exists l1, o1, (Raise e). cbn [io_for]. by apply writes_bind_raise.
Qed.

(** The plain mode returns an array or [None], never a dictionary. *)
Lemma plain_mode_single (file : string) (w w' : world) (l : loaded) :
  open_and_interpolate file false w = (w', Ok (Some l)) ->
  exists arr, l = Single arr.
Proof.
  destruct (read_raw_fif file) as [raw|e] eqn:Hread.
  - rewrite (open_and_interpolate_read file raw _ w Hread).
    destruct (interpolate (get_data (kept_channels raw))) as [rows|[]]; try done.
    destruct (RawArray rows CH_NAMES (fz 128)); [|done].
    intros [= _ <-]. by eauto.
  - unfold open_and_interpolate, io_bind, io_lift. by rewrite Hread.
Qed.

Lemma main_loop_body_writes (input_dir output_dir : string) (split_bands : bool)
  (mean std : list float64) (file : string) :
  exists lines out r,
    writes (main_loop_body input_dir output_dir split_bands mean std file)
           lines out r.
Proof.
  destruct (open_and_interpolate_writes file split_bands) as [[[l|]|e] Hopen].
  - unfold main_loop_body.
    destruct split_bands, l as [arr|out].
    + eexists _, _, _. eapply writes_bind_ok;
        [exact Hopen|apply writes_lift|reflexivity|reflexivity].
    + destruct (io_for_writes out (fun '(band_name, data) =>
        io_bind (io_lift (z_score data mean std)) (fun z_data =>
          np_save
            (str_replace
               (str_replace (str_replace file ".fif" ".npy") input_dir output_dir)
               ".npy" ("_" ++ band_name ++ ".npy")) z_data)))
        as (l2 & o2 & r2 & Hfor).
      { intros [band_name data]. destruct (z_score data mean std) as [z|e].
        - eexists _, _, _. eapply writes_bind_ok;
            [apply writes_lift|apply writes_np_save|reflexivity|reflexivity].
        - eexists _, _, _. apply writes_bind_raise, writes_lift. }
      eexists _, _, _. eapply writes_bind_ok;
        [exact Hopen|exact Hfor|reflexivity|reflexivity].
    + destruct (z_score arr mean std) as [z|e] eqn:Hz.
      * eexists _, _, _. eapply writes_bind_ok; [exact Hopen| |reflexivity|reflexivity].
        cbn beta iota. rewrite Hz.
        eapply writes_bind_ok;
          [apply writes_lift|apply writes_np_save|reflexivity|reflexivity].
      * eexists _, _, _. eapply writes_bind_ok; [exact Hopen| |reflexivity|reflexivity].
        cbn beta iota. rewrite Hz.
        apply writes_bind_raise, writes_lift.
    + eexists _, _, _. eapply writes_bind_ok;
        [exact Hopen|apply writes_lift|reflexivity|reflexivity].
  - eexists _, _, _. unfold main_loop_body.
    eapply writes_bind_ok; [exact Hopen|apply writes_ret|reflexivity|reflexivity].
  - eexists _, _, _. unfold main_loop_body. by apply writes_bind_raise.
Qed.

(** From any world the loop prints the same lines, saves the same arrays
    and ends in the same way. *)
Lemma main_loop_writes (input_dir output_dir : string) (split_bands : bool)
  (mean std : list float64) (files : list string) :
  exists lines out r,
    writes (main_loop input_dir output_dir split_bands mean std files) lines out r.
Proof. apply io_for_writes. intros file. apply main_loop_body_writes. Qed.

(** In plain mode, a file the loop gets past is either logged or saved. *)
Lemma main_loop_body_plain (input_dir output_dir : string)
  (mean std : list float64) (file : string) (w w' : world) :
  main_loop_body input_dir output_dir false mean std file w = (w', Ok tt) ->
  w' = logged w ("Residual NaNs in " ++ file) \/
  exists z, w' = extend w []
    [(str_replace (str_replace file ".fif" ".npy") input_dir output_dir, z)].
Proof.
  destruct (open_and_interpolate_writes file false) as [r Hopen].
  unfold main_loop_body, io_bind at 1. rewrite Hopen.
  destruct r as [[l|]|e].
  - destruct (plain_mode_single file w (extend w [] []) l) as [arr ->];
      [by rewrite Hopen|].
    rewrite extend_nil. unfold io_bind, io_lift.
    destruct (z_score arr mean std) as [z|e]; [|done].
    unfold np_save. destruct (np_save_opens _); [|done].
    intros [= <-]. right. exists z.
    unfold extend. by rewrite app_nil_r.
  - unfold io_ret. intros [= <-]. left.
    unfold logged, extend. by rewrite app_nil_r.
  - done.
Qed.

(** X19.  In plain mode every file of a run that completes is accounted
    for: the loop leaves the earlier output in place and adds, for each
    file, either one printed line (the file was skipped) or one saved
    array. *)
Theorem main_loop_accounts_for_every_file
  (input_dir output_dir : string) (mean std : list float64)
  (files : list string) (w w' : world) :
  main_loop input_dir output_dir false mean std files w = (w', Ok tt) ->
  exists lines out,
    w' = extend w lines out /\
    length lines + length out = length files.
Proof.
  revert w. induction files as [|file files IH]; intros w.
  - intros [= <-]. exists [], []. by rewrite extend_nil.
  - unfold main_loop. cbn [io_for]. unfold io_bind at 1.
    destruct (main_loop_body input_dir output_dir false mean std file w)
      as [w1 [[]|e]] eqn:Hbody; [|done].
    intros Hrest. apply IH in Hrest as (lines & out & -> & Hlen).
    apply main_loop_body_plain in Hbody as [->|[z ->]].
    + exists (("Residual NaNs in " ++ file)%string :: lines), out. split.
      * unfold logged, extend. cbn [stdout saved].
        by rewrite <- app_assoc.
      * cbn [length]. lia.
    + eexists lines, (_ :: out). split.
      * rewrite extend_extend. reflexivity.
      * cbn [length]. lia.
Qed.

Lemma main_loop_runs
  (input_dir output_dir : string) (mean std : list float64)
  (files : list string) (w : world) :
  length mean = 32 -> length std = 32 ->
  (forall file, file ∈ files ->
     forall w1, exists r, (open_and_interpolate file false w1).2 = Ok r) ->
  (forall file, file ∈ files ->
     np_save_opens (output_file_of input_dir output_dir file) = true) ->
  exists w', main_loop input_dir output_dir false mean std files w = (w', Ok tt).
Proof.
  intros Hmean Hstd. revert w.
  induction files as [|file files IH]; intros w Hall Hout.
  - by exists w.
  - assert (Hbody : exists w1,
      main_loop_body input_dir output_dir false mean std file w = (w1, Ok tt)).
    { unfold main_loop_body, io_bind at 1.
      destruct (Hall file (list_elem_of_here _ _) w) as [r Hr].
      destruct (open_and_interpolate file false w) as [w1 r1] eqn:Hopen.
      cbn [snd] in Hr. subst r1. destruct r as [l|]; [|by eexists].
      destruct (plain_mode_single file w w1 l Hopen) as [arr ->].
      pose proof (loaded_single_length file w w1 arr Hopen) as Harr.
      unfold io_bind, io_lift.
      rewrite z_score_same_length by congruence.
      unfold np_save. fold (output_file_of input_dir output_dir file).
      rewrite (Hout file (list_elem_of_here _ _)). by eexists. }
    destruct Hbody as [w1 Hbody].
    destruct (IH w1) as [w' Hrest].
    { intros f Hf. apply Hall. by apply list_elem_of_further. }
    { intros f Hf. apply Hout. by apply list_elem_of_further. }
    exists w'. unfold main_loop. cbn [io_for]. unfold io_bind at 1.
    by rewrite Hbody.
Qed.

(** X20.  With one mean and one std for each of the 32 channels, the
    plain-mode loop runs to its end when [open_and_interpolate] raises
    on no file of the list and [np.save] can open the output file of
    each: [z_score] cannot fail on an array that was loaded. *)
Theorem main_loop_completes
  (input_dir output_dir : string) (mean std : list float64)
  (files : list string) (w : world) :
  length mean = 32 -> length std = 32 ->
  (forall file, file ∈ files ->
     forall w1, exists r, (open_and_interpolate file false w1).2 = Ok r) ->
  (forall file, file ∈ files ->
     np_save_opens (output_file_of input_dir output_dir file) = true) ->
  exists w', main_loop input_dir output_dir false mean std files w = (w', Ok tt).
Proof. apply main_loop_runs. Qed.

(** X31.  [np.save] creates no directory: in plain mode, a file that
    loads but whose output file cannot be opened stops the loop with the
    [OSError] of [np.save]; nothing is saved for it, and the files after
    it are not processed. *)
Theorem main_loop_stops_when_save_fails
  (input_dir output_dir : string) (mean std : list float64)
  (file : string) (after : list string) (arr : matrix) (w : world) :
  length mean = 32 -> length std = 32 ->
  open_and_interpolate file false w = (w, Ok (Some (Single arr))) ->
  np_save_opens (output_file_of input_dir output_dir file) = false ->
  main_loop input_dir output_dir false mean std (file :: after) w
  = (w, Raise (OSError "No such file or directory")).
Proof.
  intros Hmean Hstd Hopen Hout.
  pose proof (loaded_single_length file w w arr Hopen) as Harr.
  unfold main_loop. cbn [io_for]. unfold io_bind at 1.
  unfold main_loop_body, io_bind at 1. rewrite Hopen.
  unfold io_bind, io_lift.
  rewrite z_score_same_length by congruence.
  unfold np_save. fold (output_file_of input_dir output_dir file).
  by rewrite Hout.
Qed.

End MainLoop.

Lemma main_loop_accounts_for_every_file_witness :
  exists lines out,
    {| stdout := ["Residual NaNs in train/gapped_eeg.fif"];
       saved := [("out/clean_eeg.npy",
                  get_data (kept_channels clean_recording))] |}
    = extend empty_world lines out /\
    length lines + length out = length ["train/gapped_eeg.fif"; "train/clean_eeg.fif"].
Proof.
  apply (main_loop_accounts_for_every_file (H := sample_library) "train" "out"
           (replicate 32 (fz 0)) (replicate 32 (fz 1))
           ["train/gapped_eeg.fif"; "train/clean_eeg.fif"] empty_world).
  compute_done.
Defined.

Lemma main_loop_completes_witness :
  exists w',
    main_loop (H := sample_library) "train" "out" false
      (replicate 32 (fz 0)) (replicate 32 (fz 1))
      ["train/gapped_eeg.fif"; "train/clean_eeg.fif"] empty_world
    = (w', Ok tt).
Proof.
  apply (main_loop_completes (H := sample_library) "train" "out"
           (replicate 32 (fz 0)) (replicate 32 (fz 1))
           ["train/gapped_eeg.fif"; "train/clean_eeg.fif"] empty_world).
  - reflexivity.
  - reflexivity.
  - intros file Hfile w1.
    apply elem_of_cons in Hfile as [->|Hfile];
      [|apply elem_of_cons in Hfile as [->|Hfile]; [|by apply elem_of_nil in Hfile]].
    + eexists. vm_compute. reflexivity.
    + eexists. vm_compute. reflexivity.
  - intros file Hfile.
    apply elem_of_cons in Hfile as [->|Hfile];
      [|apply elem_of_cons in Hfile as [->|Hfile]; [|by apply elem_of_nil in Hfile]];
      reflexivity.
Defined.

Lemma main_loop_stops_when_save_fails_witness :
  main_loop (H := sample_library) "train" "results" false
    (replicate 32 (fz 0)) (replicate 32 (fz 1))
    ["train/clean_eeg.fif"; "train/swapped_eeg.fif"] empty_world
  = (empty_world, Raise (OSError "No such file or directory")).
Proof.
  eapply (main_loop_stops_when_save_fails (H := sample_library) "train" "results").
  - reflexivity.
  - reflexivity.
  - vm_compute. reflexivity.
  - reflexivity.
Defined.

Section MainRun.

Context `{Library}.

Lemma io_collect_prints {I A} (items : list I) (body : I -> io A) :
  (forall x, exists lines r, writes (body x) lines [] r) ->
  exists lines r, writes (io_collect items body) lines [] r.
Proof.
  intros Hbody. induction items as [|x items (l2 & r2 & IH)].
  - exists [], (Ok []). apply writes_ret.
  - destruct (Hbody x) as (l1 & [a|e] & Hx).
    + destruct r2 as [tmp|e].
      * exists (l1 ++ (l2 ++ [])), (Ok (a :: tmp)). cbn [io_collect].
        eapply writes_bind_ok; [exact Hx| |reflexivity|reflexivity].
        eapply writes_bind_ok; [exact IH|apply writes_ret|reflexivity|reflexivity].
      * exists (l1 ++ l2), (Raise e). cbn [io_collect].
        eapply writes_bind_ok; [exact Hx| |reflexivity|reflexivity].
        by apply writes_bind_raise.
    + exists l1, (Raise e). cbn [io_collect]. by apply writes_bind_raise.
Qed.

Lemma subject_stats_prints (groups : list (string * list string)) :
  exists lines r,
    writes (io_collect groups (fun '(subject_id, files) =>
              io_bind (get_stats files) (fun st => io_ret (subject_id, st))))
           lines [] r.
Proof.
  apply io_collect_prints. intros [subject_id files].
  destruct (get_stats_writes files) as (lines & [st|e] & Hst & _).
  - eexists _, _. eapply writes_bind_ok; [exact Hst|apply writes_ret|reflexivity|reflexivity].
  - eexists _, _. by apply writes_bind_raise.
Qed.

(** X21.  The statistics come first: when [get_stats] fails on the
    training files, the run of [main] ends with that exception, and not
    one array has been saved. *)
Theorem main_stops_when_statistics_fail
  (input_dir output_dir : string) (split_bands : bool)
  (files train_files : list string)
  (train_files_per_subject : list (string * list string))
  (w w1 : world) (e : exn) :
  get_stats train_files (logged w "Computing global statistics...") = (w1, Raise e) ->
  main_from_stats input_dir output_dir split_bands files train_files
    train_files_per_subject w = (w1, Raise e) /\
  saved w1 = saved w.
Proof.
  intros Hstats. split.
  - unfold main_from_stats, io_bind at 1, print at 1.
    unfold io_bind at 1. by rewrite Hstats.
  - destruct (get_stats_writes train_files) as (lines & r & Hw & _).
    rewrite Hw in Hstats. injection Hstats as <- _.
    cbn. apply app_nil_r.
Qed.

(** X22.  The statistics of the subjects are computed and then left
    aside: the arrays a complete run of [main] has saved are those the
    loop saves with the statistics of the whole training set. *)
Theorem per_subject_statistics_unused
  (input_dir output_dir : string) (split_bands : bool)
  (files train_files : list string)
  (train_files_per_subject : list (string * list string))
  (w w' : world) :
  main_from_stats input_dir output_dir split_bands files train_files
    train_files_per_subject w = (w', Ok tt) ->
  exists mean std wl,
    (forall w0, (get_stats train_files w0).2 = Ok (mean, std)) /\
    main_loop input_dir output_dir split_bands mean std files w = (wl, Ok tt) /\
    saved w' = saved wl.
Proof.
  destruct (get_stats_writes train_files) as (gl & gr & Hg & _).
  destruct (subject_stats_prints train_files_per_subject) as (sl & sr & Hs).
  unfold main_from_stats, io_bind at 1, print at 1.
  unfold io_bind at 1. rewrite Hg.
  destruct gr as [[mean std]|e]; [|done].
  destruct (main_loop_writes input_dir output_dir split_bands mean std files)
    as (ml & mo & mr & Hm).
  unfold io_bind at 1, print at 1. unfold io_bind at 1, print at 1.
  unfold io_bind at 1. rewrite Hs.
  destruct sr as [sps|e]; [|done].
  unfold io_bind at 1, print at 1. unfold io_bind at 1, print at 1.
  unfold io_bind at 1. rewrite Hm.
  destruct mr as [[]|e]; [|done].
  unfold print. intros [= <-].
  exists mean, std, (extend w ml mo). repeat split.
  - intros w0. by rewrite Hg.
  - apply Hm.
  - cbn. by rewrite !app_nil_r.
Qed.

(** The band mode returns a dictionary of bands or [None]. *)
Lemma band_mode_banded (file : string) (w w' : world) (l : loaded) :
  open_and_interpolate file true w = (w', Ok (Some l)) ->
  w' = w /\ exists data, l = Banded (isolate_bands data).
Proof.
  destruct (read_raw_fif file) as [raw|e] eqn:Hread.
  - rewrite (open_and_interpolate_read file raw _ w Hread).
    destruct (interpolate (get_data (kept_channels raw))) as [rows|[]]; try done.
    destruct (RawArray rows CH_NAMES (fz 128)); [|done].
    intros [= <- <-]. by eauto.
  - unfold open_and_interpolate, io_bind, io_lift. by rewrite Hread.
Qed.

(** X23.  In band mode a file that is not skipped gives four saved
    arrays, theta, alpha, beta and gamma in this order, each under the
    output name with the band put before the extension. *)
Theorem main_loop_body_bands
  (input_dir output_dir : string) (mean std : list float64)
  (file : string) (w w' : world) :
  main_loop_body input_dir output_dir true mean std file w = (w', Ok tt) ->
  let output_file :=
    str_replace (str_replace file ".fif" ".npy") input_dir output_dir in
  let name band := str_replace output_file ".npy" ("_" ++ band ++ ".npy") in
  w' = logged w ("Residual NaNs in " ++ file) \/
  exists theta alpha beta gamma,
    w' = extend w []
           [(name "theta", theta); (name "alpha", alpha);
            (name "beta", beta); (name "gamma", gamma)].
Proof.
  intros Hbody output_file name.
  unfold main_loop_body, io_bind at 1 in Hbody.
  destruct (open_and_interpolate file true w) as [w1 [[l|]|e]] eqn:Hopen; [| |done].
  - destruct (band_mode_banded file w w1 l Hopen) as [-> [data ->]].
    right. revert Hbody. unfold isolate_bands, bands. cbn [isolate_bands_loop io_for].
    unfold io_bind, io_lift, np_save, io_ret.
    repeat match goal with
           | |- context [z_score ?d mean std] =>
               destruct (z_score d mean std); [|done]
           | |- context [np_save_opens ?f] =>
               destruct (np_save_opens f); [|done]
           end.
    cbn [stdout saved]. intros [= <-]. eexists _, _, _, _.
    unfold extend. rewrite app_nil_r, <- !app_assoc. reflexivity.
  - left. destruct (open_and_interpolate_writes file true) as [r Hw].
    rewrite Hw in Hopen. injection Hopen as <- ->.
    unfold io_ret in Hbody. injection Hbody as <-.
    unfold logged, extend. by rewrite app_nil_r.
Qed.

End MainRun.

Lemma main_stops_when_statistics_fail_witness :
  main_from_stats (H := sample_library) "train" "out" false
    ["train/clean_eeg.fif"; "train/gapped_eeg.fif"]
    ["train/clean_eeg.fif"; "train/gapped_eeg.fif"]
    [("s01", ["train/clean_eeg.fif"]); ("s02", ["train/gapped_eeg.fif"])]
    empty_world
  = ({| stdout := ["Computing global statistics...";
                   "Residual NaNs in train/gapped_eeg.fif"];
        saved := [] |},
     Raise (ValueError "all the input arrays must have same number of dimensions")) /\
  saved {| stdout := ["Computing global statistics...";
                      "Residual NaNs in train/gapped_eeg.fif"];
           saved := [] |} = saved empty_world.
Proof.
  apply (main_stops_when_statistics_fail (H := sample_library)).
  compute_done.
Defined.

Lemma per_subject_statistics_unused_witness :
  exists w' mean std wl,
    main_from_stats (H := sample_library) "train" "out" false
      ["train/gapped_eeg.fif"; "train/clean_eeg.fif"]
      ["train/clean_eeg.fif"; "train/swapped_eeg.fif"]
      [("s01", ["train/clean_eeg.fif"]); ("s02", ["train/swapped_eeg.fif"])]
      empty_world = (w', Ok tt) /\
    (forall w0,
        (get_stats (H := sample_library)
           ["train/clean_eeg.fif"; "train/swapped_eeg.fif"] w0).2 = Ok (mean, std)) /\
    main_loop (H := sample_library) "train" "out" false mean std
      ["train/gapped_eeg.fif"; "train/clean_eeg.fif"] empty_world = (wl, Ok tt) /\
    saved w' = saved wl.
Proof.
  assert (Hrun : exists w',
    main_from_stats (H := sample_library) "train" "out" false
      ["train/gapped_eeg.fif"; "train/clean_eeg.fif"]
      ["train/clean_eeg.fif"; "train/swapped_eeg.fif"]
      [("s01", ["train/clean_eeg.fif"]); ("s02", ["train/swapped_eeg.fif"])]
      empty_world = (w', Ok tt)).
  { eexists. vm_compute. reflexivity. }
  destruct Hrun as [w' Hrun].
  destruct (per_subject_statistics_unused (H := sample_library) _ _ _ _ _ _ _ _ Hrun)
    as (mean & std & wl & Hstats & Hloop & Hsaved).
  exists w', mean, std, wl.
  exact (conj Hrun (conj Hstats (conj Hloop Hsaved))).
Defined.

Lemma main_loop_body_bands_witness :
  exists w',
    main_loop_body (H := sample_library) "train" "out" true
      (replicate 32 (fz 0)) (replicate 32 (fz 1)) "train/clean_eeg.fif" empty_world
    = (w', Ok tt) /\
    (w' = logged empty_world "Residual NaNs in train/clean_eeg.fif" \/
     exists theta alpha beta gamma,
       w' = extend empty_world []
              [("out/clean_eeg_theta.npy", theta); ("out/clean_eeg_alpha.npy", alpha);
               ("out/clean_eeg_beta.npy", beta); ("out/clean_eeg_gamma.npy", gamma)]).
Proof.
  eexists. split; [vm_compute; reflexivity|].
  apply (main_loop_body_bands (H := sample_library) "train" "out"
           (replicate 32 (fz 0)) (replicate 32 (fz 1)) "train/clean_eeg.fif" empty_world).
  vm_compute. reflexivity.
Defined.

(** * The training files and their groups *)

Lemma first_seen_elem (l : list string) (x : string) :
  x ∈ first_seen l <-> x ∈ l.
Proof.
  induction l as [|a l IH]; [done|]. cbn [first_seen].
  rewrite !elem_of_cons, list_elem_of_filter, IH.
  destruct (decide (x = a)); tauto.
Qed.

Lemma first_seen_NoDup (l : list string) : NoDup (first_seen l).
Proof.
  induction l as [|a l IH]; [constructor|]. cbn [first_seen].
  apply NoDup_cons. split; [|by apply NoDup_filter].
  rewrite list_elem_of_filter. by intros [Hne _].
Qed.

Lemma first_seen_snoc (l : list string) (s : string) :
  first_seen (l ++ [s])
  = if decide (s ∈ l) then first_seen l else first_seen l ++ [s].
Proof.
  induction l as [|a l IH].
  - cbn. rewrite decide_False by apply not_elem_of_nil. done.
  - cbn [app first_seen]. rewrite IH.
    destruct (decide (s ∈ l)) as [Hin|Hout].
    + by rewrite decide_True by (by apply list_elem_of_further).
    + rewrite filter_app, filter_cons, filter_nil.
      destruct (decide (s = a)) as [->|Hne].
      * rewrite decide_False by (by intros ?).
        rewrite decide_True by apply list_elem_of_here. by rewrite app_nil_r.
      * rewrite decide_True by done.
        rewrite decide_False; [done|].
        rewrite elem_of_cons. by intros [?|?].
Qed.

(** One turn of the grouping loop on a dictionary given by its keys. *)
Lemma dict_append_map (f : string -> list string) (keys : list string)
  (s p : string) :
  NoDup keys ->
  dict_append (map (fun k => (k, f k)) keys) s p
  = if decide (s ∈ keys)
    then map (fun k => (k, if decide (k = s) then f k ++ [p] else f k)) keys
    else map (fun k => (k, f k)) keys ++ [(s, [p])].
Proof.
  induction keys as [|k keys IH]; intros Hnodup.
  - cbn. by rewrite decide_False by apply not_elem_of_nil.
  - apply NoDup_cons in Hnodup as [Hk Hnodup]. cbn [map dict_append].
    destruct (String.eqb_spec k s) as [->|Hne].
    + rewrite decide_True by apply list_elem_of_here.
      rewrite decide_True by done. f_equal.
      apply map_ext_in. intros k Hin. apply list_elem_of_In in Hin.
      rewrite decide_False; [done|]. by intros ->.
    + rewrite IH by done.
      destruct (decide (s ∈ keys)) as [Hin|Hout].
      * rewrite decide_True by (by apply list_elem_of_further).
        by rewrite decide_False.
      * rewrite decide_False; [done|].
        rewrite elem_of_cons. by intros [?|?].
Qed.

Lemma files_of_subject_snoc (input_dir : string) (train : list split_entry)
  (e : split_entry) (k : string) :
  files_of_subject input_dir (train ++ [e]) k
  = files_of_subject input_dir train k
    ++ (if decide (subject_id e = k) then [train_file input_dir e] else []).
Proof.
  unfold files_of_subject.
  rewrite filter_app, map_app, filter_cons, filter_nil.
  by destruct (decide (subject_id e = k)).
Qed.

Lemma files_of_subject_absent (input_dir : string) (train : list split_entry)
  (k : string) :
  k ∉ map subject_id train -> files_of_subject input_dir train k = [].
Proof.
  intros Hk. unfold files_of_subject.
  induction train as [|e train IH]; [done|].
  rewrite filter_cons. cbn [map] in Hk. rewrite not_elem_of_cons in Hk.
  destruct Hk as [Hne Hk].
  rewrite decide_False by (by intros ?). by apply IH.
Qed.

Lemma train_files_per_subject_eq
  (input_dir : string) (train : list split_entry) :
  train_files_per_subject_of input_dir train
  = map (fun s => (s, files_of_subject input_dir train s))
        (first_seen (map subject_id train)).
Proof.
  induction train as [|e train IH] using rev_ind; [done|].
  unfold train_files_per_subject_of. rewrite foldl_app. cbn [foldl].
  fold (train_files_per_subject_of input_dir train). rewrite IH.
  rewrite dict_append_map by apply first_seen_NoDup.
  rewrite map_app. cbn [map]. rewrite first_seen_snoc.
  destruct (decide (subject_id e ∈ map subject_id train)) as [Hin|Hout].
  - rewrite decide_True by (by apply first_seen_elem).
    apply map_ext. intros k. rewrite files_of_subject_snoc.
    destruct (decide (k = subject_id e)) as [->|Hne].
    + by rewrite decide_True.
    + rewrite decide_False by (by intros ?). by rewrite app_nil_r.
  - rewrite decide_False by (by rewrite first_seen_elem).
    rewrite map_app. cbn [map]. f_equal.
    + apply map_ext_in. intros k Hk.
      apply list_elem_of_In in Hk. apply (proj1 (first_seen_elem _ _)) in Hk.
      rewrite files_of_subject_snoc.
      rewrite decide_False; [by rewrite app_nil_r|].
      intros Heq. apply Hout. by rewrite Heq.
    + rewrite files_of_subject_snoc, files_of_subject_absent by done.
      by rewrite decide_True.
Qed.

Lemma files_of_subject_present (input_dir : string) (train : list split_entry)
  (k : string) :
  k ∈ map subject_id train -> files_of_subject input_dir train k <> [].
Proof.
  intros Hk. unfold files_of_subject.
  apply (list_elem_of_fmap_1 subject_id) in Hk as (e & -> & He).
  intros Hnil. apply map_eq_nil in Hnil.
  by eapply (filter_nil_not_elem_of _ _ e) in Hnil.
Qed.

(** X24.  The grouping loop of [main] builds the dictionary one expects:
    its keys are the subjects of the training split, each once, in the
    order in which they first occur, and the list of a subject holds the
    paths of its training files, in the order of the split; no list is
    empty. *)
Theorem train_files_per_subject_groups
  (input_dir : string) (train : list split_entry) :
  train_files_per_subject_of input_dir train
  = map (fun s => (s, files_of_subject input_dir train s))
        (first_seen (map subject_id train)) /\
  NoDup (train_files_per_subject_of input_dir train).*1 /\
  Forall (fun group => group.2 <> []) (train_files_per_subject_of input_dir train).
Proof.
  rewrite train_files_per_subject_eq. split; [done|]. split.
  - change (map ?f ?l) with (f <$> l). rewrite <- list_fmap_compose.
    cbn. rewrite list_fmap_id. apply first_seen_NoDup.
  - apply Forall_forall. intros [s fs] Hin.
    apply (list_elem_of_fmap_1 (fun s => (s, files_of_subject input_dir train s)))
      in Hin as (k & [= -> ->] & Hk).
    apply files_of_subject_present. by apply first_seen_elem.
Qed.

(** The groups on a small split. *)
Example train_files_per_subject_example :
  train_files_per_subject_of "data/pruned"
    [mkEntry "7" "s02"; mkEntry "3" "s01"; mkEntry "9" "s02"]
  = [("s02", ["data/pruned/train/7_eeg.fif"; "data/pruned/train/9_eeg.fif"]);
     ("s01", ["data/pruned/train/3_eeg.fif"])].
Proof. reflexivity. Qed.

Section SubjectStatistics.

Context `{Library}.

(** When the loop of [get_stats] ends with a list free of [None], every
    file of the list loads, from any world. *)
Lemma io_collect_ok_loaded (file_list : list string) (w0 w1 : world)
  (tmp : list (option loaded)) :
  io_collect file_list (fun file => open_and_interpolate file false) w0 = (w1, Ok tmp) ->
  None ∉ map as_array tmp ->
  forall file, file ∈ file_list ->
    exists arr, forall w,
      open_and_interpolate file false w = (w, Ok (Some (Single arr))).
Proof.
  revert w0 tmp. induction file_list as [|f files IH]; intros w0 tmp Hcollect Hnone.
  - intros file Hfile. by apply elem_of_nil in Hfile.
  - cbn [io_collect] in Hcollect. unfold io_bind at 1 in Hcollect.
    destruct (open_and_interpolate_writes f false) as [r Hr].
    rewrite Hr in Hcollect. destruct r as [a|e]; [|done].
    unfold io_bind at 1 in Hcollect.
    destruct (io_collect files (fun file => open_and_interpolate file false)
                (extend w0 match a with
                           | Some _ => []
                           | None => [("Residual NaNs in " ++ f)%string]
                           end []))
      as [w2 [tmp'|e]] eqn:Hrest; [|done].
    unfold io_ret in Hcollect. injection Hcollect as <- <-.
    cbn [map] in Hnone. rewrite not_elem_of_cons in Hnone.
    destruct Hnone as [Ha Hnone].
    intros file [->|Hfile]%elem_of_cons; [|by eapply IH].
    destruct a as [l|]; [|done].
    destruct (plain_mode_single f w0 (extend w0 [] []) l) as [arr ->];
      [by rewrite Hr|].
    exists arr. intros w. by rewrite Hr, extend_nil.
Qed.

Lemma get_stats_ok_loaded (file_list : list string) (w0 w1 : world)
  (stats : list float64 * list float64) :
  get_stats file_list w0 = (w1, Ok stats) ->
  file_list <> [] /\
  forall file, file ∈ file_list ->
    exists arr, forall w,
      open_and_interpolate file false w = (w, Ok (Some (Single arr))).
Proof.
  intros Hstats. split.
  { intros ->. by rewrite get_stats_empty in Hstats. }
  unfold get_stats, io_bind at 1 in Hstats.
  destruct (io_collect file_list (fun file => open_and_interpolate file false) w0)
    as [w2 [tmp|e]] eqn:Hcollect; [|done].
  apply (io_collect_ok_loaded file_list w0 w2 tmp Hcollect).
  intros Hnone. destruct (np_concatenate_none _ Hnone) as [msg Hmsg].
  unfold io_bind, io_lift in Hstats. by rewrite Hmsg in Hstats.
Qed.

Lemma files_of_subject_train (input_dir : string) (train : list split_entry)
  (k file : string) :
  file ∈ files_of_subject input_dir train k -> file ∈ train_files_of input_dir train.
Proof.
  unfold files_of_subject, train_files_of.
  intros (e & -> & He)%(list_elem_of_fmap_1 (train_file input_dir)).
  apply list_elem_of_filter in He as [_ He].
  by apply (list_elem_of_fmap_2 (train_file input_dir)).
Qed.

Lemma subject_stage_runs (input_dir : string) (train : list split_entry)
  (keys : list string) (w : world) :
  (forall file, file ∈ train_files_of input_dir train ->
     exists arr, forall w1,
       open_and_interpolate file false w1 = (w1, Ok (Some (Single arr)))) ->
  (forall k, k ∈ keys -> k ∈ map subject_id train) ->
  exists sps,
    io_collect (map (fun s => (s, files_of_subject input_dir train s)) keys)
      (fun '(subject_id, files) =>
         io_bind (get_stats files) (fun st => io_ret (subject_id, st))) w
    = (w, Ok sps) /\
    map fst sps = keys.
Proof.
  intros Hall. induction keys as [|k keys IH]; intros Hkeys.
  - by exists [].
  - destruct IH as (sps & Hsps & Hfst).
    { intros k' Hk'. apply Hkeys. by apply list_elem_of_further. }
    eexists (_ :: sps). split.
    + cbn [map io_collect]. unfold io_bind at 1. unfold io_bind at 1.
      rewrite get_stats_loaded_value.
      * unfold io_ret at 1. unfold io_bind at 1. rewrite Hsps. reflexivity.
      * apply files_of_subject_present, Hkeys, list_elem_of_here.
      * intros file Hfile. by eapply Hall, files_of_subject_train.
    + cbn [map fst]. by rewrite Hfst.
Qed.

(** X25.  Once [get_stats] has returned the statistics of the whole
    training set, the statistics of the subjects cannot fail: each group
    is a non-empty part of the training files, so the stage returns one
    pair of vectors for each subject, in the order of the dictionary,
    and prints nothing. *)
Theorem subject_statistics_follow
  (input_dir : string) (train : list split_entry) (w0 w1 w : world)
  (stats : list float64 * list float64) :
  get_stats (train_files_of input_dir train) w0 = (w1, Ok stats) ->
  exists stats_per_subject,
    io_collect (train_files_per_subject_of input_dir train)
      (fun '(subject_id, files) =>
         io_bind (get_stats files) (fun st => io_ret (subject_id, st))) w
    = (w, Ok stats_per_subject) /\
    map fst stats_per_subject = first_seen (map subject_id train).
Proof.
  intros [_ Hall]%get_stats_ok_loaded.
  rewrite train_files_per_subject_eq.
  apply subject_stage_runs; [done|].
  intros k Hk. by apply first_seen_elem.
Qed.

Lemma loaded_hconcat_length (file_list : list string) :
  file_list <> [] ->
  (forall file, file ∈ file_list ->
     exists arr, forall w1,
       open_and_interpolate file false w1 = (w1, Ok (Some (Single arr)))) ->
  length (hconcat (replicate 32 []) (map loaded_array file_list)) = 32.
Proof.
  intros Hne Hall.
  destruct (io_collect_loaded file_list empty_world Hall) as [_ Hrows].
  apply np_concatenate_hconcat; [by destruct file_list|done].
Qed.

(** X26.  A plain run of [main] from the splits on completes when the
    training split is not empty, every training file loads,
    [open_and_interpolate] raises on none of the files to process, and
    [np.save] can open the output file of each of them. *)
Theorem main_completes
  (input_dir output_dir : string) (files : list string)
  (train : list split_entry) (w : world) :
  train <> [] ->
  (forall file, file ∈ train_files_of input_dir train ->
     exists arr, forall w1,
       open_and_interpolate file false w1 = (w1, Ok (Some (Single arr)))) ->
  (forall file, file ∈ files ->
     forall w1, exists r, (open_and_interpolate file false w1).2 = Ok r) ->
  (forall file, file ∈ files ->
     np_save_opens (output_file_of input_dir output_dir file) = true) ->
  exists w',
    main_from_splits input_dir output_dir false files train w = (w', Ok tt).
Proof.
  intros Hne Htrain Hfiles Hout.
  unfold main_from_splits, main_from_stats.
  unfold io_bind at 1, print at 1. unfold io_bind at 1.
  rewrite get_stats_loaded_value; [|by destruct train|done].
  unfold io_bind at 1, print at 1. unfold io_bind at 1, print at 1.
  unfold io_bind at 1.
  rewrite train_files_per_subject_eq.
  destruct (subject_stage_runs input_dir train (first_seen (map subject_id train))
              (logged (logged (logged w "Computing global statistics...")
                         "Global statistics computed!")
                 "Computing subject-wise statistics..."))
    as (sps & -> & _); [done|intros k Hk; by apply first_seen_elem|].
  unfold io_bind at 1, print at 1. unfold io_bind at 1, print at 1.
  unfold io_bind at 1.
  match goal with
  | |- context [main_loop ?i ?o false ?m ?s files ?w0] =>
      destruct (main_loop_runs i o m s files w0) as [w' ->];
        [unfold np_mean; rewrite length_map;
           apply loaded_hconcat_length; [by destruct train|done]
        |unfold np_std; rewrite length_map;
           apply loaded_hconcat_length; [by destruct train|done]
        |done|done|]
  end.
  unfold print. by eexists.
Qed.

End SubjectStatistics.

Lemma subject_statistics_follow_witness :
  exists stats_per_subject,
    io_collect
      (train_files_per_subject_of ""
         [mkEntry "clean" "s02"; mkEntry "swapped" "s01"; mkEntry "clean" "s02"])
      (fun '(subject_id, files) =>
         io_bind (get_stats (H := sample_library) files)
                 (fun st => io_ret (subject_id, st))) empty_world
    = (empty_world, Ok stats_per_subject) /\
    map fst stats_per_subject
    = first_seen (map subject_id
        [mkEntry "clean" "s02"; mkEntry "swapped" "s01"; mkEntry "clean" "s02"]).
Proof.
  assert (Hstats : exists stats,
    get_stats (H := sample_library)
      (train_files_of ""
         [mkEntry "clean" "s02"; mkEntry "swapped" "s01"; mkEntry "clean" "s02"])
      empty_world = (empty_world, Ok stats)).
  { eexists. vm_compute. reflexivity. }
  destruct Hstats as [stats Hstats].
  exact (subject_statistics_follow (H := sample_library) ""
           [mkEntry "clean" "s02"; mkEntry "swapped" "s01"; mkEntry "clean" "s02"]
           empty_world empty_world empty_world stats Hstats).
Defined.

Lemma main_completes_witness :
  exists w',
    main_from_splits (H := data_library) "data" "out" false
      ["data/train/gapped_eeg.fif"; "data/train/clean_eeg.fif"]
      [mkEntry "clean" "s02"; mkEntry "swapped" "s01"] empty_world
    = (w', Ok tt).
Proof.
  apply (main_completes (H := data_library) "data" "out"
           ["data/train/gapped_eeg.fif"; "data/train/clean_eeg.fif"]
           [mkEntry "clean" "s02"; mkEntry "swapped" "s01"] empty_world).
  - discriminate.
  - intros file Hfile.
    apply elem_of_cons in Hfile as [->|Hfile];
      [|apply elem_of_cons in Hfile as [->|Hfile]; [|by apply elem_of_nil in Hfile]].
    + eexists. intros w1. vm_compute. reflexivity.
    + eexists. intros w1. vm_compute. reflexivity.
  - intros file Hfile w1.
    apply elem_of_cons in Hfile as [->|Hfile];
      [|apply elem_of_cons in Hfile as [->|Hfile]; [|by apply elem_of_nil in Hfile]].
    + eexists. vm_compute. reflexivity.
    + eexists. vm_compute. reflexivity.
  - intros file Hfile.
    apply elem_of_cons in Hfile as [->|Hfile];
      [|apply elem_of_cons in Hfile as [->|Hfile]; [|by apply elem_of_nil in Hfile]];
      reflexivity.
Defined.

(** * [interpolate] in [float64] *)

(** The mean of a float within the threshold and itself is computed
    exactly in [float64]. *)
Lemma repair64_exact (v : float64) :
  is_float64 v -> exceeds v = false ->
  fdiv64 (fadd64 v v) (fz 2) = repair v /\ repair v = v.
Proof.
  intros Hv Hexc. destruct v as [q| | |]; [|done|done|done].
  assert (Hrep : repair (Fin q) = Fin q) by apply repair_fin.
  split; [|exact Hrep]. rewrite Hrep.
  unfold is_float64 in Hv. cbn [rounded] in Hv.
  unfold fadd64. cbn [fadd rounded].
  rewrite (round64_double q Hv (exceeds_false_bound q Hexc)).
  unfold fdiv64, fz, fdiv. change (Qc_eqb (qz 2) 0) with false. cbv iota.
  cbn [rounded].
  replace ((q + q) / qz 2)%Qc with q; [exact Hv|].
  replace (qz 2) with (1 + 1)%Qc by (by apply Qc_is_canon).
  field. discriminate.
Qed.

Lemma getitem_Forall (P : float64 -> Prop) (m : matrix) (c t : Z) (v : float64) :
  Forall (Forall P) m -> getitem m c t = Ok v -> P v.
Proof.
  intros Hm. unfold getitem.
  destruct (py_index c (length m)) as [ci|]; [|done]. cbn [rbind].
  destruct (m !! ci) as [row|] eqn:Hrow; [|done].
  unfold row_getitem.
  destruct (py_index t (length row)) as [ti|]; [|done]. cbn [rbind].
  destruct (row !! ti) as [x|] eqn:Hx; [|done]. intros [= <-].
  eapply Forall_lookup_1; [|exact Hx]. eapply Forall_lookup_1; [exact Hm|exact Hrow].
Qed.

Lemma setitem_Forall (P : float64 -> Prop) (m m' : matrix) (c t : Z) (v : float64) :
  Forall (Forall P) m -> P v -> setitem m c t v = Ok m' -> Forall (Forall P) m'.
Proof.
  intros Hm Hv. unfold setitem.
  destruct (py_index c (length m)) as [ci|]; [|done]. cbn [rbind].
  destruct (m !! ci) as [row|] eqn:Hrow; [|done].
  destruct (py_index t (length row)) as [ti|]; [|done]. cbn [rbind].
  intros [= <-]. apply Forall_insert; [exact Hm|].
  apply Forall_insert; [|exact Hv]. eapply Forall_lookup_1; [exact Hm|exact Hrow].
Qed.

Lemma interpolate_step64_exact (m : matrix) (idx : nat * nat) :
  Forall (Forall clean_entry) m ->
  interpolate_step64 m idx = interpolate_step m idx /\
  forall m', interpolate_step m idx = Ok m' -> Forall (Forall clean_entry) m'.
Proof.
  intros Hm. destruct idx as [c t]. unfold interpolate_step64, interpolate_step.
  destruct (getitem m (Z.of_nat c) (Z.of_nat t - 1)) as [v|e] eqn:Hget; [|done].
  cbn [rbind].
  destruct (getitem_Forall clean_entry m _ _ v Hm Hget) as [Hv Hexc].
  destruct (repair64_exact v Hv Hexc) as [E1 E2]. unfold repair in E1, E2.
  rewrite E1. split; [done|]. intros m' Hset.
  eapply setitem_Forall; [exact Hm| |exact Hset]. by rewrite E2.
Qed.

Lemma for_each64_exact (items : list (nat * nat)) (m : matrix) :
  Forall (Forall clean_entry) m ->
  for_each interpolate_step64 items m = for_each interpolate_step items m.
Proof.
  revert m. induction items as [|i items IH]; intros m Hm; [done|].
  cbn [for_each]. destruct (interpolate_step64_exact m i Hm) as [-> Hinv].
  destruct (interpolate_step m i) as [m'|e]; [|done]. cbn [rbind].
  apply IH. by apply Hinv.
Qed.

Lemma mask_large_clean (raw_data : matrix) :
  Forall (Forall is_float64) raw_data ->
  Forall (Forall clean_entry) (mask_large raw_data).
Proof.
  intros Hall. unfold mask_large. apply Forall_fmap.
  eapply Forall_impl; [exact Hall|]. intros row Hrow. cbn.
  apply Forall_fmap. eapply Forall_impl; [exact Hrow|]. intros x Hx. cbn.
  unfold mask_sample. destruct (exceeds x) eqn:Hexc; by split.
Qed.

(** X32.  On an array of floats, [interpolate] computes in [float64]
    what it computes without rounding: the only arithmetic of the loop
    is the mean of a float within the threshold and itself, which is
    exact.  So what is proved of [interpolate] holds of it in [float64]
    as well. *)
Theorem interpolate64_exact (raw_data : matrix) :
  Forall (Forall is_float64) raw_data ->
  interpolate64 raw_data = interpolate raw_data.
Proof.
  intros Hall. unfold interpolate64, interpolate, interpolate_loop64, interpolate_loop.
  by rewrite for_each64_exact by (by apply mask_large_clean).
Qed.

Lemma interpolate64_exact_witness :
  interpolate64 [[f64 (1 # 10); fz 500; f64 (22 # 7)]; [fz 500; NaN; f64 (-5 # 3)]]
  = interpolate [[f64 (1 # 10); fz 500; f64 (22 # 7)]; [fz 500; NaN; f64 (-5 # 3)]].
Proof.
  apply (interpolate64_exact
           [[f64 (1 # 10); fz 500; f64 (22 # 7)]; [fz 500; NaN; f64 (-5 # 3)]]).
  compute_done.
Defined.

(** * A training file with residual [nan] *)

Section TrainingFileFails.

Context `{Library}.

(** A file that loads to [None] leaves a [None] in [tmp] and its line
    in the output. *)
Lemma io_collect_none_elem (file_list : list string) (file : string)
  (w0 w1 : world) (tmp : list (option loaded)) :
  (forall w, open_and_interpolate file false w
             = (logged w ("Residual NaNs in " ++ file), Ok None)) ->
  file ∈ file_list ->
  io_collect file_list (fun f => open_and_interpolate f false) w0 = (w1, Ok tmp) ->
  None ∈ tmp /\ ("Residual NaNs in " ++ file)%string ∈ stdout w1.
Proof.
  intros Hnone. revert w0 tmp.
  induction file_list as [|f files IH]; intros w0 tmp Hfile Hcollect.
  - by apply elem_of_nil in Hfile.
  - cbn [io_collect] in Hcollect. unfold io_bind at 1 in Hcollect.
    destruct (open_and_interpolate f false w0) as [w2 [a|e]] eqn:Hf; [|done].
    unfold io_bind at 1 in Hcollect.
    destruct (io_collect files (fun f => open_and_interpolate f false) w2)
      as [w3 [tmp'|e]] eqn:Hrest; [|done].
    unfold io_ret in Hcollect. injection Hcollect as <- <-.
    apply elem_of_cons in Hfile as [<-|Hfile].
    + rewrite Hnone in Hf. injection Hf as <- <-. split; [apply list_elem_of_here|].
      destruct (io_collect_writes files) as (lines & r & Hw & _).
      rewrite Hw in Hrest. injection Hrest as <- _.
      cbn [extend logged stdout]. rewrite <- app_assoc.
      apply elem_of_app. right. apply list_elem_of_here.
    + destruct (IH w2 tmp' Hfile Hrest) as [Hin Hout].
      split; [by apply list_elem_of_further|exact Hout].
Qed.

(** The loop of [get_stats] raises only what [open_and_interpolate]
    raises on one of the files. *)
Lemma io_collect_raise (file_list : list string) (w0 w1 : world) (e : exn) :
  io_collect file_list (fun f => open_and_interpolate f false) w0 = (w1, Raise e) ->
  exists f w, f ∈ file_list /\ (open_and_interpolate f false w).2 = Raise e.
Proof.
  revert w0. induction file_list as [|f files IH]; intros w0 Hcollect; [done|].
  cbn [io_collect] in Hcollect. unfold io_bind at 1 in Hcollect.
  destruct (open_and_interpolate f false w0) as [w2 [a|e']] eqn:Hf.
  - unfold io_bind at 1 in Hcollect.
    destruct (io_collect files (fun f => open_and_interpolate f false) w2)
      as [w3 [tmp'|e']] eqn:Hrest; [done|].
    injection Hcollect as <- <-.
    destruct (IH w2 Hrest) as (f' & w & Hin & Hraise).
    exists f', w. split; [by apply list_elem_of_further|exact Hraise].
  - injection Hcollect as <- <-. exists f, w0.
    split; [apply list_elem_of_here|by rewrite Hf].
Qed.

(** C7.  The batch driver does not skip a training file on which
    [interpolate] raises [ResidualNan]: [open_and_interpolate] prints
    the line and returns [None] for it, but [main] first passes the
    training files to [get_stats], which keeps the [None], so the run
    ends with an exception before the loop over the files is reached and
    nothing is saved for any file.  When [open_and_interpolate] raises
    on no training file, the exception is the [ValueError] of
    [np.concatenate]. *)
Theorem residual_nan_training_file_stops_main
  (file : string) (raw : Raw) (msg : string)
  (input_dir output_dir : string) (split_bands : bool)
  (files train_files : list string)
  (train_files_per_subject : list (string * list string)) (w : world) :
  read_raw_fif file = Ok raw ->
  interpolate (get_data (kept_channels raw)) = Raise (ResidualNan msg) ->
  file ∈ train_files ->
  (forall mode w0, open_and_interpolate file mode w0
                   = (logged w0 ("Residual NaNs in " ++ file), Ok None)) /\
  exists w' e,
    main_from_stats input_dir output_dir split_bands files train_files
      train_files_per_subject w = (w', Raise e) /\
    saved w' = saved w /\
    ((forall f, f ∈ train_files ->
        forall w1, exists r, (open_and_interpolate f false w1).2 = Ok r) ->
     (exists msg', e = ValueError msg') /\
     ("Residual NaNs in " ++ file)%string ∈ stdout w').
Proof.
  intros Hread Hres Hfile.
  assert (Hmode : forall mode w0, open_and_interpolate file mode w0
            = (logged w0 ("Residual NaNs in " ++ file), Ok None)).
  { intros mode w0. rewrite (open_and_interpolate_read file raw mode w0 Hread).
    by rewrite Hres. }
  split; [exact Hmode|].
  pose proof (Hmode false) as Hnone.
  destruct (get_stats_writes train_files) as (lines & r & Hw & _).
  destruct r as [stats|e].
  { destruct (get_stats_ok_loaded train_files w _ stats (Hw w)) as [_ Hall].
    destruct (Hall file Hfile) as [arr Harr].
    specialize (Harr w). rewrite Hnone in Harr. discriminate. }
  exists (extend (logged w "Computing global statistics...") lines []), e.
  split; [|split].
  - unfold main_from_stats, io_bind at 1, print at 1.
    unfold io_bind at 1. by rewrite Hw.
  - cbn. apply app_nil_r.
  - intros Hall.
    pose proof (Hw (logged w "Computing global statistics...")) as Hstats.
    unfold get_stats, io_bind at 1 in Hstats.
    destruct (io_collect train_files (fun f => open_and_interpolate f false)
                (logged w "Computing global statistics..."))
      as [w2 [tmp|e']] eqn:Hcollect.
    + destruct (io_collect_none_elem train_files file _ w2 tmp Hnone Hfile Hcollect)
        as [Hin Hline].
      destruct (np_concatenate_none (map as_array tmp)) as [msg' Hmsg].
      { change None with (as_array None). by apply (list_elem_of_fmap_2 as_array). }
      unfold io_bind, io_lift in Hstats. rewrite Hmsg in Hstats.
      injection Hstats as Hw2 <-. split; [by exists msg'|].
      by rewrite <- Hw2.
    + destruct (io_collect_raise train_files _ w2 e' Hcollect) as (f & w3 & Hf & Hraise).
      destruct (Hall f Hf w3) as [r Hr]. rewrite Hraise in Hr. discriminate.
Qed.

End TrainingFileFails.

Lemma residual_nan_training_file_stops_main_witness :
  (forall mode w0,
     open_and_interpolate (H := sample_library) "train/gapped_eeg.fif" mode w0
     = (logged w0 "Residual NaNs in train/gapped_eeg.fif", Ok None)) /\
  exists w' e,
    main_from_stats (H := sample_library) "train" "out" false
      ["train/clean_eeg.fif"; "train/gapped_eeg.fif"; "train/swapped_eeg.fif"]
      ["train/clean_eeg.fif"; "train/gapped_eeg.fif"]
      [("s01", ["train/clean_eeg.fif"]); ("s02", ["train/gapped_eeg.fif"])]
      empty_world = (w', Raise e) /\
    saved w' = saved empty_world /\
    ((forall f, f ∈ ["train/clean_eeg.fif"; "train/gapped_eeg.fif"] ->
        forall w1, exists r,
          (open_and_interpolate (H := sample_library) f false w1).2 = Ok r) ->
     (exists msg', e = ValueError msg') /\
     "Residual NaNs in train/gapped_eeg.fif" ∈ stdout w').
Proof.
  apply (residual_nan_training_file_stops_main (H := sample_library)
           "train/gapped_eeg.fif" gapped_recording
           "Data still contain Nans after interpolation"
           "train" "out" false
           ["train/clean_eeg.fif"; "train/gapped_eeg.fif"; "train/swapped_eeg.fif"]
           ["train/clean_eeg.fif"; "train/gapped_eeg.fif"]
           [("s01", ["train/clean_eeg.fif"]); ("s02", ["train/gapped_eeg.fif"])]
           empty_world).
  - reflexivity.
  - compute_done.
  - apply list_elem_of_further, list_elem_of_here.
Defined.

(** * Paths and names *)

Lemma string_app_assoc (a b c : string) :
  ((a ++ b) ++ c = a ++ (b ++ c))%string.
Proof.
  induction a as [|x a IH]; [done|].
  change (String x ((a ++ b) ++ c) = String x (a ++ (b ++ c)))%string.
  by f_equal.
Qed.

Lemma string_app_nil_r (a : string) : (a ++ "")%string = a.
Proof.
  induction a as [|x a IH]; [done|].
  change (String x (a ++ "") = String x a)%string. by f_equal.
Qed.

Lemma prefix_nil (s : string) : String.prefix "" s = true.
Proof. by destruct s. Qed.

Lemma prefix_one_char (x c : Ascii.ascii) (s t : string) :
  String.prefix (String x "") (String c s) = String.prefix (String x "") (String c t).
Proof.
  change (String.prefix (String x "") (String c s))
    with (match Ascii.ascii_dec x c with
          | left _ => String.prefix "" s
          | right _ => false
          end).
  change (String.prefix (String x "") (String c t))
    with (match Ascii.ascii_dec x c with
          | left _ => String.prefix "" t
          | right _ => false
          end).
  destruct (Ascii.ascii_dec x c); [by rewrite !prefix_nil|done].
Qed.

Lemma starts_with_sep_app (a b : string) :
  a <> "" -> starts_with_sep (a ++ b) = starts_with_sep a.
Proof.
  intros Ha. destruct a as [|c a]; [done|].
  change (String c a ++ b)%string with (String c (a ++ b))%string.
  apply prefix_one_char.
Qed.

Lemma ends_with_sep_app (a b : string) :
  b <> "" -> ends_with_sep (a ++ b) = ends_with_sep b.
Proof.
  intros Hb. induction a as [|c a IH]; [done|].
  change (String c a ++ b)%string with (String c (a ++ b))%string.
  destruct (a ++ b)%string as [|d r] eqn:Hab.
  - destruct a as [|d a]; [|discriminate Hab].
    change ("" ++ b)%string with b in Hab. by destruct Hb.
  - exact IH.
Qed.

(** X27.  The path of a training file is the input directory, a slash
    unless the directory is empty or already ends with one, then
    [train/<id>_eeg.fif]; but an id that starts with a slash discards
    the directory altogether. *)
Theorem train_file_shape (input_dir : string) (s : split_entry) :
  train_file input_dir s =
  if starts_with_sep (entry_id s) then (entry_id s ++ "_eeg.fif")%string
  else ((if String.eqb input_dir "" || ends_with_sep input_dir
         then input_dir else input_dir ++ "/")
        ++ "train/" ++ entry_id s ++ "_eeg.fif")%string.
Proof.
  unfold train_file, os_path_join. cbn [foldl].
  assert (Hfile : starts_with_sep (entry_id s ++ "_eeg.fif")
                  = starts_with_sep (entry_id s)).
  { destruct (entry_id s) as [|c r] eqn:Hid; [done|].
    by apply starts_with_sep_app. }
  unfold join_step at 1. rewrite Hfile.
  destruct (starts_with_sep (entry_id s)); [done|].
  unfold join_step. change (starts_with_sep "train") with false. cbv iota.
  assert (Hend : forall a : string,
            String.eqb (a ++ "train") "" || ends_with_sep (a ++ "train") = false).
  { intros a. rewrite ends_with_sep_app by done.
    destruct a; by cbn. }
  destruct (String.eqb input_dir "" || ends_with_sep input_dir).
  - rewrite Hend. by rewrite !string_app_assoc.
  - rewrite <- string_app_assoc, Hend. by rewrite !string_app_assoc.
Qed.

Lemma prefix_app (old b : string) : String.prefix old (old ++ b) = true.
Proof.
  induction old as [|c old IH]; [apply prefix_nil|].
  change (String c old ++ b)%string with (String c (old ++ b))%string.
  change (String.prefix (String c old) (String c (old ++ b)))
    with (match Ascii.ascii_dec c c with
          | left _ => String.prefix old (old ++ b)
          | right _ => false
          end).
  by destruct (Ascii.ascii_dec c c).
Qed.

Lemma replace_go_skip (x old new b : string) :
  replace_go (String.length x) old new (x ++ b) = replace_go 0 old new b.
Proof.
  induction x as [|c x IH]; [done|].
  change (String c x ++ b)%string with (String c (x ++ b))%string.
  exact IH.
Qed.

Lemma replace_go_absent (old new s : string) :
  occurs old s = false -> replace_go 0 old new s = s.
Proof.
  induction s as [|c s IH]; [done|].
  cbn [occurs replace_go]. intros [Hpre Hrest]%orb_false_iff.
  rewrite Hpre. f_equal. by apply IH.
Qed.

(** X28.  [str.replace] leaves a string in which [old] does not occur as
    it is: a file whose name has no [.fif] keeps its name. *)
Theorem str_replace_absent (s old new : string) :
  occurs old s = false -> str_replace s old new = s.
Proof.
  intros Hocc. destruct old as [|c old].
  - by destruct s.
  - by apply replace_go_absent.
Qed.

Lemma str_replace_absent_witness :
  str_replace "data/pruned/train/s01_eeg.npy" ".fif" ".npy"
  = "data/pruned/train/s01_eeg.npy".
Proof. apply str_replace_absent. reflexivity. Defined.

(** X29.  [str.replace] works from the left: past a prefix in which the
    first character of [old] does not occur, the occurrence of [old] is
    replaced and the replacement goes on in what follows.  So a name
    without a dot followed by [.fif] gets [.npy] instead. *)
Theorem str_replace_first (a old new b : string) (c : Ascii.ascii) (old' : string) :
  old = String c old' ->
  has_char c a = false ->
  str_replace (a ++ old ++ b) old new = (a ++ new ++ str_replace b old new)%string.
Proof.
  intros -> Ha. unfold str_replace.
  induction a as [|d a IH].
  - change ("" ++ String c old' ++ b)%string with (String c (old' ++ b))%string.
    change ("" ++ new ++ replace_go 0 (String c old') new b)%string
      with (new ++ replace_go 0 (String c old') new b)%string.
    cbn [replace_go].
    change (String c (old' ++ b))%string with (String c old' ++ b)%string at 1.
    rewrite prefix_app. cbn [String.length].
    replace (S (String.length old') - 1) with (String.length old') by lia.
    by rewrite replace_go_skip.
  - cbn [has_char] in Ha. apply orb_false_iff in Ha as [Hd Ha].
    change (String d a ++ String c old' ++ b)%string
      with (String d (a ++ String c old' ++ b))%string.
    change (String d a ++ new ++ replace_go 0 (String c old') new b)%string
      with (String d (a ++ new ++ replace_go 0 (String c old') new b))%string.
    cbn [replace_go].
    assert (Hpre : String.prefix (String c old') (String d (a ++ String c old' ++ b))
                   = false).
    { change (String.prefix (String c old') (String d (a ++ String c old' ++ b)))
        with (match Ascii.ascii_dec c d with
              | left _ => String.prefix old' (a ++ String c old' ++ b)
              | right _ => false
              end).
      destruct (Ascii.ascii_dec c d) as [->|Hne]; [|done].
      by rewrite Ascii.eqb_refl in Hd. }
    rewrite Hpre. f_equal. by apply IH.
Qed.

Lemma str_replace_first_witness :
  str_replace ("data/pruned/train/s01_eeg" ++ ".fif" ++ "") ".fif" ".npy"
  = ("data/pruned/train/s01_eeg" ++ ".npy" ++ str_replace "" ".fif" ".npy")%string.
Proof.
  eapply (str_replace_first "data/pruned/train/s01_eeg" ".fif" ".npy" "");
    reflexivity.
Defined.
